(** * movie-sync: the media file formatter (file_formatter.py / format.py)

    A shallow embedding of [JellyfinFormatter] and theorems about it.

    Text.  A Python [str] is modelled as a list of [ascii]; the 256 values of
    [ascii] stand for the code points U+0000..U+00FF, so the development
    covers the strings whose code points are below 256.  On that range the
    character classes of [re] and [str] are the ones defined below: [\s] and
    [str.strip()] use the same whitespace set, [\d] is [0-9], [str.lower]
    moves [A-Z] and the Latin-1 capitals, and [re.IGNORECASE] identifies a
    pattern letter with its two ASCII cases only.

    Regular expressions.  The patterns of the source are transcribed node by
    node into a small pattern language ([node]) that is run by a backtracking
    matcher with the priorities of [re]: greedy and lazy repetition of a
    character class, optional character, alternation of literals, [^], [$]
    and group marks.

    Paths.  [Path(x).name], [.stem] and [.suffix] follow [pathlib] for POSIX
    paths as in Python 3.4 to 3.13 (a name that ends in a dot has no suffix).

    Output.  [print] is modelled by a list of events; the tree prefixes,
    icons and colours of the messages are presentation and are left out.

    The two source files.  file_formatter.py is format.py with a dry-run
    flag: with [dry_run = false] the two make the same calls on the file
    system and differ in the wording and the moment of their messages.  The
    embedding follows file_formatter.py and takes [dry_run] as a parameter.

    The file system.  A directory is an association list from names to
    files and directories.  What [Path.rename] does with an existing target
    depends on the platform, so the functions that rename take the parameter
    [replaces]: [true] for POSIX, where the target is replaced, [false] for
    Windows, where the call raises.  An exception that the source catches
    becomes an error event; the one it does not catch ([mkdir] on a name
    taken by a file) ends the run with [Raised]. *)

From Stdlib Require Import List Bool Arith Lia NArith Ascii String DecimalString DecimalNat.
From Stdlib Require Import Sorting.Sorted Sorting.Permutation.
Import ListNotations.
Local Open Scope list_scope.

Set Warnings "-register-all".

(** ** Characters and strings *)

Definition str := list ascii.

Definition L (s : string) : str := list_ascii_of_string s.

Definition code (c : ascii) : N := N_of_ascii c.

Definition in_range (lo hi : N) (c : ascii) : bool :=
  (N.leb lo (code c) && N.leb (code c) hi)%bool.

Definition is_char (a c : ascii) : bool := Ascii.eqb c a.

(** [str.isspace] on one character, also the class [\s] of [re]. *)
Definition is_space (c : ascii) : bool :=
  in_range 9 13 c || in_range 28 32 c || N.eqb (code c) 133 || N.eqb (code c) 160.

(** The class [\d]. *)
Definition is_digit (c : ascii) : bool := in_range 48 57 c.

Definition newline : ascii := ascii_of_N 10.

(** The class [.] (no DOTALL flag): anything but a line feed. *)
Definition dot (c : ascii) : bool := negb (is_char newline c).

(** [str.lower] on one character. *)
Definition lower_char (c : ascii) : ascii :=
  if in_range 65 90 c || (in_range 192 222 c && negb (N.eqb (code c) 215))
  then ascii_of_N (code c + 32) else c.

Definition lower (s : str) : str := map lower_char s.

(** A literal character of a pattern compiled with [re.IGNORECASE]. *)
Definition ci (a c : ascii) : bool := Ascii.eqb (lower_char c) (lower_char a).

Definition str_eqb (a b : str) : bool :=
  if list_eq_dec ascii_dec a b then true else false.

Definition mem (x : str) (l : list str) : bool := existsb (str_eqb x) l.

Fixpoint lstrip (p : ascii -> bool) (s : str) : str :=
  match s with
  | c :: s' => if p c then lstrip p s' else s
  | [] => []
  end.

Definition rstrip (p : ascii -> bool) (s : str) : str := rev (lstrip p (rev s)).

(** [s.strip()] is [strip is_space s]; [s.strip(chars)] is
    [strip (fun c => existsb (is_char c) chars) s]. *)
Definition strip (p : ascii -> bool) (s : str) : str := rstrip p (lstrip p s).

Definition one_of (chars : str) (c : ascii) : bool := existsb (Ascii.eqb c) chars.

(** ** The pattern language and its backtracking matcher *)

Inductive node : Type :=
| Chr (p : ascii -> bool)                       (* one character of a class *)
| Rep (greedy : bool) (lo : nat) (p : ascii -> bool)  (* p{lo,} or p{lo,}? *)
| Opt (p : ascii -> bool)                       (* p? *)
| Alt (alts : list str)                         (* (lit1|lit2|...) *)
| Bos                                           (* ^ *)
| Eos                                           (* $ *)
| Mark.                                         (* a group boundary *)

Definition pattern := list node.

(** The result of a match: the end position and the group boundaries, most
    recent first. *)
Definition result : Type := nat * list nat.

Section Repetition.
Variable p : ascii -> bool.
Variable k : nat -> str -> option result.

Fixpoint rep_greedy (pos : nat) (s : str) : option result :=
  match s with
  | c :: s' =>
      if p c then
        match rep_greedy (S pos) s' with
        | Some r => Some r
        | None => k pos s
        end
      else k pos s
  | [] => k pos []
  end.

Fixpoint rep_lazy (pos : nat) (s : str) : option result :=
  match k pos s with
  | Some r => Some r
  | None =>
      match s with
      | c :: s' => if p c then rep_lazy (S pos) s' else None
      | [] => None
      end
  end.

Fixpoint exactly (n : nat) (k' : nat -> str -> option result)
    (pos : nat) (s : str) : option result :=
  match n with
  | 0 => k' pos s
  | S n' =>
      match s with
      | c :: s' => if p c then exactly n' k' (S pos) s' else None
      | [] => None
      end
  end.
End Repetition.

Fixpoint strip_prefix (lit s : str) : option str :=
  match lit, s with
  | [], _ => Some s
  | a :: lit', c :: s' => if Ascii.eqb c a then strip_prefix lit' s' else None
  | _ :: _, [] => None
  end.

Section Alternatives.
Variable k : nat -> str -> option result.

Fixpoint first_alt (alts : list str) (pos : nat) (s : str) : option result :=
  match alts with
  | [] => None
  | a :: alts' =>
      match strip_prefix a s with
      | Some s' =>
          match k (pos + List.length a) s' with
          | Some r => Some r
          | None => first_alt alts' pos s
          end
      | None => first_alt alts' pos s
      end
  end.
End Alternatives.

(** [run pat pos s marks]: match [pat] against [s], the text that starts at
    position [pos] of the subject. *)
Fixpoint run (pat : pattern) (pos : nat) (s : str) (marks : list nat)
    {struct pat} : option result :=
  match pat with
  | [] => Some (pos, marks)
  | n :: pat' =>
      match n with
      | Chr p =>
          match s with
          | c :: s' => if p c then run pat' (S pos) s' marks else None
          | [] => None
          end
      | Rep g lo p =>
          let k := fun pos' s' => run pat' pos' s' marks in
          exactly p lo (if g then rep_greedy p k else rep_lazy p k) pos s
      | Opt p =>
          match s with
          | c :: s' =>
              if p c then
                match run pat' (S pos) s' marks with
                | Some r => Some r
                | None => run pat' pos s marks
                end
              else run pat' pos s marks
          | [] => run pat' pos s marks
          end
      | Alt alts => first_alt (fun pos' s' => run pat' pos' s' marks) alts pos s
      | Bos => if Nat.eqb pos 0 then run pat' pos s marks else None
      | Eos =>
          match s with
          | [] => run pat' pos s marks
          | [c] => if is_char newline c then run pat' pos s marks else None
          | _ => None
          end
      | Mark => run pat' pos s (pos :: marks)
      end
  end.

(** [re.search]: the first start position at which the pattern matches. *)
Fixpoint search_from (pat : pattern) (pos : nat) (s : str) : option result :=
  match run pat pos s [] with
  | Some r => Some r
  | None =>
      match s with
      | [] => None
      | _ :: s' => search_from pat (S pos) s'
      end
  end.

Definition re_search (pat : pattern) (s : str) : option result :=
  search_from pat 0 s.

Definition substring (a b : nat) (s : str) : str := firstn (b - a) (skipn a s).

(** [re.sub(pat, repl, s)]: the matches are found from left to right and do
    not overlap; [skip] counts the characters of the current match that are
    still to be dropped.  An empty match is replaced and the scan moves on
    by one character, as [re] does since Python 3.7. *)
Fixpoint sub_from (pat : pattern) (repl : str) (skip pos : nat) (s : str) : str :=
  match s with
  | [] =>
      match skip, run pat pos [] [] with
      | 0, Some _ => repl
      | _, _ => []
      end
  | c :: s' =>
      match skip with
      | S j => sub_from pat repl j (S pos) s'
      | 0 =>
          match run pat pos s [] with
          | Some (e, _) =>
              match e - pos with
              | 0 => repl ++ c :: sub_from pat repl 0 (S pos) s'
              | S j => repl ++ sub_from pat repl j (S pos) s'
              end
          | None => c :: sub_from pat repl 0 (S pos) s'
          end
      end
  end.

Definition re_sub (pat : pattern) (repl s : str) : str := sub_from pat repl 0 0 s.

(** A literal string in a pattern, with and without [re.IGNORECASE]. *)
Definition lit_ci (s : str) : pattern := map (fun a => Chr (ci a)) s.
Definition lit (s : str) : pattern := map (fun a => Chr (is_char a)) s.

(** ** Paths: [Path(x).name], [.suffix], [.stem] *)

Definition slash : ascii := ascii_of_N 47.
Definition period : ascii := ascii_of_N 46.

(** The components of a path: the pieces between slashes. *)
Fixpoint split_slash (cur : str) (s : str) : list str :=
  match s with
  | [] => [rev cur]
  | c :: s' =>
      if is_char slash c then rev cur :: split_slash [] s'
      else split_slash (c :: cur) s'
  end.

(** [Path(x).name]: the last component that is neither empty nor ["."]. *)
Definition path_name (x : str) : str :=
  last (filter (fun p => negb (str_eqb p [] || str_eqb p [period]))
               (split_slash [] x)) [].

(** [name.rfind('.')], [None] for -1. *)
Fixpoint rfind_dot (s : str) : option nat :=
  match s with
  | [] => None
  | c :: s' =>
      match rfind_dot s' with
      | Some i => Some (S i)
      | None => if is_char period c then Some 0 else None
      end
  end.

(** The index at which the suffix starts, when [0 < i < len(name) - 1]. *)
Definition suffix_index (name : str) : option nat :=
  match rfind_dot name with
  | Some i => if (0 <? i) && (S i <? List.length name) then Some i else None
  | None => None
  end.

Definition suffix (name : str) : str :=
  match suffix_index name with
  | Some i => skipn i name
  | None => []
  end.

Definition stem (name : str) : str :=
  match suffix_index name with
  | Some i => firstn i name
  | None => name
  end.

(** ** The configuration of [JellyfinFormatter.__init__] *)

Definition video_extensions : list str :=
  map L [".mp4"; ".mkv"; ".avi"; ".mov"; ".wmv"; ".flv"; ".webm"; ".m4v"]%string.

Definition subtitle_extensions : list str :=
  map L [".srt"; ".sub"; ".ass"; ".ssa"; ".vtt"; ".idx"; ".sup"]%string.

Definition unwanted_extensions : list str :=
  map L [".txt"; ".url"; ".lnk"; ".nfo"; ".jpg"; ".jpeg"; ".png"; ".gif";
         ".bmp"; ".exe"; ".msi"; ".zip"; ".rar"; ".7z"]%string.

(** [\[.*?TOKEN.*?\]] *)
Definition bracketed (token : string) : pattern :=
  [Chr (ci "["%char); Rep false 0 dot] ++ lit_ci (L token)
  ++ [Rep false 0 dot; Chr (ci "]"%char)].

(** [\.TOKEN\.] *)
Definition dotted (token : string) : pattern :=
  lit_ci (L "." ++ L token ++ L ".").

Definition release_patterns : list pattern :=
  map bracketed
    ["YTS"; "RARBG"; "1080p"; "720p"; "480p"; "WEBRip"; "BluRay"; "BRRip";
     "HDRip"; "DVDRip"; "x264"; "x265"; "HEVC"; "5.1"; "AAC"]%string
  ++ map dotted
    ["1080p"; "720p"; "480p"; "WEBRip"; "BluRay"; "BRRip"; "HDRip"; "DVDRip";
     "x264"; "x265"; "HEVC"]%string
  ++ [ lit_ci (L ".AAC") ++ [Opt (ci "5"%char)] ++ lit_ci (L ".1");  (* \.AAC5?\.1 *)
       lit_ci (L "-[YTS.MX]");                                       (* -\[YTS\.MX\] *)
       lit_ci (L "-RARBG");
       lit_ci (L ".YTS.MX");
       lit_ci (L ".RARBG") ].

(** ** Output events *)

Inductive action := Rename | Move | Delete.

Inductive event : Type :=
| Action (dry_run : bool) (a : action) (old_name new_name : str)
    (* print_action *)
| TruncatedYear (dry_run : bool) (year_prefix year_full : str)
| ErrorRemoving (name : str)
| ErrorMoving
| ErrorRenaming (what : str)
| CreateSubsDryRun
| CouldNotExtract (name : str)
| NoYearFound (name : str)
| AlreadyFormatted (name : str)
| MissingDirectory
| Header (dry_run : bool).

(** ** extract_title_year and format_name *)

(** [\s*\(\s*\(\s*] *)
Definition double_open : pattern :=
  [Rep true 0 is_space; Chr (is_char "("%char); Rep true 0 is_space;
   Chr (is_char "("%char); Rep true 0 is_space].

(** [\s*\)\s*\)\s*] *)
Definition double_close : pattern :=
  [Rep true 0 is_space; Chr (is_char ")"%char); Rep true 0 is_space;
   Chr (is_char ")"%char); Rep true 0 is_space].

(** [^(.+?)\s*\(\s*((19|20)\d{2})\s*\).*$] *)
Definition year_in_parens : pattern :=
  [Bos; Mark; Rep false 1 dot; Mark; Rep true 0 is_space; Chr (is_char "("%char);
   Rep true 0 is_space; Mark; Alt [L "19"; L "20"]; Chr is_digit; Chr is_digit;
   Mark; Rep true 0 is_space; Chr (is_char ")"%char); Rep true 0 dot; Eos].

(** [^(.+?)\s*\(\s*(19|20)\s*\).*$] *)
Definition truncated_year : pattern :=
  [Bos; Mark; Rep false 1 dot; Mark; Rep true 0 is_space; Chr (is_char "("%char);
   Rep true 0 is_space; Mark; Alt [L "19"; L "20"];
   Mark; Rep true 0 is_space; Chr (is_char ")"%char); Rep true 0 dot; Eos].

(** [group(1)] and [group(2)] of a match of one of the two patterns. *)
Definition groups (name : str) (r : result) : option (str * str) :=
  match snd r with
  | [e2; b2; e1; b1] => Some (substring b1 e1 name, substring b2 e2 name)
  | _ => None
  end.

Definition search_groups (pat : pattern) (name : str) : option (str * str) :=
  match re_search pat name with
  | Some r => groups name r
  | None => None
  end.

(** The "Clean up title" block, the same in both branches. *)
Definition remove_noise (title : str) : str :=
  fold_left (fun t pat => re_sub pat [] t) release_patterns title.

Definition clean_title (title : str) : str :=
  let title := remove_noise title in
  let title := re_sub [Rep true 1 (one_of (L "._"))] (L " ") title in
  let title := strip is_space (re_sub [Rep true 1 is_space] (L " ") title) in
  strip (one_of (L " .-_()[]{}")) title.

Definition repair (name : str) : str :=
  re_sub double_close (L ") ") (re_sub double_open (L " (") name).

Definition nonempty (title year : str) : option (str * str) :=
  match title with
  | [] => None
  | _ => Some (title, year)
  end.

(** The value returned and the lines printed. *)
Definition extract_title_year (dry_run : bool) (filename : str)
    : option (str * str) * list event :=
  let name := repair (stem (path_name filename)) in
  match search_groups year_in_parens name with
  | Some (g1, year_full) =>
      (nonempty (clean_title (strip is_space g1)) year_full, [])
  | None =>
      match search_groups truncated_year name with
      | Some (g1, year_prefix) =>
          let year_full := if str_eqb year_prefix (L "19") then L "1999" else L "2020" in
          (nonempty (clean_title (strip is_space g1)) year_full,
           [TruncatedYear dry_run year_prefix year_full])
      | None => (None, [])
      end
  end.

Definition format_name (title year : str) : str := title ++ L " (" ++ year ++ L ")".

Definition show (r : option (str * str)) : option (string * string) :=
  match r with
  | Some (t, y) => Some (string_of_list_ascii t, string_of_list_ascii y)
  | None => None
  end.

(** ** The file system

    A directory is its listing: the entries in the order [iterdir] yields
    them (an order the platform chooses; a renamed entry keeps its place
    here).  The content of a file is a number, so that overwriting shows. *)

Inductive entry : Type :=
| File (data : nat)
| Dir (items : list (str * entry)).

Definition dir := list (str * entry).
Definition path := list str.

Fixpoint lookup (n : str) (d : dir) : option entry :=
  match d with
  | [] => None
  | (m, e) :: d' => if str_eqb m n then Some e else lookup n d'
  end.

Definition is_file (n : str) (d : dir) : bool :=
  match lookup n d with Some (File _) => true | _ => false end.

Definition is_dir (n : str) (d : dir) : bool :=
  match lookup n d with Some (Dir _) => true | _ => false end.

Fixpoint remove (n : str) (d : dir) : dir :=
  match d with
  | [] => []
  | (m, e) :: d' => if str_eqb m n then remove n d' else (m, e) :: remove n d'
  end.

Fixpoint rename_key (old new : str) (d : dir) : dir :=
  match d with
  | [] => []
  | (m, e) :: d' => if str_eqb m old then (new, e) :: d' else (m, e) :: rename_key old new d'
  end.

Fixpoint set_entry (n : str) (e : entry) (d : dir) : dir :=
  match d with
  | [] => []
  | (m, e') :: d' => if str_eqb m n then (m, e) :: d' else (m, e') :: set_entry n e d'
  end.

(** [Path.rename] inside one directory.  [None] stands for the exception.
    An existing target is refused on Windows ([replaces = false]); on POSIX
    ([replaces = true]) a file replaces a file and a directory replaces an
    empty directory. *)
Definition os_rename (replaces : bool) (old new : str) (d : dir) : option dir :=
  match lookup old d with
  | None => None
  | Some src =>
      match lookup new d with
      | None => Some (rename_key old new d)
      | Some dst =>
          if str_eqb old new then Some d
          else if replaces then
            match src, dst with
            | File _, File _ | Dir _, Dir [] => Some (rename_key old new (remove new d))
            | _, _ => None
            end
          else None
      end
  end.

Fixpoint lookup_path (p : path) (d : dir) : option entry :=
  match p with
  | [] => None
  | n :: p' =>
      match p' with
      | [] => lookup n d
      | _ :: _ =>
          match lookup n d with
          | Some (Dir sub) => lookup_path p' sub
          | _ => None
          end
      end
  end.

Definition file_at (p : path) (d : dir) : option nat :=
  match lookup_path p d with Some (File x) => Some x | _ => None end.

(** [Path.unlink]. *)
Fixpoint unlink (p : path) (d : dir) : option dir :=
  match p with
  | [] => None
  | n :: p' =>
      match p' with
      | [] => match lookup n d with
              | Some (File _) => Some (remove n d)
              | _ => None
              end
      | _ :: _ =>
          match lookup n d with
          | Some (Dir sub) =>
              match unlink p' sub with
              | Some sub' => Some (set_entry n (Dir sub') d)
              | None => None
              end
          | _ => None
          end
      end
  end.

(** The paths of the entries of one directory, in listing order: what the
    selector of ["*"] yields for it. *)
Definition iterdir (d : dir) : list path := map (fun ne => [fst ne]) d.

(** [directory.rglob("*")], in the order of pathlib's recursive selector
    (Python 3.4 to 3.11): the entries of the directory in listing order,
    then, for each of its sub-directories in listing order, what [rglob]
    yields below it.  Every entry of a directory comes before anything
    deeper.  The loop of remove_unwanted_files unlinks files only, so the
    listing of the directories is the same at the start and when the
    generator reaches them. *)
Fixpoint rglob_entry (e : entry) : list path :=
  match e with
  | File _ => []
  | Dir items =>
      iterdir items ++
      (fix below (l : list (str * entry)) : list path :=
         match l with
         | [] => []
         | (m, e') :: l' => map (cons m) (rglob_entry e') ++ below l'
         end) items
  end.

Definition rglob (d : dir) : list path := rglob_entry (Dir d).

(** The second part of [rglob]: the paths below the sub-directories. *)
Fixpoint rglob_subdirs (d : dir) : list path :=
  match d with
  | [] => []
  | (m, e) :: d' => map (cons m) (rglob_entry e) ++ rglob_subdirs d'
  end.

(** The names of the files of a listing whose lowercased suffix is in [exts]. *)
Definition files_with (exts : list str) (d : dir) : list str :=
  map fst (filter (fun ne => match snd ne with
                             | File _ => mem (lower (suffix (fst ne))) exts
                             | Dir _ => false
                             end) d).

(** ** remove_unwanted_files *)

Definition is_unwanted (p : path) : bool :=
  mem (lower (suffix (last p []))) unwanted_extensions.

Definition remove_step (dry_run : bool) (st : dir * list path * list event) (p : path)
    : dir * list path * list event :=
  let '(d, removed, out) := st in
  match lookup_path p d with
  | Some (File _) =>
      if is_unwanted p then
        let removed := removed ++ [p] in
        let out := out ++ [Action dry_run Delete (last p []) []] in
        if dry_run then (d, removed, out)
        else match unlink p d with
             | Some d' => (d', removed, out)
             | None => (d, removed, out ++ [ErrorRemoving (last p [])])
             end
      else st
  | _ => st
  end.

Definition remove_unwanted_files (dry_run : bool) (directory : dir)
    : dir * list path * list event :=
  fold_left (remove_step dry_run) (rglob directory) (directory, [], []).

(** ** organize_subtitles *)

Inductive outcome := Returned | Raised.

(** [str(i)] *)
Definition str_of_nat (i : nat) : str := L (NilEmpty.string_of_uint (Nat.to_uint i)).

Definition subs : str := L "Subs".

(** [subs_dir.mkdir(exist_ok=True)]; [None] when the name is taken by a file. *)
Definition mkdir_exist_ok (n : str) (d : dir) : option dir :=
  match lookup n d with
  | None => Some (d ++ [(n, Dir [])])
  | Some (Dir _) => Some d
  | Some (File _) => None
  end.

(** Put an entry under a name, in the place of the one that has it if any. *)
Definition put (n : str) (e : entry) (d : dir) : dir :=
  match lookup n d with
  | Some _ => set_entry n e d
  | None => d ++ [(n, e)]
  end.

(** [shutil.move(movie_dir/src, movie_dir/Subs/new_name)].  A destination
    that is a directory receives the file under its own name (an error if
    that name is taken there); any other destination is replaced, on either
    platform. *)
Definition move_to_subs (src new_name : str) (d : dir) : option dir :=
  match lookup src d, lookup subs d with
  | Some e, Some (Dir sd) =>
      match lookup new_name sd with
      | Some (Dir inner) =>
          match lookup src inner with
          | Some _ => None
          | None =>
              Some (set_entry subs (Dir (set_entry new_name (Dir (inner ++ [(src, e)])) sd))
                      (remove src d))
          end
      | _ => Some (set_entry subs (Dir (put new_name e sd)) (remove src d))
      end
  | _, _ => None
  end.

(** The name given to the [i]-th moved subtitle, as line 234 to 236 compute it. *)
Definition moved_name (movie_name : str) (i : nat) (sub_file : str) : str :=
  if 1 <? i then movie_name ++ L "." ++ str_of_nat i ++ suffix sub_file
  else movie_name ++ L "." ++ suffix sub_file.

(** The loop over [enumerate(subtitle_files[1:], 1)]. *)
Fixpoint move_additional (dry_run : bool) (movie_name : str) (i : nat)
    (files : list str) (st : dir * list event) : dir * list event :=
  match files with
  | [] => st
  | sub_file :: rest =>
      let '(d, out) := st in
      let new_name := moved_name movie_name i sub_file in
      let out := out ++ [Action dry_run Move sub_file (L "Subs/" ++ new_name)] in
      let st' :=
        if dry_run then (d, out)
        else match move_to_subs sub_file new_name d with
             | Some d' => (d', out)
             | None => (d, out ++ [ErrorMoving])
             end in
      move_additional dry_run movie_name (S i) rest st'
  end.

(** A rename that is reported first and whose failure is caught. *)
Definition rename_reported (dry_run replaces : bool) (what old new : str)
    (st : dir * list event) : dir * list event :=
  let '(d, out) := st in
  let out := out ++ [Action dry_run Rename old new] in
  if dry_run then (d, out)
  else match os_rename replaces old new d with
       | Some d' => (d', out)
       | None => (d, out ++ [ErrorRenaming what])
       end.

Definition organize_subtitles (dry_run replaces : bool) (movie_dir : dir)
    (movie_name : str) : dir * list event * outcome :=
  let subtitle_files := files_with subtitle_extensions movie_dir in
  match subtitle_files with
  | [] => (movie_dir, [], Returned)
  | main_sub :: others =>
      let moved :=
        match others with
        | [] => Some (movie_dir, [])
        | _ :: _ =>
            if dry_run then
              Some (move_additional dry_run movie_name 1 others
                      (movie_dir, [CreateSubsDryRun]))
            else
              match mkdir_exist_ok subs movie_dir with
              | Some d => Some (move_additional dry_run movie_name 1 others (d, []))
              | None => None
              end
        end in
      match moved with
      | None => (movie_dir, [], Raised)
      | Some st =>
          let new_sub_name := movie_name ++ suffix main_sub in
          if str_eqb main_sub new_sub_name then (st, Returned)
          else (rename_reported dry_run replaces (L "subtitle") main_sub new_sub_name st,
                Returned)
      end
  end.

(** ** process_folder_contents *)

(** The loop over [video_files]. *)
Fixpoint rename_videos (dry_run replaces : bool) (folder_name : str)
    (video_files : list str) (st : dir * list event) : dir * list event :=
  match video_files with
  | [] => st
  | video_file :: rest =>
      let new_video_name := folder_name ++ suffix video_file in
      let st' :=
        if str_eqb video_file new_video_name
        then (fst st, snd st ++ [AlreadyFormatted video_file])
        else rename_reported dry_run replaces (L "video") video_file new_video_name st in
      rename_videos dry_run replaces folder_name rest st'
  end.

Definition process_folder_contents (dry_run replaces : bool) (folder : dir)
    (folder_name : str) : dir * list event * outcome :=
  let '(d, removed, out) := remove_unwanted_files dry_run folder in
  let video_files := files_with video_extensions d in
  let '(d, out) := rename_videos dry_run replaces folder_name video_files (d, out) in
  match video_files with
  | [] => (d, out, Returned)
  | _ :: _ =>
      let '(d', out', oc) := organize_subtitles dry_run replaces d folder_name in
      (d', out ++ out', oc)
  end.

(** ** process_file, process_folder, process_directory *)

Definition process_file (dry_run replaces : bool) (file_name : str)
    (st : dir * list event) : dir * list event :=
  if negb (mem (lower (suffix file_name)) video_extensions) then st
  else
    let '(title_year, warnings) := extract_title_year dry_run file_name in
    let st := (fst st, snd st ++ warnings) in
    match title_year with
    | None => (fst st, snd st ++ [CouldNotExtract file_name])
    | Some (title, year) =>
        let new_name := format_name title year ++ suffix file_name in
        if str_eqb file_name new_name
        then (fst st, snd st ++ [AlreadyFormatted file_name])
        else rename_reported dry_run replaces (L "file") file_name new_name st
    end.

(** The contents of the folder now named [folder_path] are processed and
    written back; a path that is no directory makes [iterdir] raise. *)
Definition descend (dry_run replaces : bool) (folder_path folder_name : str)
    (st : dir * list event) : dir * list event * outcome :=
  match lookup folder_path (fst st) with
  | Some (Dir folder) =>
      let '(folder', out, oc) := process_folder_contents dry_run replaces folder folder_name in
      (set_entry folder_path (Dir folder') (fst st), snd st ++ out, oc)
  | _ => (st, Raised)
  end.

Definition process_folder (dry_run replaces : bool) (folder_name : str)
    (st : dir * list event) : dir * list event * outcome :=
  let '(title_year, warnings) := extract_title_year dry_run folder_name in
  let st := (fst st, snd st ++ warnings) in
  match title_year with
  | None =>
      descend dry_run replaces folder_name folder_name
        (fst st, snd st ++ [NoYearFound folder_name])
  | Some (title, year) =>
      let formatted_name := format_name title year in
      if str_eqb folder_name formatted_name then
        descend dry_run replaces folder_name formatted_name
          (fst st, snd st ++ [AlreadyFormatted folder_name])
      else
        let out := snd st ++ [Action dry_run Rename folder_name formatted_name] in
        if dry_run then descend dry_run replaces folder_name formatted_name (fst st, out)
        else match os_rename replaces folder_name formatted_name (fst st) with
             | Some d' => descend dry_run replaces formatted_name formatted_name (d', out)
             | None => (fst st, out ++ [ErrorRenaming (L "folder")], Returned)
             end
  end.

(** The sort key [(x.is_file(), x.name.lower())] and the order of tuples. *)
Definition sort_key (d : dir) (n : str) : bool * str := (is_file n d, lower n).

Fixpoint str_leb (a b : str) : bool :=
  match a, b with
  | [], _ => true
  | _ :: _, [] => false
  | x :: a', y :: b' =>
      if N.ltb (code x) (code y) then true
      else if N.ltb (code y) (code x) then false
      else str_leb a' b'
  end.

Definition key_leb (k1 k2 : bool * str) : bool :=
  match fst k1, fst k2 with
  | false, true => true
  | true, false => false
  | _, _ => str_leb (snd k1) (snd k2)
  end.

(** [list.sort(key=...)] is stable: an item goes before the first item
    whose key is strictly greater. *)
Fixpoint insert_by (key : str -> bool * str) (x : str) (l : list str) : list str :=
  match l with
  | [] => [x]
  | y :: l' =>
      if key_leb (key x) (key y) then x :: l
      else y :: insert_by key x l'
  end.

Fixpoint sort_by (key : str -> bool * str) (l : list str) : list str :=
  match l with
  | [] => []
  | x :: l' => insert_by key x (sort_by key l')
  end.

(** The items of the root in the order of the loop. *)
Definition sorted_items (root : dir) : list str :=
  sort_by (sort_key root) (map fst root).

Definition process_item (dry_run replaces : bool) (item : str)
    (st : dir * list event) : dir * list event * outcome :=
  if is_file item (fst st) then (process_file dry_run replaces item st, Returned)
  else if is_dir item (fst st) then process_folder dry_run replaces item st
  else (st, Returned).

Fixpoint process_items (dry_run replaces : bool) (items : list str)
    (st : dir * list event) : dir * list event * outcome :=
  match items with
  | [] => (st, Returned)
  | item :: rest =>
      match process_item dry_run replaces item st with
      | (st', Returned) => process_items dry_run replaces rest st'
      | (st', Raised) => (st', Raised)
      end
  end.

(** [base_path] is absent ([None]), a file, or a directory. *)
Definition process_directory (dry_run replaces : bool) (base_path : option entry)
    : option entry * list event * outcome :=
  match base_path with
  | None => (None, [MissingDirectory], Returned)
  | Some (File x) => (base_path, [Header dry_run], Raised)
  | Some (Dir root) =>
      let '(root', out, oc) :=
        process_items dry_run replaces (sorted_items root) (root, [Header dry_run]) in
      (Some (Dir root'), out, oc)
  end.

(** ** The vocabulary of the statements *)

(** Three small folders. *)
Definition two_videos : dir := [(L "a.mkv", File 1); (L "b.mkv", File 2)].
Definition two_subtitles : dir := [(L "a.en.srt", File 1); (L "b.fr.srt", File 2)].
Definition three_subtitles : dir :=
  [(L "a.en.srt", File 1); (L "b.fr.srt", File 2); (L "c.de.srt", File 3)].



(** The file [f] is there with content [x]. *)
Definition kept (f : str) (x : nat) (st : dir * list event) : Prop :=
  lookup f (fst st) = Some (File x).

(** The listing of the root after process_directory. *)
Definition root_after (r : option entry * list event * outcome) : dir :=
  match fst (fst r) with
  | Some (Dir d) => d
  | _ => []
  end.

(** No name twice. *)
Fixpoint distinct (l : list str) : bool :=
  match l with
  | [] => true
  | x :: l' => negb (mem x l') && distinct l'
  end.

(** No directory of the tree lists a name twice. *)
Fixpoint well_formed_entry (e : entry) : bool :=
  match e with
  | File _ => true
  | Dir items =>
      distinct (map fst items) &&
      (fix all (l : list (str * entry)) : bool :=
         match l with
         | [] => true
         | (_, e') :: l' => well_formed_entry e' && all l'
         end) items
  end.

Definition well_formed (d : dir) : bool := well_formed_entry (Dir d).

(** The tree without its unwanted files. *)
Fixpoint prune_entry (e : entry) : entry :=
  match e with
  | File x => File x
  | Dir items =>
      Dir ((fix go (l : list (str * entry)) : dir :=
              match l with
              | [] => []
              | (m, e') :: l' =>
                  match e' with
                  | File _ => if is_unwanted [m] then go l' else (m, e') :: go l'
                  | Dir _ => (m, prune_entry e') :: go l'
                  end
              end) items)
  end.

Definition prune (d : dir) : dir :=
  match prune_entry (Dir d) with
  | Dir d' => d'
  | File _ => []
  end.

(** One turn of the loop of remove_unwanted_files, on the tree alone. *)
Definition dir_step (d : dir) (p : path) : dir :=
  match lookup_path p d with
  | Some (File _) =>
      if is_unwanted p then
        match unlink p d with
        | Some d' => d'
        | None => d
        end
      else d
  | _ => d
  end.

(** The listing without its own unwanted files; the sub-directories are
    left as they are. *)
Definition prune_top (d : dir) : dir :=
  filter (fun ne => match snd ne with
                    | File _ => negb (is_unwanted [fst ne])
                    | Dir _ => true
                    end) d.

(** A folder with unwanted files at three depths. *)
Definition nested_folder : dir :=
  [(L "movie.mkv", File 1); (L "poster.JPG", File 2);
   (L "extras", Dir [(L "readme.txt", File 3); (L "clip.mp4", File 4);
                     (L "deep", Dir [(L "a.rar", File 5); (L "b.srt", File 6)])])].

(** A folder that lists a sub-directory before a file. *)
Definition folder_first : dir :=
  [(L "extras", Dir [(L "readme.txt", File 1);
                     (L "deep", Dir [(L "a.rar", File 2)]);
                     (L "cover.png", File 3)]);
   (L "movie.mkv", File 4); (L "poster.JPG", File 5)].

(** The continuation [k] fails on every text that starts in the class. *)
Definition rejects (p : ascii -> bool) (k : nat -> str -> option result) : Prop :=
  forall pos c s, p c = true -> k pos (c :: s) = None.

(** The text is empty or starts with a character outside the class. *)
Definition starts_outside (p : ascii -> bool) (s : str) : Prop :=
  match s with
  | c :: _ => p c = false
  | [] => True
  end.

(** The two year patterns differ in the body of the second group only. *)
Definition year_body : pattern := [Alt [L "19"; L "20"]; Chr is_digit; Chr is_digit].
Definition prefix_body : pattern := [Alt [L "19"; L "20"]].

Definition close_tail : pattern :=
  [Mark; Rep true 0 is_space; Chr (is_char ")"%char); Rep true 0 dot; Eos].

Definition paren_tail (body : pattern) : pattern :=
  [Mark; Rep true 0 is_space; Chr (is_char "("%char); Rep true 0 is_space; Mark]
  ++ body ++ close_tail.

Definition paren_pattern (body : pattern) : pattern :=
  [Bos; Mark; Rep false 1 dot] ++ paren_tail body.

(** A year from 1900 to 2099, and the two truncated markers. *)
Definition is_year (y : str) : bool :=
  match y with
  | [a; b; c; d] =>
      (str_eqb [a; b] (L "19") || str_eqb [a; b] (L "20")) && is_digit c && is_digit d
  | _ => false
  end.

Definition is_year_prefix (y : str) : bool := str_eqb y (L "19") || str_eqb y (L "20").

(** A title before its year: no line feed, no opening parenthesis, and a
    last character that is not white space. *)
Definition title_like (t : str) : bool :=
  forallb dot t && negb (existsb (is_char "("%char) t)
  && negb (is_space (last t " "%char)).

(** The text [title ws ( ws year ws ) rest]. *)
Definition year_text (t s1 s2 y s3 r : str) : str :=
  t ++ s1 ++ L "(" ++ s2 ++ y ++ s3 ++ L ")" ++ r.

(** The year put for a truncated marker, line 158 to 161. *)
Definition default_year (year_prefix : str) : str :=
  if str_eqb year_prefix (L "19") then L "1999" else L "2020".

(** The name the patterns are run on: stem taken, parentheses repaired. *)
Definition parsed_name (filename : str) : str := repair (stem (path_name filename)).

(** Neither end of the text is in the class. *)
Definition ends_outside (p : ascii -> bool) (s : str) : Prop :=
  starts_outside p s /\ starts_outside p (rev s).

(** The pattern matches at no position of the text. *)
Definition no_match (pat : pattern) (s : str) : Prop :=
  forall a b pos, s = a ++ b -> run pat pos b [] = None.

(** The length of the run of the class at the start of the text. *)
Fixpoint run_length (p : ascii -> bool) (s : str) : nat :=
  match s with
  | c :: s' => if p c then S (run_length p s') else 0
  | [] => 0
  end.

(** White space only as single blanks. *)
Fixpoint single_spaced (s : str) : bool :=
  match s with
  | [] => true
  | c :: s' =>
      (if is_space c
       then is_char " "%char c && match s' with d :: _ => negb (is_space d) | [] => true end
       else true) && single_spaced s'
  end.

(** Classes and counts of single characters. *)
Definition no_slash (c : ascii) : bool := negb (is_char slash c).

(** [double_open] and [double_close] for any character. *)
Definition double_pat (a : ascii) : pattern :=
  [Rep true 0 is_space; Chr (is_char a); Rep true 0 is_space; Chr (is_char a);
   Rep true 0 is_space].

Definition count (a : ascii) (s : str) : nat := List.length (filter (is_char a) s).

(** The text starts with the literal, letter case ignored. *)
Fixpoint prefix_ci (l s : str) : bool :=
  match l, s with
  | [], _ => true
  | a :: l', c :: s' => ci a c && prefix_ci l' s'
  | _ :: _, [] => false
  end.

(** The text contains the literal, letter case ignored. *)
Fixpoint occurs_ci (l s : str) : bool :=
  match s with
  | [] => prefix_ci l []
  | _ :: s' => prefix_ci l s || occurs_ci l s'
  end.

(** The characters of [title.strip(" .-_()[]{}")]. *)
Definition strip_chars : str := L " .-_()[]{}".

(** The file [n] is there with content [c]. *)
Definition safe (n : str) (c : nat) (d : dir) : Prop := lookup n d = Some (File c).

(** The event of a video rename that failed. *)
Definition video_error (e : event) : bool :=
  match e with
  | ErrorRenaming what => str_eqb what (L "video")
  | _ => false
  end.

Definition is_file_at (p : path) (d : dir) : bool :=
  match lookup_path p d with
  | Some (File _) => true
  | _ => false
  end.

(** The unwanted files of a tree, in the order [rglob] visits them. *)
Definition unwanted_files (d : dir) : list path :=
  filter (fun p => is_file_at p d && is_unwanted p) (rglob d).

(** A text that starts with a marker: white space, an opening parenthesis,
    white space, a body in [Y], white space and a closing parenthesis. *)
Definition marker_text (Y : str -> bool) (s : str) : Prop :=
  exists s1 s2 y s3 r,
    s = s1 ++ L "(" ++ s2 ++ y ++ s3 ++ L ")" ++ r /\
    forallb is_space s1 = true /\ forallb is_space s2 = true /\
    forallb is_space s3 = true /\ Y y = true.

(** The title [t], followed by [rest], holds no earlier marker: no marker
    starts after its first character and before its end. *)
Definition first_marker (Y : str -> bool) (t rest : str) : Prop :=
  forall u v, t = u ++ v -> u <> [] -> v <> [] -> ~ marker_text Y (v ++ rest).

(** A check of [marker_text] for the truncated markers, by computation. *)
Definition starts_marker (s : str) : bool :=
  match lstrip is_space s with
  | c :: s' =>
      is_char "("%char c &&
      is_year_prefix (firstn 2 (lstrip is_space s')) &&
      match lstrip is_space (skipn 2 (lstrip is_space s')) with
      | c' :: _ => is_char ")"%char c'
      | [] => false
      end
  | [] => false
  end.

Definition marker_free (t rest : str) : bool :=
  forallb (fun i => negb (starts_marker (skipn i t ++ rest))) (seq 1 (List.length t - 1)).

(** * Theorems *)

(** ** Equality of names *)

Lemma str_eqb_eq (a b : str) : str_eqb a b = true <-> a = b.
Proof.
  unfold str_eqb. destruct (list_eq_dec ascii_dec a b); split; congruence.
Qed.

Lemma str_eqb_neq (a b : str) : str_eqb a b = false <-> a <> b.
Proof.
  unfold str_eqb. destruct (list_eq_dec ascii_dec a b); split; congruence.
Qed.

Lemma str_eqb_refl (a : str) : str_eqb a a = true.
Proof. now apply str_eqb_eq. Qed.

Lemma str_eqb_sym (a b : str) : str_eqb a b = str_eqb b a.
Proof.
  destruct (str_eqb b a) eqn:E.
  - apply str_eqb_eq in E. subst. apply str_eqb_refl.
  - apply str_eqb_neq in E. apply str_eqb_neq. congruence.
Qed.

Ltac name_cases a b :=
  let E := fresh "E" in
  destruct (str_eqb a b) eqn:E;
  [apply str_eqb_eq in E | apply str_eqb_neq in E].

(** ** The order of the loop of process_directory *)

Lemma str_leb_refl (a : str) : str_leb a a = true.
Proof.
  induction a as [|x a IH]; simpl; auto.
  now rewrite N.ltb_irrefl.
Qed.





Section Sorting.
Variable key : str -> bool * str.




End Sorting.



(** ** Suffixes *)

Lemma rfind_dot_app (a r : str) :
  rfind_dot r = None -> rfind_dot (a ++ period :: r) = Some (List.length a).
Proof.
  intros Hr. induction a as [|c a IH]; simpl.
  - now rewrite Hr.
  - now rewrite IH.
Qed.

Lemma rfind_dot_some (s : str) (i : nat) :
  rfind_dot s = Some i ->
  exists a r, s = a ++ period :: r /\ List.length a = i /\ rfind_dot r = None.
Proof.
  revert i. induction s as [|c s IH]; simpl; intros i H; [discriminate|].
  destruct (rfind_dot s) as [j|] eqn:E.
  - injection H as <-. destruct (IH j eq_refl) as (a & r & -> & <- & Hr).
    exists (c :: a), r. auto.
  - destruct (is_char period c) eqn:Ec; [|discriminate].
    injection H as <-. apply Ascii.eqb_eq in Ec. subst c.
    exists [], s. auto.
Qed.

Lemma suffix_shape (n : str) :
  suffix n = [] \/
  exists a r, n = a ++ period :: r /\ suffix n = period :: r /\
              a <> [] /\ r <> [] /\ rfind_dot r = None.
Proof.
  unfold suffix, suffix_index.
  destruct (rfind_dot n) as [i|] eqn:E; auto.
  destruct (rfind_dot_some _ _ E) as (a & r & -> & <- & Hr).
  destruct ((0 <? List.length a) && (S (List.length a) <? List.length (a ++ period :: r))) eqn:C;
    auto.
  apply andb_true_iff in C. destruct C as [C1 C2].
  apply Nat.ltb_lt in C1, C2. rewrite length_app in C2. simpl in C2.
  right. exists a, r. repeat split; auto.
  - rewrite skipn_app, skipn_all, Nat.sub_diag. reflexivity.
  - destruct a; simpl in C1; [lia | discriminate].
  - destruct r; simpl in C2; [lia | discriminate].
Qed.

(** A stem put before the suffix of a name gives a name with that suffix. *)
Lemma suffix_app (a n : str) :
  a <> [] -> suffix n <> [] -> suffix (a ++ suffix n) = suffix n.
Proof.
  intros Ha Hn.
  destruct (suffix_shape n) as [E | (b & r & _ & E & _ & Hr & Hd)]; [contradiction|].
  rewrite E. unfold suffix, suffix_index.
  rewrite (rfind_dot_app a r Hd), length_app.
  replace ((0 <? List.length a) && (S (List.length a) <? List.length a + List.length (period :: r)))
    with true.
  - now rewrite skipn_app, skipn_all, Nat.sub_diag.
  - symmetry. apply andb_true_iff. split; apply Nat.ltb_lt.
    + destruct a; [contradiction | simpl; lia].
    + destruct r; [contradiction | simpl; lia].
Qed.

Lemma no_video_suffix_nil : mem (lower []) video_extensions = false.
Proof. reflexivity. Qed.

(** ** Lookups after the primitives *)

Lemma lookup_rename_key (f old new : str) (d : dir) :
  f <> old -> f <> new -> lookup f (rename_key old new d) = lookup f d.
Proof.
  intros Ho Hn. induction d as [|[m e] d IH]; simpl; auto.
  name_cases m old; simpl.
  - subst m. name_cases new f; [congruence|]. name_cases old f; congruence.
  - rewrite IH. reflexivity.
Qed.

Lemma lookup_remove (f n : str) (d : dir) :
  f <> n -> lookup f (remove n d) = lookup f d.
Proof.
  intros Hn. induction d as [|[m e] d IH]; simpl; auto.
  name_cases m n; simpl.
  - subst m. name_cases n f; congruence.
  - now rewrite IH.
Qed.

Lemma lookup_set_entry (f n : str) (e : entry) (d : dir) :
  f <> n -> lookup f (set_entry n e d) = lookup f d.
Proof.
  intros Hn. induction d as [|[m e'] d IH]; simpl; auto.
  name_cases m n; simpl.
  - subst m. name_cases n f; congruence.
  - now rewrite IH.
Qed.

Lemma os_rename_frame (replaces : bool) (f old new : str) (d d' : dir) :
  os_rename replaces old new d = Some d' ->
  f <> old -> f <> new -> lookup f d' = lookup f d.
Proof.
  unfold os_rename. intros H Ho Hn.
  destruct (lookup old d) as [src|]; [|discriminate].
  destruct (lookup new d) as [dst|].
  - destruct (str_eqb old new); [congruence|].
    destruct replaces; [|discriminate].
    destruct src, dst as [|[|]]; try discriminate; injection H as <-;
      now rewrite lookup_rename_key, lookup_remove.
  - injection H as <-. now apply lookup_rename_key.
Qed.

(** A directory is never renamed onto a file. *)
Lemma os_rename_dir_onto_file (replaces : bool) (old new : str) (d : dir) (x : nat) :
  is_dir old d = true -> lookup new d = Some (File x) ->
  os_rename replaces old new d = None \/ old = new.
Proof.
  unfold is_dir, os_rename. intros Ho Hn. rewrite Hn.
  destruct (lookup old d) as [[|items]|]; try discriminate.
  name_cases old new; auto. destruct replaces; auto.
Qed.

(** ** A loose file that is no video is left alone *)

Section LooseFile.
Variables (f : str) (x : nat).
Hypothesis not_video : mem (lower (suffix f)) video_extensions = false.

Lemma rename_reported_kept (dry_run replaces : bool) (what old new : str) (st : dir * list event) :
  kept f x st -> f <> old -> (f <> new \/ is_dir old (fst st) = true) ->
  kept f x (rename_reported dry_run replaces what old new st).
Proof.
  unfold kept, rename_reported. destruct st as [d out]; simpl. intros K Ho Hn.
  destruct dry_run; simpl; auto.
  destruct (os_rename replaces old new d) as [d'|] eqn:E; simpl; auto.
  destruct (list_eq_dec ascii_dec f new) as [->|Hne].
  - destruct Hn as [Hn|Hn]; [congruence|].
    destruct (os_rename_dir_onto_file replaces old new d x Hn K) as [E'| ->];
      congruence.
  - rewrite (os_rename_frame replaces f old new d d' E); auto.
Qed.

Lemma video_name_differs (a n : str) :
  a <> [] -> mem (lower (suffix n)) video_extensions = true -> f <> a ++ suffix n.
Proof.
  intros Ha Hv ->. rewrite suffix_app in not_video; [congruence | assumption |].
  intros E. rewrite E in Hv. discriminate.
Qed.

Lemma format_name_nonempty (t y : str) : format_name t y <> [].
Proof. unfold format_name. destruct t; discriminate. Qed.

Lemma process_file_kept (dry_run replaces : bool) (n : str) (st : dir * list event) :
  kept f x st -> kept f x (process_file dry_run replaces n st).
Proof.
  intros K. unfold process_file.
  destruct (mem (lower (suffix n)) video_extensions) eqn:V; [|exact K].
  cbn [negb]. destruct (extract_title_year dry_run n) as [[[t y]|] w]; [|exact K].
  destruct (str_eqb n (format_name t y ++ suffix n)); [exact K|].
  apply (rename_reported_kept dry_run replaces (L "file") n _ (fst st, snd st ++ w) K).
  - intros ->. congruence.
  - left. apply video_name_differs; auto using format_name_nonempty.
Qed.

Lemma descend_kept (dry_run replaces : bool) (folder_path folder_name : str) (st : dir * list event) :
  kept f x st -> kept f x (fst (descend dry_run replaces folder_path folder_name st)).
Proof.
  unfold kept, descend. intros K.
  destruct (lookup folder_path (fst st)) as [[|folder]|] eqn:E; auto.
  destruct (process_folder_contents dry_run replaces folder folder_name) as [[d' out] oc].
  simpl. rewrite lookup_set_entry; auto. congruence.
Qed.

Lemma process_folder_kept (dry_run replaces : bool) (n : str) (st : dir * list event) :
  is_dir n (fst st) = true -> kept f x st ->
  kept f x (fst (process_folder dry_run replaces n st)).
Proof.
  intros D K. unfold process_folder.
  destruct (extract_title_year dry_run n) as [[[t y]|] w].
  - destruct (str_eqb n (format_name t y)) eqn:E.
    + apply descend_kept. exact K.
    + pose proof (rename_reported_kept dry_run replaces (L "folder") n (format_name t y)
                    (fst st, snd st ++ w) K) as R.
      unfold rename_reported in R. simpl in R. simpl.
      assert (Hn : f <> n).
      { intros Efn. rewrite <- Efn in D. unfold is_dir in D. unfold kept in K.
        simpl in K. rewrite K in D. discriminate. }
      specialize (R Hn (or_intror D)).
      destruct dry_run.
      * apply descend_kept. exact K.
      * destruct (os_rename replaces n (format_name t y) (fst st)) as [d'|].
        -- apply descend_kept. exact R.
        -- exact K.
  - apply descend_kept. exact K.
Qed.

Lemma process_item_kept (dry_run replaces : bool) (n : str) (st : dir * list event) :
  kept f x st -> kept f x (fst (process_item dry_run replaces n st)).
Proof.
  intros K. unfold process_item.
  destruct (is_file n (fst st)); [now apply process_file_kept|].
  destruct (is_dir n (fst st)) eqn:D; [now apply process_folder_kept | exact K].
Qed.

Lemma process_items_kept (dry_run replaces : bool) (items : list str) (st : dir * list event) :
  kept f x st -> kept f x (fst (process_items dry_run replaces items st)).
Proof.
  revert st. induction items as [|n items IH]; intros st K; simpl; auto.
  pose proof (process_item_kept dry_run replaces n st K) as K'.
  destruct (process_item dry_run replaces n st) as [st' [|]]; auto.
Qed.
End LooseFile.

(** C10. A file directly under the root whose lowercased suffix is not a
    video extension has the same name and the same content after the run,
    whether or not its suffix is an unwanted one. *)
Theorem loose_file_untouched (dry_run replaces : bool) (root : dir) (f : str) (x : nat) :
  lookup f root = Some (File x) ->
  mem (lower (suffix f)) video_extensions = false ->
  lookup f (root_after (process_directory dry_run replaces (Some (Dir root)))) =
    Some (File x).
Proof.
  intros Hf Hv. unfold process_directory, root_after.
  pose proof (process_items_kept f x Hv dry_run replaces (sorted_items root)
                (root, [Header dry_run]) Hf) as K.
  revert K. unfold kept.
  destruct (process_items _ _ _ _) as [[root' out] oc]. simpl. auto.
Qed.

Lemma loose_file_untouched_witness :
  lookup (L "notes.txt")
    (root_after (process_directory false true
       (Some (Dir [(L "notes.txt", File 7); (L "Zed.(1999).mkv", File 1);
                   (L "Show (2019) [YTS.MX]", Dir [(L "poster.jpg", File 3)])])))) =
  Some (File 7).
Proof.
  apply loose_file_untouched; reflexivity.
Defined.

(** ** Evaluations *)

(** C1, as the code has it.  The year of this name is not in parentheses, so
    neither pattern matches and nothing is extracted; with the year in
    parentheses the title and the year of the claim come out. *)
Theorem extract_bare_year :
  extract_title_year false (L "Movie.Title.2015.1080p.BluRay.x264-RARBG.mkv") = (None, []) /\
  extract_title_year false (L "Movie.Title.(2015).1080p.BluRay.x264-RARBG.mkv") =
    (Some (L "Movie Title", L "2015"), []).
Proof. split; vm_compute; reflexivity. Qed.

Lemma extract_bare_year_counterexample :
  fst (extract_title_year false (L "Movie.Title.2015.1080p.BluRay.x264-RARBG.mkv")) <>
    Some (L "Movie Title", L "2015").
Proof. vm_compute. discriminate. Qed.

(** C2 on the code.  The first subtitle is renamed in place and the third
    goes to [Subs/Alpha (2020).2.srt], but the second goes to
    [Subs/Alpha (2020)..srt]: line 234 writes a period before a suffix that
    starts with one, for every movie name and every file. *)
Theorem organize_subtitles_double_dot :
  organize_subtitles false true two_subtitles (L "Alpha (2020)") =
    ([(L "Alpha (2020).srt", File 1); (L "Subs", Dir [(L "Alpha (2020)..srt", File 2)])],
     [Action false Move (L "b.fr.srt") (L "Subs/Alpha (2020)..srt");
      Action false Rename (L "a.en.srt") (L "Alpha (2020).srt")],
     Returned) /\
  fst (fst (organize_subtitles false true three_subtitles (L "Alpha (2020)"))) =
    [(L "Alpha (2020).srt", File 1);
     (L "Subs", Dir [(L "Alpha (2020)..srt", File 2); (L "Alpha (2020).2.srt", File 3)])] /\
  (forall movie_name sub_file,
     moved_name movie_name 1 sub_file = movie_name ++ L "." ++ suffix sub_file) /\
  (forall movie_name i sub_file,
     moved_name movie_name (S (S i)) sub_file =
       movie_name ++ L "." ++ str_of_nat (S (S i)) ++ suffix sub_file).
Proof. repeat split; vm_compute; reflexivity. Qed.

(** C3 refuted where a rename replaces its target: the second video takes
    the canonical name, the content that had it is gone, and no error is
    reported. *)
Lemma second_video_overwrites :
  let r := process_folder_contents false true two_videos (L "X (2020)") in
  lookup (L "X (2020).mkv") (fst (fst r)) = Some (File 2) /\
  ~ In (ErrorRenaming (L "video")) (snd (fst r)) /\
  file_at [L "b.mkv"] (fst (fst r)) = None.
Proof.
  vm_compute. repeat split; try reflexivity.
  intros [H|[H|[]]]; discriminate.
Qed.


(** C5 refuted: the period in the first parenthesis becomes a blank in the
    title, and the formatted name then parses at that parenthesis. *)
Lemma pipeline_not_idempotent :
  fst (extract_title_year false (L "A (1999.) B (2000).mkv")) =
    Some (L "A (1999 ) B", L "2000") /\
  fst (extract_title_year false (format_name (L "A (1999 ) B") (L "2000"))) <>
    Some (L "A (1999 ) B", L "2000").
Proof. split; vm_compute; [reflexivity | discriminate]. Qed.

(** ** What remove_unwanted_files leaves *)

Lemma prune_file (m : str) (x : nat) (d : dir) :
  prune ((m, File x) :: d) = if is_unwanted [m] then prune d else (m, File x) :: prune d.
Proof. unfold prune. simpl. destruct (is_unwanted [m]); reflexivity. Qed.

Lemma prune_dir (m : str) (s d : dir) :
  prune ((m, Dir s) :: d) = (m, Dir (prune s)) :: prune d.
Proof. reflexivity. Qed.

Lemma well_formed_cons (m : str) (e : entry) (d : dir) :
  well_formed ((m, e) :: d) = true ->
  mem m (map fst d) = false /\ well_formed_entry e = true /\ well_formed d = true.
Proof.
  unfold well_formed. simpl. intros H.
  apply andb_true_iff in H. destruct H as [H1 H2].
  apply andb_true_iff in H1. destruct H1 as [H0 H1].
  apply andb_true_iff in H2. destruct H2 as [H2 H3].
  apply negb_true_iff in H0. repeat split; auto.
  apply andb_true_iff. split; auto.
Qed.

Lemma mem_false (n : str) (l : list str) : mem n l = false -> ~ In n l.
Proof.
  unfold mem. intros H Hin.
  assert (existsb (str_eqb n) l = true); [|congruence].
  apply existsb_exists. exists n. split; auto. apply str_eqb_refl.
Qed.

Lemma lookup_not_listed (n : str) (d : dir) : ~ In n (map fst d) -> lookup n d = None.
Proof.
  induction d as [|[m e] d IH]; simpl; auto. intros H.
  name_cases m n; [tauto | apply IH; tauto].
Qed.

Lemma remove_not_listed (n : str) (d : dir) : ~ In n (map fst d) -> remove n d = d.
Proof.
  induction d as [|[m e] d IH]; simpl; auto. intros H.
  name_cases m n; [tauto | rewrite IH; tauto].
Qed.

Lemma is_unwanted_cons (m : str) (q : path) : q <> [] -> is_unwanted (m :: q) = is_unwanted q.
Proof. unfold is_unwanted. destruct q; [congruence | reflexivity]. Qed.

(** A path below the directory at the head of the listing. *)
Lemma dir_step_below (m : str) (sub d : dir) (q : path) :
  q <> [] ->
  dir_step ((m, Dir sub) :: d) (m :: q) = (m, Dir (dir_step sub q)) :: d.
Proof.
  intros Hq. unfold dir_step. rewrite (is_unwanted_cons m q Hq).
  destruct q as [|n q]; [congruence|]. cbn [lookup_path unlink lookup].
  rewrite str_eqb_refl.
  change (match q with [] => lookup n sub | _ :: _ =>
            match lookup n sub with Some (Dir s) => lookup_path q s | _ => None end end)
    with (lookup_path (n :: q) sub).
  change (match q with
          | [] => match lookup n sub with Some (File _) => Some (remove n sub) | _ => None end
          | _ :: _ => match lookup n sub with
                      | Some (Dir s) => match unlink q s with
                                        | Some s' => Some (set_entry n (Dir s') sub)
                                        | None => None end
                      | _ => None end end)
    with (unlink (n :: q) sub).
  destruct (lookup_path (n :: q) sub) as [[x|]|]; auto.
  destruct (is_unwanted (n :: q)); auto.
  destruct (unlink (n :: q) sub); simpl; auto. now rewrite str_eqb_refl.
Qed.

(** A path that starts at another name than the head of the listing. *)
Lemma dir_step_past (m n : str) (e : entry) (d : dir) (q : path) :
  n <> m -> dir_step ((m, e) :: d) (n :: q) = (m, e) :: dir_step d (n :: q).
Proof.
  intros Hn. unfold dir_step.
  assert (Hl : lookup_path (n :: q) ((m, e) :: d) = lookup_path (n :: q) d).
  { cbn [lookup_path lookup]. name_cases m n; [congruence | reflexivity]. }
  rewrite Hl. destruct (lookup_path (n :: q) d) as [[x|]|]; auto.
  destruct (is_unwanted (n :: q)); auto.
  cbn [unlink lookup]. name_cases m n; [congruence|].
  destruct q as [|n' q].
  - destruct (lookup n d) as [[|]|]; auto. simpl. name_cases m n; congruence.
  - destruct (lookup n d) as [[|s]|]; auto.
    destruct (unlink (n' :: q) s); auto. simpl. name_cases m n; congruence.
Qed.

Lemma fold_below (m : str) (d : dir) (qs : list path) (sub : dir) :
  (forall q, In q qs -> q <> []) ->
  fold_left dir_step (map (cons m) qs) ((m, Dir sub) :: d) =
    (m, Dir (fold_left dir_step qs sub)) :: d.
Proof.
  revert sub. induction qs as [|q qs IH]; intros sub H; simpl; auto.
  rewrite dir_step_below by (apply H; now left).
  apply IH. intros q' Hq'. apply H. now right.
Qed.

Lemma fold_past (m : str) (e : entry) (ps : list path) (d : dir) :
  (forall p, In p ps -> exists n q, p = n :: q /\ n <> m) ->
  fold_left dir_step ps ((m, e) :: d) = (m, e) :: fold_left dir_step ps d.
Proof.
  revert d. induction ps as [|p ps IH]; intros d H; simpl; auto.
  destruct (H p (or_introl eq_refl)) as (n & q & -> & Hn).
  rewrite dir_step_past by assumption.
  apply IH. intros p' Hp'. apply H. now right.
Qed.

Lemma rglob_eq (d : dir) : rglob d = iterdir d ++ rglob_subdirs d.
Proof. reflexivity. Qed.

Lemma rglob_subdirs_file (m : str) (x : nat) (d : dir) :
  rglob_subdirs ((m, File x) :: d) = rglob_subdirs d.
Proof. reflexivity. Qed.

Lemma rglob_subdirs_dir (m : str) (s d : dir) :
  rglob_subdirs ((m, Dir s) :: d) = map (cons m) (rglob s) ++ rglob_subdirs d.
Proof. reflexivity. Qed.

Lemma iterdir_heads (d : dir) (p : path) :
  In p (iterdir d) -> exists n, p = [n] /\ In n (map fst d).
Proof.
  unfold iterdir. intros H. apply in_map_iff in H. destruct H as ([n e] & <- & H).
  exists n. split; [reflexivity|]. apply in_map_iff. now exists (n, e).
Qed.

Lemma rglob_subdirs_heads (d : dir) (p : path) :
  In p (rglob_subdirs d) -> exists n q, p = n :: q /\ In n (map fst d).
Proof.
  induction d as [|[m e] d IH]; [contradiction|].
  cbn [rglob_subdirs map fst]. rewrite in_app_iff. intros [H|H].
  - apply in_map_iff in H. destruct H as (q & <- & _). exists m, q.
    split; [reflexivity | now left].
  - destruct (IH H) as (n & q & -> & Hn). exists n, q.
    split; [reflexivity | now right].
Qed.

Lemma rglob_heads (d : dir) (p : path) :
  In p (rglob d) -> exists n q, p = n :: q /\ In n (map fst d).
Proof.
  rewrite rglob_eq, in_app_iff. intros [H|H].
  - destruct (iterdir_heads d p H) as (n & -> & Hn). exists n, []. auto.
  - now apply rglob_subdirs_heads.
Qed.

Lemma rglob_nonempty (d : dir) (p : path) : In p (rglob d) -> p <> [].
Proof. intros H. destruct (rglob_heads d p H) as (n & q & -> & _). discriminate. Qed.

(** Induction over a tree: a property of listings that holds of the empty
    listing and is kept when an entry is put in front, whatever the
    property gives for the listing of that entry. *)
Lemma dir_induction (Q : dir -> Prop) :
  Q [] ->
  (forall m x d, Q d -> Q ((m, File x) :: d)) ->
  (forall m s d, Q s -> Q d -> Q ((m, Dir s) :: d)) ->
  forall d, Q d.
Proof.
  intros HN HF HD.
  assert (HE : forall e, match e with Dir s => Q s | File _ => True end).
  { fix IH 1. intros [x|items]; [exact I|].
    induction items as [|[m e] items IHl]; [exact HN|].
    generalize (IH e). destruct e as [x|s]; intros He.
    - apply HF, IHl.
    - apply HD; [exact He | exact IHl]. }
  intros d. exact (HE (Dir d)).
Qed.

(** The first part of the loop, over the entries of the directory itself. *)
Lemma fold_iterdir (d : dir) :
  well_formed d = true -> fold_left dir_step (iterdir d) d = prune_top d.
Proof.
  induction d as [|[m e] d IH]; intros W; [reflexivity|].
  apply well_formed_cons in W. destruct W as (Hm & We & Wd). apply mem_false in Hm.
  assert (Hp : forall p, In p (iterdir d) -> exists n q, p = n :: q /\ n <> m).
  { intros p Hp. destruct (iterdir_heads d p Hp) as (n & -> & Hn).
    exists n, []. split; [reflexivity | congruence]. }
  cbn [iterdir map fst fold_left]. fold (iterdir d).
  unfold dir_step at 2. cbn [lookup_path lookup]. rewrite str_eqb_refl.
  unfold prune_top. cbn [filter snd fst]. fold (prune_top d).
  destruct e as [x|s].
  - destruct (is_unwanted [m]); cbn [negb].
    + cbn [unlink lookup]. rewrite str_eqb_refl. cbn [remove].
      rewrite str_eqb_refl, remove_not_listed by assumption. auto.
    + rewrite fold_past by assumption. now rewrite IH.
  - rewrite fold_past by assumption. now rewrite IH.
Qed.

Lemma rglob_subdirs_past (m : str) (d : dir) (p : path) :
  ~ In m (map fst d) -> In p (rglob_subdirs d) -> exists n q, p = n :: q /\ n <> m.
Proof.
  intros Hm Hp. destruct (rglob_subdirs_heads d p Hp) as (n & q & -> & Hn).
  exists n, q. split; [reflexivity | congruence].
Qed.

(** The second part of the loop, below the sub-directories. *)
Lemma fold_rglob_subdirs (d : dir) :
  well_formed d = true -> fold_left dir_step (rglob_subdirs d) (prune_top d) = prune d.
Proof.
  induction d as [|m x d IH|m s d IHs IH] using dir_induction; intros W; [reflexivity| |];
    apply well_formed_cons in W; destruct W as (Hm & We & Wd);
    apply mem_false in Hm;
    pose proof (rglob_subdirs_past m d) as Hp.
  - rewrite rglob_subdirs_file, prune_file.
    unfold prune_top. cbn [filter snd fst]. fold (prune_top d).
    destruct (is_unwanted [m]); cbn [negb]; [auto|].
    rewrite fold_past by (intros p; now apply Hp). now rewrite IH.
  - rewrite rglob_subdirs_dir, prune_dir.
    unfold prune_top. cbn [filter snd fst]. fold (prune_top d).
    rewrite fold_left_app, fold_below by apply rglob_nonempty.
    rewrite fold_past by (intros p; now apply Hp).
    rewrite rglob_eq, fold_left_app, fold_iterdir by assumption.
    rewrite IHs, IH; auto.
Qed.

Lemma fold_dir_step_prune (d : dir) :
  well_formed d = true -> fold_left dir_step (rglob d) d = prune d.
Proof.
  intros W. rewrite rglob_eq, fold_left_app, fold_iterdir by assumption.
  now apply fold_rglob_subdirs.
Qed.

Lemma remove_step_dir (st : dir * list path * list event) (p : path) :
  fst (fst (remove_step false st p)) = dir_step (fst (fst st)) p.
Proof.
  destruct st as [[d r] o]. unfold remove_step, dir_step. simpl.
  destruct (lookup_path p d) as [[x|]|]; auto.
  destruct (is_unwanted p); auto. destruct (unlink p d); auto.
Qed.

Lemma remove_fold_dir (ps : list path) (st : dir * list path * list event) :
  fst (fst (fold_left (remove_step false) ps st)) = fold_left dir_step ps (fst (fst st)).
Proof.
  revert st. induction ps as [|p ps IH]; intros st; simpl; auto.
  now rewrite IH, remove_step_dir.
Qed.

(** On a well-formed tree the loop of remove_unwanted_files leaves the tree
    without its unwanted files, in the order it had. *)
Lemma remove_unwanted_files_prune (d : dir) :
  well_formed d = true -> fst (fst (remove_unwanted_files false d)) = prune d.
Proof.
  intros W. unfold remove_unwanted_files. rewrite remove_fold_dir.
  now apply fold_dir_step_prune.
Qed.

Lemma prune_names (n : str) (d : dir) : In n (map fst (prune d)) -> In n (map fst d).
Proof.
  induction d as [|m x d IH|m s d _ IH] using dir_induction; [simpl; auto| |].
  - rewrite prune_file. destruct (is_unwanted [m]); simpl; tauto.
  - rewrite prune_dir. simpl. tauto.
Qed.

Lemma lookup_prune (n : str) (d : dir) :
  well_formed d = true ->
  lookup n (prune d) =
    match lookup n d with
    | Some (File x) => if is_unwanted [n] then None else Some (File x)
    | Some (Dir s) => Some (Dir (prune s))
    | None => None
    end.
Proof.
  induction d as [|m x d IH|m s d _ IH] using dir_induction; intros W; [reflexivity| |];
    apply well_formed_cons in W; destruct W as (Hm & We & Wd); apply mem_false in Hm.
  - rewrite prune_file. cbn [lookup]. name_cases m n.
    + subst m. destruct (is_unwanted [n]).
      * apply lookup_not_listed. intros H. now apply Hm, prune_names.
      * cbn [lookup]. now rewrite str_eqb_refl.
    + destruct (is_unwanted [m]); cbn [lookup]; [|name_cases m n; [congruence|]]; auto.
  - rewrite prune_dir. cbn [lookup]. name_cases m n; auto.
Qed.

Lemma file_at_cons (n m : str) (q : path) (d : dir) :
  file_at (n :: m :: q) d =
    match lookup n d with
    | Some (Dir s) => file_at (m :: q) s
    | _ => None
    end.
Proof.
  unfold file_at. cbn [lookup_path]. destruct (lookup n d) as [[|]|]; reflexivity.
Qed.

Lemma well_formed_lookup (n : str) (d s : dir) :
  well_formed d = true -> lookup n d = Some (Dir s) -> well_formed s = true.
Proof.
  induction d as [|[m e] d IH]; [discriminate|]. intros W.
  apply well_formed_cons in W. destruct W as (_ & We & Wd).
  cbn [lookup]. name_cases m n; auto. intros [= ->]. exact We.
Qed.

Lemma file_at_prune (p : path) (d : dir) :
  well_formed d = true ->
  file_at p (prune d) = if is_unwanted p then None else file_at p d.
Proof.
  revert d. induction p as [|n q IH]; intros d W.
  - unfold file_at. simpl. now destruct (is_unwanted []).
  - destruct q as [|m q].
    + unfold file_at. cbn [lookup_path]. rewrite lookup_prune by assumption.
      destruct (lookup n d) as [[x|s]|]; destruct (is_unwanted [n]); reflexivity.
    + rewrite !file_at_cons, is_unwanted_cons by discriminate.
      rewrite lookup_prune by assumption.
      destruct (lookup n d) as [[x|s]|] eqn:E.
      * now destruct (is_unwanted [n]), (is_unwanted (m :: q)).
      * apply IH. eapply well_formed_lookup; eauto.
      * now destruct (is_unwanted (m :: q)).
Qed.

(** C7. In a run that applies its changes, on a tree in which no directory
    lists a name twice: at every path, whatever its depth, a file whose
    lowercased suffix is in the unwanted set is gone after
    remove_unwanted_files, and any other file is there with its content. *)
Theorem remove_unwanted_files_exact (d : dir) (p : path) :
  well_formed d = true ->
  file_at p (fst (fst (remove_unwanted_files false d))) =
    if mem (lower (suffix (last p []))) unwanted_extensions then None else file_at p d.
Proof.
  intros W. rewrite remove_unwanted_files_prune by assumption.
  now apply file_at_prune.
Qed.

Lemma remove_unwanted_files_exact_witness :
  file_at [L "extras"; L "deep"; L "a.rar"]
    (fst (fst (remove_unwanted_files false nested_folder))) = None /\
  file_at [L "extras"; L "deep"; L "b.srt"]
    (fst (fst (remove_unwanted_files false nested_folder))) = Some 6.
Proof.
  split.
  - exact (remove_unwanted_files_exact nested_folder [L "extras"; L "deep"; L "a.rar"]
             eq_refl).
  - exact (remove_unwanted_files_exact nested_folder [L "extras"; L "deep"; L "b.srt"]
             eq_refl).
Defined.

(** ** The matcher on repetitions *)

Lemma rep_greedy_stop (p : ascii -> bool) (k : nat -> str -> option result)
    (pos : nat) (s : str) :
  starts_outside p s -> rep_greedy p k pos s = k pos s.
Proof. destruct s as [|c s]; simpl; auto. now intros ->. Qed.

(** A greedy repetition before something that cannot start in the class
    takes the whole run. *)
Lemma rep_greedy_run (p : ascii -> bool) (k : nat -> str -> option result)
    (w s : str) (pos : nat) :
  rejects p k -> forallb p w = true ->
  rep_greedy p k pos (w ++ s) = rep_greedy p k (pos + List.length w) s.
Proof.
  intros R. revert pos. induction w as [|c w IH]; intros pos Hw; simpl.
  - now rewrite Nat.add_0_r.
  - simpl in Hw. apply andb_true_iff in Hw. destruct Hw as [Hc Hw].
    rewrite Hc, IH by assumption. rewrite Nat.add_succ_r. simpl.
    destruct (rep_greedy p k (S (pos + List.length w)) s); auto.
Qed.

Lemma rep_greedy_skip (p : ascii -> bool) (k : nat -> str -> option result)
    (w s : str) (pos : nat) :
  rejects p k -> forallb p w = true -> starts_outside p s ->
  rep_greedy p k pos (w ++ s) = k (pos + List.length w) s.
Proof.
  intros R Hw Hs. rewrite rep_greedy_run by assumption. now apply rep_greedy_stop.
Qed.

Lemma rep_greedy_inv (p : ascii -> bool) (k : nat -> str -> option result)
    (pos : nat) (s : str) (r : result) :
  rep_greedy p k pos s = Some r ->
  exists w s', s = w ++ s' /\ forallb p w = true /\ k (pos + List.length w) s' = Some r.
Proof.
  revert pos. induction s as [|c s IH]; intros pos; simpl.
  - intros H. exists [], []. simpl. now rewrite Nat.add_0_r.
  - destruct (p c) eqn:Hc.
    + destruct (rep_greedy p k (S pos) s) as [r'|] eqn:E.
      * intros [= ->]. destruct (IH _ E) as (w & s' & -> & Hw & Hk).
        exists (c :: w), s'. simpl. rewrite Hc, Hw, Nat.add_succ_r. auto.
      * intros H. exists [], (c :: s). simpl. now rewrite Nat.add_0_r.
    + intros H. exists [], (c :: s). simpl. now rewrite Nat.add_0_r.
Qed.

Lemma rep_lazy_inv (p : ascii -> bool) (k : nat -> str -> option result)
    (pos : nat) (s : str) (r : result) :
  rep_lazy p k pos s = Some r ->
  exists w s', s = w ++ s' /\ forallb p w = true /\ k (pos + List.length w) s' = Some r.
Proof.
  revert pos. induction s as [|c s IH]; intros pos; simpl.
  - destruct (k pos []) eqn:E; [|discriminate].
    intros [= ->]. exists [], []. simpl. now rewrite Nat.add_0_r.
  - destruct (k pos (c :: s)) eqn:E.
    + intros [= ->]. exists [], (c :: s). simpl. now rewrite Nat.add_0_r.
    + destruct (p c) eqn:Hc; [|discriminate]. intros H.
      destruct (IH _ H) as (w & s' & -> & Hw & Hk).
      exists (c :: w), s'. simpl. rewrite Hc, Hw, Nat.add_succ_r. auto.
Qed.

(** A lazy repetition stops at the first place where the rest matches. *)
Lemma rep_lazy_first (p : ascii -> bool) (k : nat -> str -> option result)
    (w s : str) (pos : nat) (r : result) :
  forallb p w = true ->
  (forall i, i < List.length w -> k (pos + i) (skipn i w ++ s) = None) ->
  k (pos + List.length w) s = Some r ->
  rep_lazy p k pos (w ++ s) = Some r.
Proof.
  revert pos. induction w as [|c w IH]; intros pos Hw Hnone Hk.
  - simpl in *. rewrite Nat.add_0_r in Hk. destruct s; simpl; now rewrite Hk.
  - simpl in Hw. apply andb_true_iff in Hw. destruct Hw as [Hc Hw].
    cbn [app rep_lazy].
    pose proof (Hnone 0 ltac:(simpl; lia)) as H0. rewrite Nat.add_0_r in H0.
    simpl in H0. rewrite H0, Hc. apply IH; auto.
    + intros i Hi. specialize (Hnone (S i) ltac:(simpl; lia)).
      now rewrite Nat.add_succ_r in Hnone.
    + simpl in Hk. now rewrite Nat.add_succ_r in Hk.
Qed.

Lemma search_from_bos (pat : pattern) (pos : nat) (s : str) :
  search_from (Bos :: pat) (S pos) s = None.
Proof. revert pos. induction s as [|c s IH]; intros pos; simpl; auto. Qed.

Lemma re_search_bos (pat : pattern) (s : str) :
  re_search (Bos :: pat) s = run pat 0 s [].
Proof.
  unfold re_search. destruct s as [|c s]; simpl.
  - now destruct (run pat 0 [] []).
  - destruct (run pat 0 (c :: s) []); auto. apply search_from_bos.
Qed.

(** ** Character classes *)

Lemma is_char_eq (a c : ascii) : is_char a c = true <-> c = a.
Proof. apply Ascii.eqb_eq. Qed.

Lemma space_not_paren (c : ascii) :
  is_space c = true -> is_char "("%char c = false /\ is_char ")"%char c = false.
Proof.
  intros H. split.
  - destruct (is_char "("%char c) eqn:E; auto. apply is_char_eq in E. subst. discriminate.
  - destruct (is_char ")"%char c) eqn:E; auto. apply is_char_eq in E. subst. discriminate.
Qed.

Lemma digit_not_space (c : ascii) : is_digit c = true -> is_space c = false.
Proof.
  unfold is_digit, is_space, in_range. intros H.
  apply andb_true_iff in H. destruct H as [H1 H2].
  apply N.leb_le in H1, H2.
  repeat match goal with
         | |- (_ || _)%bool = false => apply orb_false_iff; split
         | |- (_ && _)%bool = false => apply andb_false_iff
         end.
  - right. apply N.leb_gt. lia.
  - right. apply N.leb_gt. lia.
  - apply N.eqb_neq. lia.
  - apply N.eqb_neq. lia.
Qed.

(** ** The two year patterns *)

Lemma year_in_parens_eq : year_in_parens = paren_pattern year_body.
Proof. reflexivity. Qed.

Lemma truncated_year_eq : truncated_year = paren_pattern prefix_body.
Proof. reflexivity. Qed.

Lemma firstn_length_app (a b : str) : firstn (List.length a) (a ++ b) = a.
Proof. now rewrite firstn_app, Nat.sub_diag, firstn_all, app_nil_r. Qed.

Lemma skipn_length_app (a b : str) : skipn (List.length a) (a ++ b) = b.
Proof. now rewrite skipn_app, Nat.sub_diag, skipn_all. Qed.

Lemma substring_app (a y b : str) :
  substring (List.length a) (List.length a + List.length y) (a ++ y ++ b) = y.
Proof.
  unfold substring. rewrite skipn_length_app.
  replace (List.length a + List.length y - List.length a) with (List.length y) by lia.
  apply firstn_length_app.
Qed.

Lemma is_char_refl (a : ascii) : is_char a a = true.
Proof. apply Ascii.eqb_refl. Qed.

Lemma rejects_chr (p q : ascii -> bool) (pat : pattern) (marks : list nat) :
  (forall c, p c = true -> q c = false) ->
  rejects p (fun pos s => run (Chr q :: pat) pos s marks).
Proof. intros H pos c s Hc. simpl. now rewrite (H c Hc). Qed.

Lemma rejects_eos (marks : list nat) : rejects dot (fun pos s => run [Eos] pos s marks).
Proof.
  intros pos c s Hc. unfold dot in Hc. apply negb_true_iff in Hc.
  simpl. destruct s; auto. now rewrite Hc.
Qed.

Lemma last_skipn (l : str) (i : nat) (d : ascii) :
  i < List.length l -> last (skipn i l) d = last l d.
Proof.
  revert i. induction l as [|c l IH]; intros i Hi; [simpl in Hi; lia|].
  destruct i as [|i]; auto. simpl skipn. simpl in Hi.
  rewrite IH by lia. destruct l; [simpl in Hi; lia | reflexivity].
Qed.

Section ParenPattern.
Variable body : pattern.
Variable Y : str -> bool.

Hypothesis body_fwd : forall y s pat pos marks,
  Y y = true -> run (body ++ pat) pos (y ++ s) marks = run pat (pos + List.length y) s marks.
Hypothesis body_inv : forall pat pos s marks r,
  run (body ++ pat) pos s marks = Some r ->
  exists y s', s = y ++ s' /\ Y y = true /\ run pat (pos + List.length y) s' marks = Some r.
Hypothesis body_rej : forall pat pos c s marks,
  is_space c = true -> run (body ++ pat) pos (c :: s) marks = None.
Hypothesis Y_first : forall y s, Y y = true -> starts_outside is_space (y ++ s).

Lemma close_tail_fwd (s3 r : str) (pos : nat) (marks : list nat) :
  forallb is_space s3 = true -> forallb dot r = true ->
  run close_tail pos (s3 ++ L ")" ++ r) marks =
    Some (pos + List.length s3 + 1 + List.length r, pos :: marks).
Proof.
  intros H3 Hr. unfold close_tail. cbn [run exactly].
  rewrite rep_greedy_skip; auto.
  - cbn [L list_ascii_of_string app]. rewrite is_char_refl.
    replace r with (r ++ []) at 1 by apply app_nil_r.
    rewrite rep_greedy_skip.
    + do 2 f_equal. lia.
    + intros q c s Hc. unfold dot in Hc. apply negb_true_iff in Hc.
      destruct s; auto. now rewrite Hc.
    + assumption.
    + exact I.
  - intros q c s Hc. now rewrite (proj2 (space_not_paren c Hc)).
  - reflexivity.
Qed.

Lemma paren_tail_fwd (s1 s2 y s3 r : str) (pos m0 : nat) :
  forallb is_space s1 = true -> forallb is_space s2 = true ->
  forallb is_space s3 = true -> Y y = true -> forallb dot r = true ->
  exists e,
    run (paren_tail body) pos (s1 ++ L "(" ++ s2 ++ y ++ s3 ++ L ")" ++ r) [m0] =
      Some (e, [pos + List.length s1 + 1 + List.length s2 + List.length y;
                pos + List.length s1 + 1 + List.length s2; pos; m0]).
Proof.
  intros H1 H2 H3 Hy Hr. unfold paren_tail. cbn [app run exactly].
  rewrite rep_greedy_skip; auto.
  - cbn [L list_ascii_of_string app]. rewrite is_char_refl.
    rewrite rep_greedy_skip.
    + rewrite body_fwd by assumption.
      change (")"%char :: r) with (L ")" ++ r).
      rewrite close_tail_fwd by assumption.
      eexists. f_equal. f_equal. f_equal; [lia | f_equal; lia].
    + intros p c s Hc. now apply body_rej.
    + assumption.
    + now apply Y_first.
  - intros q c s Hc. now rewrite (proj1 (space_not_paren c Hc)).
  - reflexivity.
Qed.

(** The tail cannot start inside a title. *)
Lemma paren_tail_none (u rest : str) (pos m0 : nat) :
  existsb (is_char "("%char) u = false -> is_space (last u " "%char) = false ->
  run (paren_tail body) pos (u ++ rest) [m0] = None.
Proof.
  intros Hp Hl. unfold paren_tail. cbn [app run exactly].
  generalize (pos :: [m0]) as marks. intros marks. revert pos.
  induction u as [|c u IH]; intros pos; [discriminate|].
  simpl in Hp. apply orb_false_iff in Hp. destruct Hp as [Hc Hp].
  assert (K : run (Chr (is_char "("%char) :: Rep true 0 is_space :: Mark :: body ++ close_tail)
                pos (c :: u ++ rest) marks = None) by (simpl; now rewrite Hc).
  cbn [app rep_greedy]. destruct (is_space c) eqn:Sc; [|exact K].
  destruct u as [|c' u]; [simpl in Hl; congruence|].
  rewrite IH; auto.
Qed.

(** The pattern on [title ws ( ws year ws ) rest]. *)
Lemma paren_search_fwd (t s1 s2 y s3 r : str) :
  title_like t = true ->
  forallb is_space s1 = true -> forallb is_space s2 = true ->
  forallb is_space s3 = true -> Y y = true -> forallb dot r = true ->
  search_groups (paren_pattern body) (year_text t s1 s2 y s3 r) = Some (t, y).
Proof.
  intros Ht H1 H2 H3 Hy Hr. unfold title_like in Ht.
  apply andb_true_iff in Ht. destruct Ht as [Ht Hl].
  apply andb_true_iff in Ht. destruct Ht as [Hd Hp].
  apply negb_true_iff in Hl, Hp.
  destruct t as [|c t]; [discriminate|].
  simpl in Hd. apply andb_true_iff in Hd. destruct Hd as [Hc Hd].
  destruct (paren_tail_fwd s1 s2 y s3 r (List.length (c :: t)) 0 H1 H2 H3 Hy Hr)
    as (e & Hrun).
  unfold search_groups, paren_pattern. cbn [app]. rewrite re_search_bos.
  unfold year_text. cbn [app run exactly]. rewrite Hc.
  erewrite rep_lazy_first; [| exact Hd | | exact Hrun].
  - unfold groups. cbn [snd].
    f_equal. f_equal.
    + unfold substring. rewrite Nat.sub_0_r. cbn [skipn].
      apply (firstn_length_app (c :: t)).
    + set (a := (c :: t) ++ s1 ++ L "(" ++ s2).
      replace (List.length (c :: t) + List.length s1 + 1 + List.length s2)
        with (List.length a) by (unfold a; rewrite !length_app; simpl; lia).
      replace (c :: t ++ s1 ++ L "(" ++ s2 ++ y ++ s3 ++ L ")" ++ r)
        with (a ++ y ++ s3 ++ L ")" ++ r)
        by (unfold a; simpl; now rewrite <- !app_assoc).
      apply substring_app.
  - intros i Hi. apply paren_tail_none.
    + destruct (existsb (is_char "("%char) (skipn i t)) eqn:E; auto.
      apply existsb_exists in E. destruct E as (z & Hz & Ez).
      assert (existsb (is_char "("%char) (c :: t) = true); [|congruence].
      apply existsb_exists. exists z. split; auto. right.
      rewrite <- (firstn_skipn i t). apply in_or_app. now right.
    + rewrite last_skipn by assumption.
      destruct t; [simpl in Hi; lia | exact Hl].
Qed.

(** What a match of the pattern tells about the text. *)
Lemma paren_search_inv (name g1 g2 : str) :
  search_groups (paren_pattern body) name = Some (g1, g2) ->
  Y g2 = true /\ g1 <> [] /\
  exists s1 s2 s3 r, name = year_text g1 s1 s2 g2 s3 r.
Proof.
  unfold search_groups, paren_pattern. cbn [app]. rewrite re_search_bos.
  destruct (run _ 0 name []) as [[e ms]|] eqn:E; [|discriminate].
  cbn [app run exactly] in E.
  destruct name as [|c s0]; [discriminate|].
  destruct (dot c); [|discriminate].
  apply rep_lazy_inv in E. destruct E as (w1 & s1' & -> & _ & E).
  unfold paren_tail in E. cbn [app run exactly] in E.
  apply rep_greedy_inv in E. destruct E as (w2 & s2' & -> & _ & E).
  cbn [run] in E. destruct s2' as [|c2 s3']; [discriminate|].
  destruct (is_char "("%char c2) eqn:C2; [|discriminate].
  apply is_char_eq in C2. subst c2.
  apply rep_greedy_inv in E. destruct E as (w3 & s4' & -> & _ & E).
  cbn [run] in E. apply body_inv in E. destruct E as (y & s5' & -> & Hy & E).
  unfold close_tail in E. cbn [run exactly] in E.
  apply rep_greedy_inv in E. destruct E as (w4 & s6' & -> & _ & E).
  cbn [run] in E. destruct s6' as [|c6 s7']; [discriminate|].
  destruct (is_char ")"%char c6) eqn:C6; [|discriminate].
  apply is_char_eq in C6. subst c6. cbn [exactly] in E.
  apply rep_greedy_inv in E. destruct E as (w5 & s8' & -> & _ & E).
  assert (Hms : ms = [1 + List.length w1 + List.length w2 + 1 + List.length w3 + List.length y;
                      1 + List.length w1 + List.length w2 + 1 + List.length w3;
                      1 + List.length w1; 0]).
  { simpl in E. destruct s8' as [|c8 [|]]; try discriminate.
    - injection E as _ <-. f_equal; [lia | f_equal; lia].
    - destruct (is_char newline c8); [|discriminate].
      injection E as _ <-. f_equal; [lia | f_equal; lia]. }
  subst ms. unfold groups. cbn [snd].
  set (t := c :: w1). set (a := t ++ w2 ++ L "(" ++ w3).
  set (rest := w4 ++ L ")" ++ w5 ++ s8').
  assert (Hn : c :: w1 ++ w2 ++ "("%char :: w3 ++ y ++ w4 ++ ")"%char :: w5 ++ s8' =
               a ++ y ++ rest)
    by (unfold a, t, rest; simpl; now rewrite <- !app_assoc).
  rewrite Hn.
  replace (1 + List.length w1 + List.length w2 + 1 + List.length w3)
    with (List.length a) by (unfold a, t; rewrite !length_app; simpl; lia).
  rewrite substring_app.
  assert (Hg : substring 0 (1 + List.length w1) (a ++ y ++ rest) = t).
  { unfold substring. rewrite Nat.sub_0_r. cbn [skipn]. unfold a.
    rewrite <- app_assoc. apply (firstn_length_app t). }
  rewrite Hg. intros [= <- <-]. split; [exact Hy|]. split; [discriminate|].
  exists w2, w3, w4, (w5 ++ s8'). unfold year_text, a, rest.
  now rewrite <- !app_assoc.
Qed.
End ParenPattern.

Lemma strip_prefix_inv (l s s' : str) : strip_prefix l s = Some s' -> s = l ++ s'.
Proof.
  revert s. induction l as [|a l IH]; intros s; simpl.
  - now intros [= ->].
  - destruct s as [|c s]; [discriminate|].
    destruct (Ascii.eqb c a) eqn:E; [|discriminate].
    apply Ascii.eqb_eq in E. subst c. intros H. now rewrite (IH _ H).
Qed.

Lemma strip_prefix_app (l s : str) : strip_prefix l (l ++ s) = Some s.
Proof. induction l as [|a l IH]; simpl; auto. now rewrite Ascii.eqb_refl. Qed.

Lemma first_alt_inv (k : nat -> str -> option result) (alts : list str)
    (pos : nat) (s : str) (r : result) :
  first_alt k alts pos s = Some r ->
  exists a s', In a alts /\ s = a ++ s' /\ k (pos + List.length a) s' = Some r.
Proof.
  induction alts as [|a alts IH]; simpl; [discriminate|].
  destruct (strip_prefix a s) as [s'|] eqn:E.
  - destruct (k (pos + List.length a) s') eqn:K.
    + intros [= ->]. exists a, s'. auto using strip_prefix_inv.
    + intros H. destruct (IH H) as (b & t & Hb & Ht & Hk). exists b, t. auto.
  - intros H. destruct (IH H) as (b & t & Hb & Ht & Hk). exists b, t. auto.
Qed.

Lemma is_year_prefix_cases (y : str) : is_year_prefix y = true -> y = L "19" \/ y = L "20".
Proof.
  unfold is_year_prefix. intros H. apply orb_true_iff in H.
  destruct H as [H|H]; apply str_eqb_eq in H; auto.
Qed.

Lemma is_year_cases (y : str) :
  is_year y = true ->
  exists a c d, y = a ++ [c; d] /\ is_year_prefix a = true /\
                is_digit c = true /\ is_digit d = true.
Proof.
  destruct y as [|a [|b [|c [|d [|]]]]]; try discriminate. simpl. intros H.
  apply andb_true_iff in H. destruct H as [H Hd].
  apply andb_true_iff in H. destruct H as [H Hc].
  exists [a; b], c, d. auto.
Qed.

(** The alternation [(19|20)] on a text that starts with one of the two. *)
Lemma alt_fwd (k : nat -> str -> option result) (a s : str) (pos : nat) :
  is_year_prefix a = true ->
  first_alt k [L "19"; L "20"] pos (a ++ s) = k (pos + List.length a) s.
Proof.
  intros H. destruct (is_year_prefix_cases a H) as [-> | ->]; simpl;
    destruct (k (pos + 2) s); reflexivity.
Qed.

Lemma alt_inv (k : nat -> str -> option result) (pos : nat) (s : str) (r : result) :
  first_alt k [L "19"; L "20"] pos s = Some r ->
  exists a s', s = a ++ s' /\ is_year_prefix a = true /\ k (pos + List.length a) s' = Some r.
Proof.
  intros H. destruct (first_alt_inv _ _ _ _ _ H) as (a & s' & Ha & -> & Hk).
  exists a, s'. repeat split; auto.
  destruct Ha as [<-|[<-|[]]]; reflexivity.
Qed.

Lemma alt_rejects_space (k : nat -> str -> option result) (pos : nat) (c : ascii) (s : str) :
  is_space c = true -> first_alt k [L "19"; L "20"] pos (c :: s) = None.
Proof.
  intros Hc. simpl.
  destruct (Ascii.eqb c "1") eqn:E1; [apply Ascii.eqb_eq in E1; subst; discriminate|].
  destruct (Ascii.eqb c "2") eqn:E2; [apply Ascii.eqb_eq in E2; subst; discriminate|].
  reflexivity.
Qed.

Lemma prefix_starts_outside (a s : str) :
  is_year_prefix a = true -> starts_outside is_space (a ++ s).
Proof. intros H. destruct (is_year_prefix_cases a H) as [-> | ->]; reflexivity. Qed.

(** The four facts about the body of the pattern, for the year of four
    digits and for the truncated marker. *)
Lemma year_body_fwd (y s : str) (pat : pattern) (pos : nat) (marks : list nat) :
  is_year y = true ->
  run (year_body ++ pat) pos (y ++ s) marks = run pat (pos + List.length y) s marks.
Proof.
  intros H. destruct (is_year_cases y H) as (a & c & d & -> & Ha & Hc & Hd).
  unfold year_body. cbn [app run]. rewrite <- app_assoc, alt_fwd by assumption.
  cbn [app]. rewrite Hc, Hd, length_app. simpl. f_equal. lia.
Qed.

Lemma year_body_inv (pat : pattern) (pos : nat) (s : str) (marks : list nat) (r : result) :
  run (year_body ++ pat) pos s marks = Some r ->
  exists y s', s = y ++ s' /\ is_year y = true /\
               run pat (pos + List.length y) s' marks = Some r.
Proof.
  unfold year_body. cbn [app run]. intros H.
  apply alt_inv in H. destruct H as (a & s1 & -> & Ha & H).
  destruct s1 as [|c s1]; [discriminate|]. destruct (is_digit c) eqn:Hc; [|discriminate].
  destruct s1 as [|d s1]; [discriminate|]. destruct (is_digit d) eqn:Hd; [|discriminate].
  exists (a ++ [c; d]), s1. rewrite <- app_assoc. split; [reflexivity|]. split.
  - destruct (is_year_prefix_cases a Ha) as [-> | ->]; simpl; now rewrite Hc, Hd.
  - rewrite <- H, length_app. simpl. f_equal. lia.
Qed.

Lemma year_body_rej (pat : pattern) (pos : nat) (c : ascii) (s : str) (marks : list nat) :
  is_space c = true -> run (year_body ++ pat) pos (c :: s) marks = None.
Proof. intros H. unfold year_body. cbn [app run]. now apply alt_rejects_space. Qed.

Lemma year_starts_outside (y s : str) :
  is_year y = true -> starts_outside is_space (y ++ s).
Proof.
  intros H. destruct (is_year_cases y H) as (a & c & d & -> & Ha & _).
  rewrite <- app_assoc. now apply prefix_starts_outside.
Qed.

Lemma prefix_body_fwd (y s : str) (pat : pattern) (pos : nat) (marks : list nat) :
  is_year_prefix y = true ->
  run (prefix_body ++ pat) pos (y ++ s) marks = run pat (pos + List.length y) s marks.
Proof. intros H. unfold prefix_body. cbn [app run]. now rewrite alt_fwd. Qed.

Lemma prefix_body_inv (pat : pattern) (pos : nat) (s : str) (marks : list nat) (r : result) :
  run (prefix_body ++ pat) pos s marks = Some r ->
  exists y s', s = y ++ s' /\ is_year_prefix y = true /\
               run pat (pos + List.length y) s' marks = Some r.
Proof. unfold prefix_body. cbn [app run]. apply alt_inv. Qed.

Lemma prefix_body_rej (pat : pattern) (pos : nat) (c : ascii) (s : str) (marks : list nat) :
  is_space c = true -> run (prefix_body ++ pat) pos (c :: s) marks = None.
Proof. intros H. unfold prefix_body. cbn [app run]. now apply alt_rejects_space. Qed.

(** [year_in_parens] on [title ws ( ws year ws ) rest] gives the title and
    the year. *)
Lemma year_in_parens_fwd (t s1 s2 y s3 r : str) :
  title_like t = true ->
  forallb is_space s1 = true -> forallb is_space s2 = true ->
  forallb is_space s3 = true -> is_year y = true -> forallb dot r = true ->
  search_groups year_in_parens (year_text t s1 s2 y s3 r) = Some (t, y).
Proof.
  rewrite year_in_parens_eq.
  apply (paren_search_fwd year_body is_year year_body_fwd year_body_rej year_starts_outside).
Qed.

Lemma year_in_parens_inv (name g1 g2 : str) :
  search_groups year_in_parens name = Some (g1, g2) ->
  is_year g2 = true /\ g1 <> [] /\ exists s1 s2 s3 r, name = year_text g1 s1 s2 g2 s3 r.
Proof. rewrite year_in_parens_eq. apply (paren_search_inv year_body is_year year_body_inv). Qed.

Lemma truncated_year_fwd (t s1 s2 y s3 r : str) :
  title_like t = true ->
  forallb is_space s1 = true -> forallb is_space s2 = true ->
  forallb is_space s3 = true -> is_year_prefix y = true -> forallb dot r = true ->
  search_groups truncated_year (year_text t s1 s2 y s3 r) = Some (t, y).
Proof.
  rewrite truncated_year_eq.
  apply (paren_search_fwd prefix_body is_year_prefix prefix_body_fwd prefix_body_rej
           prefix_starts_outside).
Qed.

Lemma truncated_year_inv (name g1 g2 : str) :
  search_groups truncated_year name = Some (g1, g2) ->
  is_year_prefix g2 = true /\ g1 <> [] /\
  exists s1 s2 s3 r, name = year_text g1 s1 s2 g2 s3 r.
Proof.
  rewrite truncated_year_eq.
  apply (paren_search_inv prefix_body is_year_prefix prefix_body_inv).
Qed.

(** ** extract_title_year on the two shapes of name *)

(** extract_title_year on [title ws ( ws year ws ) rest]. *)
Lemma extract_year_text (dry_run : bool) (x t s1 s2 y s3 r : str) :
  parsed_name x = year_text t s1 s2 y s3 r ->
  title_like t = true ->
  forallb is_space s1 = true -> forallb is_space s2 = true ->
  forallb is_space s3 = true -> is_year y = true -> forallb dot r = true ->
  extract_title_year dry_run x = (nonempty (clean_title (strip is_space t)) y, []).
Proof.
  intros Hn Ht H1 H2 H3 Hy Hr. unfold extract_title_year.
  fold (parsed_name x). rewrite Hn.
  now rewrite (year_in_parens_fwd t s1 s2 y s3 r Ht H1 H2 H3 Hy Hr).
Qed.



(** ** Substitution and stripping keep a class of characters *)

Lemma sub_from_keeps (q : ascii -> bool) (pat : pattern) (repl : str)
    (skip pos : nat) (s : str) :
  forallb q repl = true -> forallb q s = true ->
  forallb q (sub_from pat repl skip pos s) = true.
Proof.
  intros Hr. revert skip pos. induction s as [|c s IH]; intros skip pos Hs.
  - simpl. destruct skip; auto. destruct (run pat pos [] []); auto.
  - simpl in Hs. apply andb_true_iff in Hs. destruct Hs as [Hc Hs].
    cbn [sub_from]. destruct skip as [|j]; [|now apply IH].
    destruct (run pat pos (c :: s) []) as [[e ms]|].
    + destruct (e - pos); rewrite forallb_app, Hr; simpl; [rewrite Hc|]; simpl; now apply IH.
    + simpl. rewrite Hc. now apply IH.
Qed.

Lemma re_sub_keeps (q : ascii -> bool) (pat : pattern) (repl s : str) :
  forallb q repl = true -> forallb q s = true -> forallb q (re_sub pat repl s) = true.
Proof. apply sub_from_keeps. Qed.

Lemma lstrip_suffix (p : ascii -> bool) (s : str) : exists a, s = a ++ lstrip p s.
Proof.
  induction s as [|c s [a IH]]; [now exists []|]. simpl.
  destruct (p c); [|now exists []]. exists (c :: a). simpl. now f_equal.
Qed.

Lemma rstrip_prefix (p : ascii -> bool) (s : str) : exists b, s = rstrip p s ++ b.
Proof.
  unfold rstrip. destruct (lstrip_suffix p (rev s)) as [a H].
  exists (rev a). rewrite <- rev_app_distr, <- H. now rewrite rev_involutive.
Qed.

Lemma strip_middle (p : ascii -> bool) (s : str) : exists a b, s = a ++ strip p s ++ b.
Proof.
  unfold strip. destruct (lstrip_suffix p s) as [a Ha].
  destruct (rstrip_prefix p (lstrip p s)) as [b Hb].
  exists a, b. now rewrite <- Hb.
Qed.

Lemma forallb_middle (q : ascii -> bool) (s a m b : str) :
  s = a ++ m ++ b -> forallb q s = true -> forallb q m = true.
Proof.
  intros -> H. rewrite !forallb_app in H.
  apply andb_true_iff in H. destruct H as [_ H].
  apply andb_true_iff in H. tauto.
Qed.

Lemma strip_keeps (q p : ascii -> bool) (s : str) :
  forallb q s = true -> forallb q (strip p s) = true.
Proof.
  destruct (strip_middle p s) as (a & b & H). intros Hs.
  exact (forallb_middle q s a (strip p s) b H Hs).
Qed.

(** ** The ends of a stripped string *)

Lemma lstrip_starts (p : ascii -> bool) (s : str) : starts_outside p (lstrip p s).
Proof.
  induction s as [|c s IH]; simpl; auto.
  destruct (p c) eqn:E; auto.
Qed.

Lemma lstrip_id (p : ascii -> bool) (s : str) : starts_outside p s -> lstrip p s = s.
Proof. destruct s as [|c s]; simpl; auto. now intros ->. Qed.

Lemma rstrip_starts (p : ascii -> bool) (s : str) :
  starts_outside p s -> starts_outside p (rstrip p s).
Proof.
  intros H. destruct (rstrip_prefix p s) as [b Hb].
  destruct (rstrip p s) as [|c t]; simpl; auto.
  rewrite Hb in H. exact H.
Qed.

Lemma strip_ends (p : ascii -> bool) (s : str) : ends_outside p (strip p s).
Proof.
  unfold strip. split.
  - apply rstrip_starts, lstrip_starts.
  - unfold rstrip. rewrite rev_involutive. apply lstrip_starts.
Qed.

Lemma strip_id (p : ascii -> bool) (s : str) : ends_outside p s -> strip p s = s.
Proof.
  intros [H1 H2]. unfold strip, rstrip.
  now rewrite (lstrip_id p s H1), (lstrip_id p (rev s) H2), rev_involutive.
Qed.

(** ** A pattern that matches nowhere *)

Lemma sub_from_no_match (pat : pattern) (repl s : str) (pos : nat) :
  no_match pat s -> sub_from pat repl 0 pos s = s.
Proof.
  revert pos. induction s as [|c s IH]; intros pos H.
  - simpl. now rewrite (H [] [] pos eq_refl).
  - cbn [sub_from]. rewrite (H [] (c :: s) pos eq_refl). f_equal.
    apply IH. intros a b q ->. apply (H (c :: a) b q). reflexivity.
Qed.

Lemma re_sub_no_match (pat : pattern) (repl s : str) :
  no_match pat s -> re_sub pat repl s = s.
Proof. apply sub_from_no_match. Qed.

(** A pattern that starts with a character of a class the text lacks. *)
Lemma no_match_first (p : ascii -> bool) (pat : pattern) (s : str) :
  existsb p s = false -> no_match (Chr p :: pat) s.
Proof.
  intros H a b pos ->. rewrite existsb_app in H. apply orb_false_iff in H.
  destruct H as [_ H]. destruct b as [|c b]; simpl; auto.
  simpl in H. apply orb_false_iff in H. destruct H as [-> _]. reflexivity.
Qed.

Lemma no_match_second (p q : ascii -> bool) (pat : pattern) (s : str) :
  existsb q s = false -> no_match (Chr p :: Chr q :: pat) s.
Proof.
  intros H a b pos ->. rewrite existsb_app in H. apply orb_false_iff in H.
  destruct H as [_ H]. destruct b as [|c b]; simpl; auto.
  destruct (p c); auto. simpl in H. apply orb_false_iff in H. destruct H as [_ H].
  destruct b as [|c' b]; auto. simpl in H. apply orb_false_iff in H.
  destruct H as [-> _]. reflexivity.
Qed.

Lemma no_match_plus (p : ascii -> bool) (s : str) :
  existsb p s = false -> no_match [Rep true 1 p] s.
Proof.
  intros H a b pos ->. rewrite existsb_app in H. apply orb_false_iff in H.
  destruct H as [_ H]. destruct b as [|c b]; simpl; auto.
  simpl in H. apply orb_false_iff in H. destruct H as [-> _]. reflexivity.
Qed.

(** ** Collapsing runs: the pattern [p+] *)

Lemma rep_greedy_all (p : ascii -> bool) (pos : nat) (s : str) :
  rep_greedy p (fun pos' _ => Some (pos', [])) pos s = Some (pos + run_length p s, []).
Proof.
  revert pos. induction s as [|c s IH]; intros pos; simpl.
  - now rewrite Nat.add_0_r.
  - destruct (p c).
    + rewrite IH. now rewrite Nat.add_succ_r.
    + now rewrite Nat.add_0_r.
Qed.

Lemma run_plus (p : ascii -> bool) (pos : nat) (c : ascii) (s : str) :
  run [Rep true 1 p] pos (c :: s) [] =
    if p c then Some (S pos + run_length p s, []) else None.
Proof. cbn [run exactly]. destruct (p c); auto. apply rep_greedy_all. Qed.

Lemma sub_plus_cons (p : ascii -> bool) (repl : str) (pos : nat) (c : ascii) (s : str) :
  sub_from [Rep true 1 p] repl 0 pos (c :: s) =
    if p c then repl ++ sub_from [Rep true 1 p] repl (run_length p s) (S pos) s
    else c :: sub_from [Rep true 1 p] repl 0 (S pos) s.
Proof.
  cbn [sub_from]. rewrite run_plus. destruct (p c); auto.
  replace (S pos + run_length p s - pos) with (S (run_length p s)) by lia.
  reflexivity.
Qed.

(** After the substitution nothing of the class is left. *)
Lemma sub_plus_clears (p : ascii -> bool) (repl : str) (skip pos : nat) (s : str) :
  existsb p repl = false ->
  existsb p (sub_from [Rep true 1 p] repl skip pos s) = false.
Proof.
  intros Hr. revert skip pos. induction s as [|c s IH]; intros skip pos.
  - simpl. now destruct skip.
  - destruct skip as [|j]; [|apply IH].
    rewrite sub_plus_cons. destruct (p c) eqn:Hc.
    + now rewrite existsb_app, Hr, IH.
    + simpl. now rewrite Hc, IH.
Qed.

Lemma starts_outside_negb (p : ascii -> bool) (s : str) :
  starts_outside p s -> match s with d :: _ => negb (p d) | [] => true end = true.
Proof. destruct s; simpl; auto. now intros ->. Qed.

Lemma sub_spaces_single (skip pos : nat) (s : str) :
  skip = 0 \/ skip = run_length is_space s ->
  single_spaced (sub_from [Rep true 1 is_space] (L " ") skip pos s) = true /\
  (skip = run_length is_space s ->
   starts_outside is_space (sub_from [Rep true 1 is_space] (L " ") skip pos s)).
Proof.
  revert skip pos. induction s as [|c s IH]; intros skip pos Hs.
  - simpl. destruct skip; simpl; auto.
  - destruct skip as [|j].
    + rewrite sub_plus_cons. destruct (is_space c) eqn:Hc.
      * destruct (IH (run_length is_space s) (S pos) (or_intror eq_refl)) as [I1 I2].
        specialize (I2 eq_refl). apply starts_outside_negb in I2.
        set (out := sub_from _ _ _ _ _) in *.
        split.
        -- change (L " " ++ out) with (" "%char :: out).
           cbn [single_spaced]. rewrite I1, I2. reflexivity.
        -- simpl. rewrite Hc. discriminate.
      * destruct (IH 0 (S pos) (or_introl eq_refl)) as [I1 _]. split.
        -- cbn [single_spaced]. now rewrite Hc, I1.
        -- intros _. exact Hc.
    + destruct Hs as [Hs|Hs]; [discriminate|].
      cbn [sub_from]. simpl in Hs. destruct (is_space c); [|discriminate].
      injection Hs as Hs. destruct (IH j (S pos) (or_intror Hs)) as [I1 I2]. auto.
Qed.

Lemma single_spaced_app (a b : str) :
  single_spaced (a ++ b) = true -> single_spaced a = true /\ single_spaced b = true.
Proof.
  induction a as [|c a IH]; simpl; auto. intros H.
  apply andb_true_iff in H. destruct H as [Hc H]. destruct (IH H) as [Ha Hb].
  split; auto. rewrite Ha, andb_true_r.
  destruct (is_space c); auto.
  apply andb_true_iff in Hc. destruct Hc as [-> Hn].
  destruct a; simpl in *; auto.
Qed.

Lemma single_spaced_strip (p : ascii -> bool) (s : str) :
  single_spaced s = true -> single_spaced (strip p s) = true.
Proof.
  destruct (strip_middle p s) as (a & b & H). intros Hs. rewrite H in Hs.
  apply single_spaced_app in Hs. destruct Hs as [_ Hs].
  now apply single_spaced_app in Hs.
Qed.

Lemma single_spaced_blank (s : str) (c : ascii) :
  single_spaced s = true -> In c s -> is_space c = true -> c = " "%char.
Proof.
  induction s as [|d s IH]; simpl; [tauto|]. intros H [->|Hin] Hc.
  - rewrite Hc in H. apply andb_true_iff in H. destruct H as [H _].
    apply andb_true_iff in H. destruct H as [H _]. now apply is_char_eq in H.
  - apply andb_true_iff in H. destruct H as [_ H]. auto.
Qed.

(** On such a text the substitution of [\s+] by a blank changes nothing. *)
Lemma sub_spaces_id (pos : nat) (s : str) :
  single_spaced s = true -> sub_from [Rep true 1 is_space] (L " ") 0 pos s = s.
Proof.
  revert pos. induction s as [|c s IH]; intros pos H; [reflexivity|].
  rewrite sub_plus_cons. simpl in H. apply andb_true_iff in H. destruct H as [Hc Hs].
  destruct (is_space c).
  - apply andb_true_iff in Hc. destruct Hc as [Hc Hn]. apply is_char_eq in Hc. subst c.
    assert (R : run_length is_space s = 0).
    { destruct s as [|d s]; auto. simpl. apply negb_true_iff in Hn. now rewrite Hn. }
    rewrite R, IH by assumption. reflexivity.
  - now rewrite IH.
Qed.

(** ** Names without a slash or a period *)

Lemma existsb_false_forallb (p : ascii -> bool) (s : str) :
  existsb p s = false <-> forallb (fun c => negb (p c)) s = true.
Proof.
  induction s as [|c s IH]; simpl; [tauto|].
  rewrite orb_false_iff, andb_true_iff, negb_true_iff. tauto.
Qed.

Lemma existsb_false_in (p : ascii -> bool) (s : str) (c : ascii) :
  existsb p s = false -> In c s -> p c = false.
Proof.
  intros H Hin. destruct (p c) eqn:E; auto.
  assert (existsb p s = true); [|congruence].
  apply existsb_exists. eauto.
Qed.

Lemma forallb_rev (q : ascii -> bool) (s : str) : forallb q s = true -> forallb q (rev s) = true.
Proof.
  rewrite !forallb_forall. intros H c Hc. apply H. now apply in_rev.
Qed.

Lemma split_slash_no_slash (cur s : str) :
  forallb no_slash cur = true ->
  Forall (fun p => forallb no_slash p = true) (split_slash cur s).
Proof.
  revert cur. induction s as [|c s IH]; intros cur H; simpl.
  - constructor; auto. now apply forallb_rev.
  - destruct (is_char slash c) eqn:E.
    + constructor; [now apply forallb_rev | now apply IH].
    + apply IH. simpl. unfold no_slash at 1. now rewrite E.
Qed.

Lemma path_name_no_slash (x : str) : forallb no_slash (path_name x) = true.
Proof.
  unfold path_name.
  assert (H : Forall (fun p => forallb no_slash p = true)
                (filter (fun p => negb (str_eqb p [] || str_eqb p [period]))
                   (split_slash [] x))).
  { apply Forall_forall. intros p Hp. apply filter_In in Hp. destruct Hp as [Hp _].
    pose proof (split_slash_no_slash [] x eq_refl) as F.
    rewrite Forall_forall in F. now apply F. }
  induction H as [|p l Hp Hl IH]; [reflexivity|].
  destruct l; [exact Hp | exact IH].
Qed.

Lemma split_slash_id (cur s : str) :
  forallb no_slash s = true -> split_slash cur s = [rev cur ++ s].
Proof.
  revert cur. induction s as [|c s IH]; intros cur H; simpl.
  - now rewrite app_nil_r.
  - simpl in H. apply andb_true_iff in H. destruct H as [Hc Hs].
    unfold no_slash in Hc. apply negb_true_iff in Hc. rewrite Hc, IH by assumption.
    simpl. now rewrite <- app_assoc.
Qed.

Lemma path_name_id (s : str) :
  forallb no_slash s = true -> s <> [] -> s <> [period] -> path_name s = s.
Proof.
  intros H H1 H2. unfold path_name. rewrite split_slash_id by assumption. simpl.
  apply str_eqb_neq in H1, H2. now rewrite H1, H2.
Qed.

Lemma rfind_dot_none (s : str) : existsb (is_char period) s = false -> rfind_dot s = None.
Proof.
  induction s as [|c s IH]; simpl; auto. intros H.
  apply orb_false_iff in H. destruct H as [Hc Hs]. now rewrite IH, Hc.
Qed.

Lemma stem_id (s : str) : existsb (is_char period) s = false -> stem s = s.
Proof. intros H. unfold stem, suffix_index. now rewrite rfind_dot_none. Qed.

Lemma stem_prefix (s : str) : exists b, s = stem s ++ b.
Proof.
  unfold stem. destruct (suffix_index s) as [i|].
  - exists (skipn i s). now rewrite firstn_skipn.
  - exists []. now rewrite app_nil_r.
Qed.

Lemma forallb_prefix (q : ascii -> bool) (a b : str) :
  forallb q (a ++ b) = true -> forallb q a = true.
Proof. rewrite forallb_app. intros H. apply andb_true_iff in H. tauto. Qed.

Lemma parsed_name_no_slash (x : str) : forallb no_slash (parsed_name x) = true.
Proof.
  unfold parsed_name, repair.
  apply re_sub_keeps; [reflexivity|]. apply re_sub_keeps; [reflexivity|].
  destruct (stem_prefix (path_name x)) as [b Hb].
  apply forallb_prefix with b. rewrite <- Hb. apply path_name_no_slash.
Qed.

(** ** The doubled parenthesis *)

Lemma count_app (a : ascii) (s t : str) : count a (s ++ t) = count a s + count a t.
Proof. unfold count. now rewrite filter_app, length_app. Qed.

Lemma count_none (a : ascii) (s : str) : existsb (is_char a) s = false -> count a s = 0.
Proof.
  unfold count. induction s as [|c s IH]; simpl; auto. intros H.
  apply orb_false_iff in H. destruct H as [-> H]. auto.
Qed.

Lemma double_pat_inv (a : ascii) (pos : nat) (s : str) (r : result) :
  run (double_pat a) pos s [] = Some r -> 2 <= count a s.
Proof.
  unfold double_pat. cbn [run exactly]. intros H.
  apply rep_greedy_inv in H. destruct H as (w1 & s1 & -> & _ & H).
  destruct s1 as [|c1 s1]; [discriminate|].
  destruct (is_char a c1) eqn:C1; [|discriminate].
  apply rep_greedy_inv in H. destruct H as (w2 & s2 & -> & _ & H).
  destruct s2 as [|c2 s2]; [discriminate|].
  destruct (is_char a c2) eqn:C2; [|discriminate].
  rewrite count_app. unfold count at 2. simpl. rewrite C1. simpl.
  fold (count a (w2 ++ c2 :: s2)). rewrite count_app. unfold count at 3. simpl.
  rewrite C2. simpl. lia.
Qed.

Lemma double_pat_no_match (a : ascii) (s : str) : count a s <= 1 -> no_match (double_pat a) s.
Proof.
  intros H u b pos ->. destruct (run (double_pat a) pos b []) eqn:E; auto.
  apply double_pat_inv in E. rewrite count_app in H. lia.
Qed.

Lemma repair_id (s : str) :
  count "("%char s <= 1 -> count ")"%char s <= 1 -> repair s = s.
Proof.
  intros H1 H2. unfold repair.
  rewrite (re_sub_no_match double_open (L " (") s (double_pat_no_match "("%char s H1)).
  apply (re_sub_no_match double_close (L ") ") s (double_pat_no_match ")"%char s H2)).
Qed.

(** ** A title the noise patterns leave alone *)

Lemma run_lit_ci (l s : str) (pos : nat) (marks : list nat) :
  run (lit_ci l) pos s marks =
    if prefix_ci l s then Some (pos + List.length l, marks) else None.
Proof.
  revert s pos. induction l as [|a l IH]; intros s pos; simpl.
  - now rewrite Nat.add_0_r.
  - destruct s as [|c s]; auto. destruct (ci a c); simpl; auto.
    unfold lit_ci in IH. rewrite IH. now rewrite Nat.add_succ_r.
Qed.

Lemma occurs_ci_suffix (l a b : str) : occurs_ci l (a ++ b) = false -> prefix_ci l b = false.
Proof.
  induction a as [|c a IH]; simpl.
  - destruct b; simpl; auto. intros H. apply orb_false_iff in H. tauto.
  - intros H. apply orb_false_iff in H. tauto.
Qed.

Lemma no_match_lit_ci (l s : str) : occurs_ci l s = false -> no_match (lit_ci l) s.
Proof.
  intros H a b pos ->. rewrite run_lit_ci. now rewrite (occurs_ci_suffix l a b H).
Qed.

Lemma ci_bracket (c : ascii) : ci "["%char c = is_char "["%char c.
Proof. destruct c as [[] [] [] [] [] [] [] []]; reflexivity. Qed.

Lemma ci_period (c : ascii) : ci "."%char c = is_char "."%char c.
Proof. destruct c as [[] [] [] [] [] [] [] []]; reflexivity. Qed.

Lemma existsb_ext_false (p q : ascii -> bool) (s : str) :
  (forall c, p c = q c) -> existsb q s = false -> existsb p s = false.
Proof.
  intros E. induction s as [|c s IH]; simpl; auto.
  rewrite E. intros H. apply orb_false_iff in H. destruct H as [-> H]. auto.
Qed.

Section Quiet.
Variable t : str.
Hypothesis no_bracket : existsb (is_char "["%char) t = false.
Hypothesis no_period : existsb (is_char "."%char) t = false.
Hypothesis no_rarbg : occurs_ci (L "-RARBG") t = false.

Lemma bracketed_no_match (token : string) : no_match (bracketed token) t.
Proof.
  unfold bracketed. cbn [app]. apply no_match_first.
  apply existsb_ext_false with (is_char "["%char); auto using ci_bracket.
Qed.

Lemma leading_period_no_match (pat : pattern) : no_match (Chr (ci "."%char) :: pat) t.
Proof.
  apply no_match_first.
  apply existsb_ext_false with (is_char "."%char); auto using ci_period.
Qed.

Lemma dotted_no_match (token : string) : no_match (dotted token) t.
Proof. unfold dotted. apply leading_period_no_match. Qed.

Lemma release_patterns_no_match : Forall (fun pat => no_match pat t) release_patterns.
Proof.
  unfold release_patterns. repeat rewrite Forall_app. repeat split.
  - apply Forall_forall. intros pat H. apply in_map_iff in H.
    destruct H as (tok & <- & _). apply bracketed_no_match.
  - apply Forall_forall. intros pat H. apply in_map_iff in H.
    destruct H as (tok & <- & _). apply dotted_no_match.
  - repeat constructor.
    + apply leading_period_no_match.
    + apply no_match_second.
      apply existsb_ext_false with (is_char "["%char); auto using ci_bracket.
    + now apply no_match_lit_ci.
    + apply leading_period_no_match.
    + apply leading_period_no_match.
Qed.

Lemma remove_noise_id : remove_noise t = t.
Proof.
  unfold remove_noise. induction release_patterns_no_match as [|pat l H _ IH]; simpl; auto.
  now rewrite re_sub_no_match.
Qed.
End Quiet.

Lemma remove_noise_keeps (q : ascii -> bool) (s : str) :
  forallb q s = true -> forallb q (remove_noise s) = true.
Proof.
  unfold remove_noise. revert s.
  induction release_patterns as [|pat l IH]; intros s H; simpl; auto.
  apply IH. now apply re_sub_keeps.
Qed.

(** ** The shape of a cleaned title *)

Lemma clean_title_keeps (q : ascii -> bool) (g : str) :
  q " "%char = true -> forallb q g = true -> forallb q (clean_title g) = true.
Proof.
  intros Hq Hg. unfold clean_title.
  apply strip_keeps, strip_keeps.
  apply re_sub_keeps; [simpl; now rewrite Hq|].
  apply re_sub_keeps; [simpl; now rewrite Hq|].
  now apply remove_noise_keeps.
Qed.

Lemma clean_title_no_period (g : str) :
  existsb (one_of (L "._")) (clean_title g) = false.
Proof.
  apply existsb_false_forallb. unfold clean_title.
  apply strip_keeps, strip_keeps.
  apply re_sub_keeps; [reflexivity|].
  apply existsb_false_forallb. apply sub_plus_clears. reflexivity.
Qed.

Lemma clean_title_single_spaced (g : str) : single_spaced (clean_title g) = true.
Proof.
  unfold clean_title. apply single_spaced_strip, single_spaced_strip.
  apply (sub_spaces_single 0 0). now left.
Qed.

Lemma clean_title_ends (g : str) : ends_outside (one_of strip_chars) (clean_title g).
Proof. unfold clean_title. apply strip_ends. Qed.

(** ** Parsing a formatted name again *)

Lemma existsb_weaken (p q : ascii -> bool) (s : str) :
  (forall c, p c = true -> q c = true) -> existsb q s = false -> existsb p s = false.
Proof.
  intros W H. destruct (existsb p s) eqn:E; auto.
  apply existsb_exists in E. destruct E as (c & Hc & Pc).
  assert (existsb q s = true); [|congruence].
  apply existsb_exists. eauto.
Qed.

Lemma is_year_digits (y : str) : is_year y = true -> forallb is_digit y = true.
Proof.
  intros H. destruct (is_year_cases y H) as (a & c & d & -> & Ha & Hc & Hd).
  destruct (is_year_prefix_cases a Ha) as [-> | ->]; simpl; now rewrite Hc, Hd.
Qed.

Lemma year_lacks (a : ascii) (y : str) :
  is_digit a = false -> is_year y = true -> existsb (is_char a) y = false.
Proof.
  intros Ha Hy. apply is_year_digits in Hy. rewrite forallb_forall in Hy.
  destruct (existsb (is_char a) y) eqn:E; auto.
  apply existsb_exists in E. destruct E as (c & Hc & Pc).
  apply is_char_eq in Pc. subst c. rewrite (Hy a Hc) in Ha. discriminate.
Qed.

Lemma default_year_is_year (p : str) : is_year (default_year p) = true.
Proof. unfold default_year. now destruct (str_eqb p (L "19")). Qed.

Lemma starts_outside_weaken (p q : ascii -> bool) (s : str) :
  (forall c, In c s -> q c = false -> p c = false) ->
  starts_outside q s -> starts_outside p s.
Proof. destruct s as [|c s]; simpl; auto. Qed.

Lemma nonempty_some (t y : str) : t <> [] -> nonempty t y = Some (t, y).
Proof. destruct t; [congruence | reflexivity]. Qed.

Section Reparse.
Variables t y : str.
Hypothesis t_nonempty : t <> [].
Hypothesis t_no_slash : forallb no_slash t = true.
Hypothesis t_no_period : existsb (one_of (L "._")) t = false.
Hypothesis t_single : single_spaced t = true.
Hypothesis t_ends : ends_outside (one_of strip_chars) t.
Hypothesis t_no_open : existsb (is_char "("%char) t = false.
Hypothesis t_no_close : existsb (is_char ")"%char) t = false.
Hypothesis t_no_bracket : existsb (is_char "["%char) t = false.
Hypothesis t_no_rarbg : occurs_ci (L "-RARBG") t = false.
Hypothesis y_year : is_year y = true.

Lemma title_no_period : existsb (is_char "."%char) t = false.
Proof.
  apply existsb_weaken with (one_of (L "._")); auto.
  intros c H. apply is_char_eq in H. now subst c.
Qed.

Lemma title_space_outside (c : ascii) :
  In c t -> one_of strip_chars c = false -> is_space c = false.
Proof.
  intros Hin Hc. destruct (is_space c) eqn:E; auto.
  rewrite (single_spaced_blank t c t_single Hin E) in Hc. discriminate.
Qed.

Lemma title_ends_space : ends_outside is_space t.
Proof.
  destruct t_ends as [H1 H2]. split.
  - apply starts_outside_weaken with (one_of strip_chars); auto.
    apply title_space_outside.
  - apply starts_outside_weaken with (one_of strip_chars); auto.
    intros c Hc. apply title_space_outside. now apply in_rev.
Qed.

Lemma title_last_solid : is_space (last t " "%char) = false.
Proof.
  destruct title_ends_space as [_ H].
  rewrite (app_removelast_last " "%char t_nonempty) in H.
  rewrite rev_app_distr in H. exact H.
Qed.

Lemma title_same_line : forallb dot t = true.
Proof.
  apply forallb_forall. intros c Hc. unfold dot. apply negb_true_iff.
  destruct (is_char newline c) eqn:E; auto.
  apply is_char_eq in E. subst c.
  discriminate (single_spaced_blank t newline t_single Hc eq_refl).
Qed.

Lemma title_is_title_like : title_like t = true.
Proof.
  unfold title_like. now rewrite title_same_line, t_no_open, title_last_solid.
Qed.

Lemma clean_title_id : clean_title (strip is_space t) = t.
Proof.
  rewrite (strip_id is_space t title_ends_space). unfold clean_title.
  rewrite (remove_noise_id t t_no_bracket title_no_period t_no_rarbg).
  rewrite (re_sub_no_match _ _ t (no_match_plus _ t t_no_period)).
  unfold re_sub at 1. rewrite (sub_spaces_id 0 t t_single).
  rewrite (strip_id is_space t title_ends_space).
  apply (strip_id _ t t_ends).
Qed.

Lemma formatted_parsed_name : parsed_name (format_name t y) = format_name t y.
Proof.
  unfold parsed_name.
  assert (Hs : forallb no_slash (format_name t y) = true).
  { unfold format_name. rewrite !forallb_app, t_no_slash. simpl.
    apply andb_true_iff. split; auto.
    apply existsb_false_forallb. now apply year_lacks. }
  assert (Hp : existsb (is_char period) (format_name t y) = false).
  { pose proof title_no_period as Tp.
    change (is_char "."%char) with (is_char period) in Tp.
    unfold format_name. rewrite !existsb_app, Tp. simpl.
    rewrite (year_lacks period y eq_refl y_year). reflexivity. }
  rewrite path_name_id; auto.
  - rewrite stem_id by assumption. apply repair_id; unfold format_name;
      rewrite !count_app, (count_none _ t), (count_none _ y); auto using year_lacks.
  - unfold format_name. intros E. apply app_eq_nil in E. tauto.
  - intros E. rewrite E in Hp. discriminate.
Qed.

Lemma reparse (dry_run : bool) :
  extract_title_year dry_run (format_name t y) = (Some (t, y), []).
Proof.
  rewrite (extract_year_text dry_run (format_name t y) t (L " ") [] y [] []
             formatted_parsed_name title_is_title_like
             eq_refl eq_refl eq_refl y_year eq_refl).
  rewrite clean_title_id. now rewrite nonempty_some.
Qed.
End Reparse.

(** C5, as the code has it.  A title and a year that come out of
    extract_title_year come out again when the formatted name is parsed,
    provided the title has no parenthesis, no opening bracket and no
    [-RARBG] in it. *)
Theorem reparse_formatted (dry_run dry_run' : bool) (x t y : str) :
  fst (extract_title_year dry_run x) = Some (t, y) ->
  existsb (is_char "("%char) t = false -> existsb (is_char ")"%char) t = false ->
  existsb (is_char "["%char) t = false -> occurs_ci (L "-RARBG") t = false ->
  extract_title_year dry_run' (format_name t y) = (Some (t, y), []).
Proof.
  intros Hx Ho Hc Hb Hr.
  assert (H : exists g, t = clean_title (strip is_space g) /\ t <> [] /\
                        forallb no_slash g = true /\ is_year y = true).
  { unfold extract_title_year in Hx. fold (parsed_name x) in Hx.
    pose proof (parsed_name_no_slash x) as Hs.
    destruct (search_groups year_in_parens (parsed_name x)) as [[g1 y1]|] eqn:E4.
    - cbn [fst] in Hx. destruct (year_in_parens_inv _ _ _ E4) as (Hy & _ & s1 & s2 & s3 & r & Hn).
      exists g1. destruct (clean_title (strip is_space g1)) eqn:Ec; [discriminate|].
      injection Hx as <- <-. repeat split; auto; [discriminate|].
      rewrite Hn in Hs. unfold year_text in Hs. now apply forallb_prefix in Hs.
    - destruct (search_groups truncated_year (parsed_name x)) as [[g1 p]|] eqn:E2;
        [|discriminate].
      cbn [fst] in Hx. destruct (truncated_year_inv _ _ _ E2) as (_ & _ & s1 & s2 & s3 & r & Hn).
      exists g1. destruct (clean_title (strip is_space g1)) eqn:Ec; [discriminate|].
      injection Hx as <- <-. repeat split; auto; [discriminate | |].
      + rewrite Hn in Hs. unfold year_text in Hs. now apply forallb_prefix in Hs.
      + apply default_year_is_year. }
  destruct H as (g & Ht & Hne & Hs & Hy). apply reparse; auto; subst t.
  - apply clean_title_keeps; [reflexivity|]. now apply strip_keeps.
  - apply clean_title_no_period.
  - apply clean_title_single_spaced.
  - apply clean_title_ends.
Qed.

Lemma reparse_formatted_witness :
  extract_title_year true (format_name (L "Show") (L "2019")) =
    (Some (L "Show", L "2019"), []).
Proof.
  exact (reparse_formatted false true (L "Show (2019) [YTS.MX]") (L "Show") (L "2019")
           eq_refl eq_refl eq_refl eq_refl eq_refl).
Defined.

(** ** Two videos with one suffix *)

Lemma mem_in (s : str) (l : list str) : mem s l = true <-> In s l.
Proof.
  unfold mem. rewrite existsb_exists. split.
  - intros (x & Hx & E). apply str_eqb_eq in E. now subst.
  - intros H. exists s. split; auto. apply str_eqb_refl.
Qed.

Lemma video_not_unwanted (s : str) :
  mem s video_extensions = true -> mem s unwanted_extensions = false.
Proof.
  intros H. apply mem_in in H. simpl in H.
  repeat (destruct H as [<-|H]; [reflexivity|]). destruct H.
Qed.

Lemma subtitle_not_video (s : str) :
  mem s subtitle_extensions = true -> mem s video_extensions = false.
Proof.
  intros H. apply mem_in in H. simpl in H.
  repeat (destruct H as [<-|H]; [reflexivity|]). destruct H.
Qed.

Lemma files_with_file (exts : list str) (m : str) (x : nat) (d : dir) :
  files_with exts ((m, File x) :: d) =
    if mem (lower (suffix m)) exts then m :: files_with exts d else files_with exts d.
Proof.
  unfold files_with. cbn [filter fst snd]. now destruct (mem (lower (suffix m)) exts).
Qed.

Lemma files_with_dir (exts : list str) (m : str) (s d : dir) :
  files_with exts ((m, Dir s) :: d) = files_with exts d.
Proof. reflexivity. Qed.

Lemma files_with_prune (d : dir) :
  files_with video_extensions (prune d) = files_with video_extensions d.
Proof.
  induction d as [|m x d IH|m s d _ IH] using dir_induction; [reflexivity| |].
  - rewrite prune_file, files_with_file. destruct (is_unwanted [m]) eqn:U.
    + destruct (mem (lower (suffix m)) video_extensions) eqn:V; auto.
      apply video_not_unwanted in V. unfold is_unwanted in U. cbn [last] in U. congruence.
    + rewrite files_with_file.
      destruct (mem (lower (suffix m)) video_extensions); now rewrite IH.
  - now rewrite prune_dir, !files_with_dir.
Qed.

Lemma files_with_suffix (exts : list str) (d : dir) (m : str) :
  In m (files_with exts d) -> mem (lower (suffix m)) exts = true.
Proof.
  unfold files_with. intros H. apply in_map_iff in H.
  destruct H as ([n e] & <- & H). apply filter_In in H. destruct H as [_ H].
  simpl in *. destruct e; [exact H | discriminate].
Qed.

Lemma lookup_rename_key_new (old new : str) (e : entry) (d : dir) :
  lookup old d = Some e -> lookup new d = None ->
  lookup new (rename_key old new d) = Some e.
Proof.
  induction d as [|[m e'] d IH]; simpl; [discriminate|].
  name_cases m old; simpl.
  - intros [= ->] _. now rewrite str_eqb_refl.
  - name_cases m new; [discriminate|]. auto.
Qed.

Lemma lookup_remove_same (n : str) (d : dir) : lookup n (remove n d) = None.
Proof.
  induction d as [|[m e] d IH]; simpl; auto.
  name_cases m n; auto. simpl. name_cases m n; [contradiction | auto].
Qed.

Lemma lookup_app_some (n : str) (e : entry) (d d' : dir) :
  lookup n d = Some e -> lookup n (d ++ d') = Some e.
Proof.
  induction d as [|[m e'] d IH]; simpl; [discriminate|].
  name_cases m n; auto.
Qed.

(** What organize_subtitles leaves alone: a file whose suffix is not one of
    a subtitle and whose name is not the movie name with such a suffix. *)
Section SubtitleFrame.
Variables (movie_name n : str) (c : nat).
Hypothesis n_suffix : mem (lower (suffix n)) subtitle_extensions = false.
Hypothesis n_name : forall m,
  mem (lower (suffix m)) subtitle_extensions = true -> n <> movie_name ++ suffix m.

Lemma n_not_subtitle (m : str) :
  mem (lower (suffix m)) subtitle_extensions = true -> n <> m.
Proof. intros H ->. congruence. Qed.

Lemma move_to_subs_safe (src new_name : str) (d d' : dir) :
  mem (lower (suffix src)) subtitle_extensions = true ->
  move_to_subs src new_name d = Some d' -> safe n c d -> safe n c d'.
Proof.
  unfold move_to_subs, safe. intros Hs H K.
  pose proof (n_not_subtitle src Hs) as Hn.
  destruct (lookup src d) as [e|]; [|discriminate].
  destruct (lookup subs d) as [[|sd]|] eqn:S; try discriminate.
  assert (n <> subs) by (intros ->; congruence).
  destruct (lookup new_name sd) as [[|inner]|].
  - injection H as <-. now rewrite lookup_set_entry, lookup_remove.
  - destruct (lookup src inner); [discriminate|].
    injection H as <-. now rewrite lookup_set_entry, lookup_remove.
  - injection H as <-. now rewrite lookup_set_entry, lookup_remove.
Qed.

Lemma move_additional_safe (i : nat) (files : list str) (st : dir * list event) :
  (forall m, In m files -> mem (lower (suffix m)) subtitle_extensions = true) ->
  safe n c (fst st) -> safe n c (fst (move_additional false movie_name i files st)).
Proof.
  revert i st. induction files as [|m files IH]; intros i [d out] Hf K; [exact K|].
  cbn [move_additional]. apply IH; [intros; apply Hf; now right|].
  destruct (move_to_subs m (moved_name movie_name i m) d) as [d'|] eqn:E; [|exact K].
  cbn [fst] in *.
  apply (move_to_subs_safe m (moved_name movie_name i m) d d'); auto.
  apply Hf. now left.
Qed.

Lemma organize_subtitles_safe (replaces : bool) (d : dir) :
  safe n c d -> safe n c (fst (fst (organize_subtitles false replaces d movie_name))).
Proof.
  intros K. unfold organize_subtitles.
  pose proof (files_with_suffix subtitle_extensions d) as Hf.
  destruct (files_with subtitle_extensions d) as [|main others]; [exact K|].
  assert (Hm : mem (lower (suffix main)) subtitle_extensions = true)
    by (apply Hf; now left).
  assert (Ho : forall m, In m others -> mem (lower (suffix m)) subtitle_extensions = true)
    by (intros; apply Hf; now right).
  assert (M : match
                match others with
                | [] => Some (d, [])
                | _ :: _ =>
                    match mkdir_exist_ok subs d with
                    | Some d0 => Some (move_additional false movie_name 1 others (d0, []))
                    | None => None
                    end
                end
              with Some st => safe n c (fst st) | None => True end).
  { destruct others as [|o others]; [exact K|].
    unfold mkdir_exist_ok. destruct (lookup subs d) as [[|sd]|]; auto.
    - apply move_additional_safe; auto.
    - apply move_additional_safe; auto. now apply lookup_app_some. }
  cbn [orb]. destruct (match others with [] => _ | _ :: _ => _ end) as [st|]; [|exact K].
  destruct (str_eqb main (movie_name ++ suffix main)); [exact M|].
  destruct st as [d1 out]. unfold rename_reported. cbn [fst] in *.
  destruct (os_rename replaces main (movie_name ++ suffix main) d1) as [d2|] eqn:E;
    [|exact M].
  cbn [fst]. unfold safe. rewrite (os_rename_frame replaces n _ _ d1 d2 E); auto.
  now apply n_not_subtitle.
Qed.
End SubtitleFrame.

Lemma remove_step_quiet (st : dir * list path * list event) (p : path) :
  existsb video_error (snd st) = false ->
  existsb video_error (snd (remove_step false st p)) = false.
Proof.
  destruct st as [[d r] o]. unfold remove_step. cbn [snd]. intros H.
  destruct (lookup_path p d) as [[x|]|]; auto.
  destruct (is_unwanted p); auto.
  destruct (unlink p d); cbn [snd]; rewrite ?existsb_app, H; reflexivity.
Qed.

Lemma remove_unwanted_files_quiet (d : dir) :
  existsb video_error (snd (remove_unwanted_files false d)) = false.
Proof.
  unfold remove_unwanted_files.
  assert (H : existsb video_error (snd (d, @nil path, @nil event)) = false) by reflexivity.
  revert H. generalize (d, @nil path, @nil event). generalize (rglob d).
  intros ps. induction ps as [|p ps IH]; intros st H; simpl; auto.
  apply IH. now apply remove_step_quiet.
Qed.

Lemma move_additional_quiet (movie_name : str) (i : nat) (files : list str)
    (st : dir * list event) :
  existsb video_error (snd st) = false ->
  existsb video_error (snd (move_additional false movie_name i files st)) = false.
Proof.
  revert i st. induction files as [|m files IH]; intros i [d out] H; [exact H|].
  cbn [move_additional]. apply IH. cbn [snd] in *.
  destruct (move_to_subs m (moved_name movie_name i m) d); cbn [snd];
    rewrite ?existsb_app, H; reflexivity.
Qed.

Lemma organize_subtitles_quiet (replaces : bool) (d : dir) (movie_name : str) :
  existsb video_error (snd (fst (organize_subtitles false replaces d movie_name))) = false.
Proof.
  unfold organize_subtitles.
  destruct (files_with subtitle_extensions d) as [|main others]; [reflexivity|].
  assert (M : match
                match others with
                | [] => Some (d, [])
                | _ :: _ =>
                    match mkdir_exist_ok subs d with
                    | Some d0 => Some (move_additional false movie_name 1 others (d0, []))
                    | None => None
                    end
                end
              with Some st => existsb video_error (snd st) = false | None => True end).
  { destruct others as [|o others]; [reflexivity|].
    destruct (mkdir_exist_ok subs d); auto. now apply move_additional_quiet. }
  destruct (match others with [] => _ | _ :: _ => _ end) as [st|]; [|reflexivity].
  destruct (str_eqb main (movie_name ++ suffix main)); [exact M|].
  destruct st as [d1 out]. unfold rename_reported. cbn [fst snd] in *.
  destruct (os_rename replaces main (movie_name ++ suffix main) d1); cbn [snd];
    rewrite ?existsb_app, M; reflexivity.
Qed.

Lemma video_not_subtitle (s : str) :
  mem s video_extensions = true -> mem s subtitle_extensions = false.
Proof.
  intros H. destruct (mem s subtitle_extensions) eqn:E; auto.
  apply subtitle_not_video in E. congruence.
Qed.

Lemma video_suffix_nonempty (n : str) :
  mem (lower (suffix n)) video_extensions = true -> suffix n <> [].
Proof. intros H E. rewrite E in H. discriminate. Qed.

Lemma rename_reported_done (replaces : bool) (what old new : str) (d d' : dir)
    (out : list event) :
  os_rename replaces old new d = Some d' ->
  rename_reported false replaces what old new (d, out) =
    (d', out ++ [Action false Rename old new]).
Proof. intros H. unfold rename_reported. now rewrite H. Qed.

Lemma rename_reported_failed (replaces : bool) (what old new : str) (d : dir)
    (out : list event) :
  os_rename replaces old new d = None ->
  rename_reported false replaces what old new (d, out) =
    (d, (out ++ [Action false Rename old new]) ++ [ErrorRenaming what]).
Proof. intros H. unfold rename_reported. now rewrite H. Qed.

Lemma os_rename_free (replaces : bool) (old new : str) (e : entry) (d : dir) :
  lookup old d = Some e -> lookup new d = None ->
  os_rename replaces old new d = Some (rename_key old new d).
Proof. intros H1 H2. unfold os_rename. now rewrite H1, H2. Qed.

Lemma os_rename_refused (old new : str) (e e' : entry) (d : dir) :
  lookup old d = Some e -> lookup new d = Some e' -> old <> new ->
  os_rename false old new d = None.
Proof.
  intros H1 H2 H3. unfold os_rename. rewrite H1, H2.
  apply str_eqb_neq in H3. now rewrite H3.
Qed.

Lemma os_rename_replaced (old new : str) (a b : nat) (d : dir) :
  lookup old d = Some (File a) -> lookup new d = Some (File b) -> old <> new ->
  os_rename true old new d = Some (rename_key old new (remove new d)).
Proof.
  intros H1 H2 H3. unfold os_rename. rewrite H1, H2.
  apply str_eqb_neq in H3. now rewrite H3.
Qed.

(** C3, as the code has it.  A folder whose video files are [v1] and [v2],
    in this order and with one suffix, and in which the canonical name is
    free: the first video takes the canonical name.  Where a rename refuses
    an existing target the second rename reports an error and both contents
    stay; where a rename replaces its target the second video takes the
    name, in the place of the first, and no error of a video is reported. *)
Theorem two_videos_one_suffix (replaces : bool) (folder : dir)
    (folder_name v1 v2 : str) (c1 c2 : nat) :
  well_formed folder = true ->
  files_with video_extensions folder = [v1; v2] ->
  lookup v1 folder = Some (File c1) -> lookup v2 folder = Some (File c2) ->
  v1 <> v2 -> suffix v1 = suffix v2 -> folder_name <> [] ->
  lookup (folder_name ++ suffix v1) folder = None ->
  let r := process_folder_contents false replaces folder folder_name in
  if replaces
  then lookup (folder_name ++ suffix v1) (fst (fst r)) = Some (File c2) /\
       existsb video_error (snd (fst r)) = false
  else lookup (folder_name ++ suffix v1) (fst (fst r)) = Some (File c1) /\
       lookup v2 (fst (fst r)) = Some (File c2) /\
       In (ErrorRenaming (L "video")) (snd (fst r)).
Proof.
  intros W Hv L1 L2 Hne Hs Hf Hnew. set (new := folder_name ++ suffix v1) in *.
  assert (V1 : mem (lower (suffix v1)) video_extensions = true)
    by (apply (files_with_suffix video_extensions folder); rewrite Hv; simpl; auto).
  assert (V2 : mem (lower (suffix v2)) video_extensions = true) by now rewrite <- Hs.
  assert (Snew : suffix new = suffix v1)
    by (apply suffix_app; auto using video_suffix_nonempty).
  assert (N1 : v1 <> new) by (intros E; rewrite <- E in Hnew; congruence).
  assert (N2 : v2 <> new) by (intros E; rewrite <- E in Hnew; congruence).
  (* what organize_subtitles leaves alone *)
  assert (Fnew : forall m, mem (lower (suffix m)) subtitle_extensions = true ->
                           new <> folder_name ++ suffix m).
  { intros m Hm E. apply app_inv_head in E. rewrite <- E in Hm.
    apply video_not_subtitle in V1. congruence. }
  assert (F2 : forall m, mem (lower (suffix m)) subtitle_extensions = true ->
                         v2 <> folder_name ++ suffix m).
  { intros m Hm E. assert (suffix v2 = suffix m).
    { rewrite E. apply suffix_app; auto. intros E'. rewrite E' in Hm. discriminate. }
    apply video_not_subtitle in V2. congruence. }
  assert (Qnew : mem (lower (suffix new)) subtitle_extensions = false)
    by (rewrite Snew; now apply video_not_subtitle).
  assert (Q2 : mem (lower (suffix v2)) subtitle_extensions = false)
    by now apply video_not_subtitle.
  (* after remove_unwanted_files *)
  intros r. subst r. unfold process_folder_contents.
  pose proof (remove_unwanted_files_prune folder W) as P.
  pose proof (remove_unwanted_files_quiet folder) as Q.
  destruct (remove_unwanted_files false folder) as [[d1 removed] out1].
  cbn [fst snd] in P, Q. subst d1.
  rewrite files_with_prune, Hv. cbn [rename_videos].
  rewrite <- Hs. fold new.
  apply str_eqb_neq in N1, N2. rewrite N1, N2. apply str_eqb_neq in N1, N2.
  assert (U1 : is_unwanted [v1] = false) by now apply video_not_unwanted.
  assert (U2 : is_unwanted [v2] = false) by now apply video_not_unwanted.
  assert (P1 : lookup v1 (prune folder) = Some (File c1))
    by (rewrite lookup_prune, L1, U1; auto).
  assert (P2 : lookup v2 (prune folder) = Some (File c2))
    by (rewrite lookup_prune, L2, U2; auto).
  assert (Pn : lookup new (prune folder) = None)
    by (rewrite lookup_prune, Hnew; auto).
  set (d2 := rename_key v1 new (prune folder)).
  assert (D1 : lookup new d2 = Some (File c1)) by now apply lookup_rename_key_new.
  assert (D2 : lookup v2 d2 = Some (File c2))
    by (unfold d2; rewrite lookup_rename_key; auto).
  cbn [fst snd].
  rewrite (rename_reported_done replaces (L "video") v1 new (prune folder) d2 out1
             (os_rename_free replaces v1 new _ _ P1 Pn)).
  destruct replaces.
  - set (d3 := rename_key v2 new (remove new d2)).
    rewrite (rename_reported_done true (L "video") v2 new d2 d3 _
               (os_rename_replaced v2 new c2 c1 d2 D2 D1 N2)).
    assert (K : lookup new d3 = Some (File c2)).
    { apply lookup_rename_key_new; [|apply lookup_remove_same].
      rewrite lookup_remove; auto. }
    pose proof (organize_subtitles_safe folder_name new c2 Qnew Fnew true d3 K) as S.
    pose proof (organize_subtitles_quiet true d3 folder_name) as T.
    destruct (organize_subtitles false true d3 folder_name) as [[d4 out4] oc].
    cbn [fst snd] in *. split; [exact S|].
    rewrite !existsb_app, Q, T. reflexivity.
  - rewrite (rename_reported_failed false (L "video") v2 new d2 _
               (os_rename_refused v2 new _ _ d2 D2 D1 N2)).
    pose proof (organize_subtitles_safe folder_name new c1 Qnew Fnew false d2 D1) as S1.
    pose proof (organize_subtitles_safe folder_name v2 c2 Q2 F2 false d2 D2) as S2.
    destruct (organize_subtitles false false d2 folder_name) as [[d4 out4] oc].
    cbn [fst snd] in *. repeat split; auto.
    apply in_or_app. left. apply in_or_app. right. now left.
Qed.

Lemma two_videos_one_suffix_witness :
  lookup (L "X (2020).mkv")
    (fst (fst (process_folder_contents false false two_videos (L "X (2020)")))) =
    Some (File 1) /\
  lookup (L "b.mkv")
    (fst (fst (process_folder_contents false false two_videos (L "X (2020)")))) =
    Some (File 2) /\
  In (ErrorRenaming (L "video"))
    (snd (fst (process_folder_contents false false two_videos (L "X (2020)")))).
Proof.
  refine (two_videos_one_suffix false two_videos (L "X (2020)") (L "a.mkv") (L "b.mkv") 1 2
            eq_refl eq_refl eq_refl eq_refl _ eq_refl _ eq_refl); discriminate.
Defined.

(** ** Names without a parenthesis *)

Lemma split_slash_keeps (q : ascii -> bool) (cur s : str) :
  forallb q cur = true -> forallb q s = true ->
  Forall (fun p => forallb q p = true) (split_slash cur s).
Proof.
  revert cur. induction s as [|c s IH]; intros cur Hc Hs; simpl.
  - constructor; auto. now apply forallb_rev.
  - simpl in Hs. apply andb_true_iff in Hs. destruct Hs as [Hq Hs].
    destruct (is_char slash c).
    + constructor; [now apply forallb_rev | now apply IH].
    + apply IH; auto. simpl. now rewrite Hq.
Qed.

Lemma path_name_keeps (q : ascii -> bool) (x : str) :
  forallb q x = true -> forallb q (path_name x) = true.
Proof.
  intros Hx. unfold path_name.
  assert (H : Forall (fun p => forallb q p = true)
                (filter (fun p => negb (str_eqb p [] || str_eqb p [period]))
                   (split_slash [] x))).
  { apply Forall_forall. intros p Hp. apply filter_In in Hp. destruct Hp as [Hp _].
    pose proof (split_slash_keeps q [] x eq_refl Hx) as F.
    rewrite Forall_forall in F. now apply F. }
  induction H as [|p l Hp Hl IH]; [reflexivity|].
  destruct l; [exact Hp | exact IH].
Qed.

Lemma parsed_name_no_paren (x : str) :
  existsb (is_char "("%char) x = false ->
  existsb (is_char "("%char) (parsed_name x) = false.
Proof.
  intros H. apply existsb_false_forallb in H. apply (path_name_keeps _ x) in H.
  destruct (stem_prefix (path_name x)) as [b Hb]. rewrite Hb in H.
  apply forallb_prefix in H. apply existsb_false_forallb.
  unfold parsed_name, repair. apply re_sub_keeps; [reflexivity|].
  rewrite re_sub_no_match; auto.
  apply (double_pat_no_match "("%char). rewrite count_none; [lia|].
  now apply existsb_false_forallb.
Qed.

Lemma year_text_has_paren (t s1 s2 y s3 r : str) :
  existsb (is_char "("%char) (year_text t s1 s2 y s3 r) = true.
Proof.
  unfold year_text. rewrite !existsb_app. simpl.
  now rewrite !orb_true_r.
Qed.

Lemma no_paren_no_search (name : str) :
  existsb (is_char "("%char) name = false ->
  search_groups year_in_parens name = None /\ search_groups truncated_year name = None.
Proof.
  intros H. split.
  - destruct (search_groups year_in_parens name) as [[g1 g2]|] eqn:E; auto.
    destruct (year_in_parens_inv _ _ _ E) as (_ & _ & s1 & s2 & s3 & r & Hn).
    rewrite Hn, year_text_has_paren in H. discriminate.
  - destruct (search_groups truncated_year name) as [[g1 g2]|] eqn:E; auto.
    destruct (truncated_year_inv _ _ _ E) as (_ & _ & s1 & s2 & s3 & r & Hn).
    rewrite Hn, year_text_has_paren in H. discriminate.
Qed.

(** C8.  Nothing is returned exactly when neither pattern matches, or the
    one that is used matches and the title that is left is empty.  Neither
    pattern matches a name without an opening parenthesis, such as
    [randomfile.mkv]; the title of [[YTS] (2019).mkv] is empty once the
    noise is gone. *)
Theorem no_match_exactly (dry_run : bool) (x : str) :
  (fst (extract_title_year dry_run x) = None <->
     (search_groups year_in_parens (parsed_name x) = None /\
      search_groups truncated_year (parsed_name x) = None) \/
     (exists g1 y,
        (search_groups year_in_parens (parsed_name x) = Some (g1, y) \/
         search_groups year_in_parens (parsed_name x) = None /\
         search_groups truncated_year (parsed_name x) = Some (g1, y)) /\
        clean_title (strip is_space g1) = [])) /\
  (existsb (is_char "("%char) x = false -> extract_title_year dry_run x = (None, [])) /\
  extract_title_year dry_run (L "randomfile.mkv") = (None, []) /\
  extract_title_year dry_run (L "[YTS] (2019).mkv") = (None, []).
Proof.
  split; [|split; [|split; reflexivity]].
  - unfold extract_title_year. fold (parsed_name x).
    destruct (search_groups year_in_parens (parsed_name x)) as [[g1 y]|].
    + cbn [fst]. destruct (clean_title (strip is_space g1)) eqn:E; cbn [nonempty].
      * split; auto. intros _. right. exists g1, y. auto.
      * split; [discriminate|].
        intros [[H _]|(g & y' & [H|[H _]] & Hc)]; try discriminate.
        injection H as <- <-. congruence.
    + destruct (search_groups truncated_year (parsed_name x)) as [[g1 y]|].
      * cbn [fst]. destruct (clean_title (strip is_space g1)) eqn:E; cbn [nonempty].
        -- split; auto. intros _. right. exists g1, y. auto.
        -- split; [discriminate|].
           intros [[_ H]|(g & y' & [H|[_ H]] & Hc)]; try discriminate.
           injection H as <- <-. congruence.
      * cbn [fst]. split; auto.
  - intros H. apply parsed_name_no_paren in H.
    destruct (no_paren_no_search _ H) as [H4 H2].
    unfold extract_title_year. fold (parsed_name x). now rewrite H4, H2.
Qed.

Lemma no_match_exactly_witness : extract_title_year false (L "movie-final.avi") = (None, []).
Proof.
  exact (proj1 (proj2 (no_match_exactly false (L "movie-final.avi"))) eq_refl).
Defined.

(** ** A dry run *)

Lemma set_entry_same (n : str) (e : entry) (d : dir) :
  lookup n d = Some e -> set_entry n e d = d.
Proof.
  induction d as [|[m e'] d IH]; simpl; auto.
  name_cases m n.
  - now intros [= ->].
  - intros H. now rewrite IH.
Qed.

Lemma remove_step_dry (st : dir * list path * list event) (p : path) :
  fst (fst (remove_step true st p)) = fst (fst st).
Proof.
  destruct st as [[d r] o]. unfold remove_step. cbn [fst].
  destruct (lookup_path p d) as [[x|]|]; auto. now destruct (is_unwanted p).
Qed.

Lemma remove_fold_dry (ps : list path) (st : dir * list path * list event) :
  fst (fst (fold_left (remove_step true) ps st)) = fst (fst st).
Proof.
  revert st. induction ps as [|p ps IH]; intros st; simpl; auto.
  now rewrite IH, remove_step_dry.
Qed.

Lemma remove_unwanted_files_dry (d : dir) :
  fst (fst (remove_unwanted_files true d)) = d.
Proof. unfold remove_unwanted_files. now rewrite remove_fold_dry. Qed.

Lemma move_additional_dry (movie_name : str) (i : nat) (files : list str)
    (st : dir * list event) :
  fst (move_additional true movie_name i files st) = fst st.
Proof.
  revert i st. induction files as [|m files IH]; intros i [d out]; [reflexivity|].
  cbn [move_additional]. now rewrite IH.
Qed.

Lemma rename_videos_dry (replaces : bool) (folder_name : str) (videos : list str)
    (st : dir * list event) :
  fst (rename_videos true replaces folder_name videos st) = fst st.
Proof.
  revert st. induction videos as [|v videos IH]; intros st; [reflexivity|].
  cbn [rename_videos]. rewrite IH.
  destruct (str_eqb v (folder_name ++ suffix v)); [reflexivity|].
  now destruct st.
Qed.

Lemma organize_subtitles_dry (replaces : bool) (d : dir) (movie_name : str) :
  fst (fst (organize_subtitles true replaces d movie_name)) = d /\
  snd (organize_subtitles true replaces d movie_name) = Returned.
Proof.
  unfold organize_subtitles.
  destruct (files_with subtitle_extensions d) as [|main others]; [now split|].
  assert (M : exists st, match others with
                         | [] => Some (d, [])
                         | _ :: _ => Some (move_additional true movie_name 1 others
                                             (d, [CreateSubsDryRun]))
                         end = Some st /\ fst st = d).
  { destruct others; eexists; split; try reflexivity. apply move_additional_dry. }
  destruct M as (st & -> & Hst).
  destruct (str_eqb main (movie_name ++ suffix main)); [now split|].
  destruct st as [d' out]. now split.
Qed.

Lemma process_folder_contents_dry (replaces : bool) (folder : dir) (folder_name : str) :
  fst (fst (process_folder_contents true replaces folder folder_name)) = folder /\
  snd (process_folder_contents true replaces folder folder_name) = Returned.
Proof.
  unfold process_folder_contents.
  pose proof (remove_unwanted_files_dry folder) as R.
  destruct (remove_unwanted_files true folder) as [[d removed] out]. cbn [fst] in R. subst d.
  pose proof (rename_videos_dry replaces folder_name
                (files_with video_extensions folder) (folder, out)) as V.
  destruct (rename_videos true replaces folder_name _ (folder, out)) as [d out'].
  cbn [fst] in V. subst d.
  destruct (files_with video_extensions folder); [now split|].
  destruct (organize_subtitles_dry replaces folder folder_name) as [O1 O2].
  destruct (organize_subtitles true replaces folder folder_name) as [[d o] oc].
  cbn [fst snd] in *. now subst.
Qed.

Lemma process_file_dry (replaces : bool) (n : str) (st : dir * list event) :
  fst (process_file true replaces n st) = fst st.
Proof.
  unfold process_file. destruct (negb (mem (lower (suffix n)) video_extensions)); auto.
  destruct (extract_title_year true n) as [[[t y]|] w]; auto.
  now destruct (str_eqb n (format_name t y ++ suffix n)).
Qed.

Lemma descend_dry (replaces : bool) (folder_path folder_name : str)
    (st : dir * list event) :
  is_dir folder_path (fst st) = true ->
  fst (fst (descend true replaces folder_path folder_name st)) = fst st /\
  snd (descend true replaces folder_path folder_name st) = Returned.
Proof.
  unfold is_dir, descend. intros D.
  destruct (lookup folder_path (fst st)) as [[|folder]|] eqn:E; try discriminate.
  destruct (process_folder_contents_dry replaces folder folder_name) as [P1 P2].
  destruct (process_folder_contents true replaces folder folder_name) as [[f o] oc].
  cbn [fst snd] in *. subst. split; auto. now apply set_entry_same.
Qed.

Lemma process_folder_dry (replaces : bool) (n : str) (st : dir * list event) :
  is_dir n (fst st) = true ->
  fst (fst (process_folder true replaces n st)) = fst st /\
  snd (process_folder true replaces n st) = Returned.
Proof.
  intros D. unfold process_folder.
  destruct (extract_title_year true n) as [[[t y]|] w].
  - cbn [fst snd]. destruct (str_eqb n (format_name t y));
      exact (descend_dry replaces n (format_name t y) (fst st, _) D).
  - cbn [fst snd]. exact (descend_dry replaces n n (fst st, _) D).
Qed.

Lemma process_items_dry (replaces : bool) (items : list str) (st : dir * list event) :
  fst (fst (process_items true replaces items st)) = fst st /\
  snd (process_items true replaces items st) = Returned.
Proof.
  revert st. induction items as [|n items IH]; intros st; [now split|].
  cbn [process_items]. unfold process_item.
  destruct (is_file n (fst st)).
  - destruct (IH (process_file true replaces n st)) as [I1 I2].
    rewrite process_file_dry in I1. auto.
  - destruct (is_dir n (fst st)) eqn:D; [|apply IH].
    destruct (process_folder_dry replaces n st D) as [P1 P2].
    destruct (process_folder true replaces n st) as [st' oc]. cbn [fst snd] in *. subst oc.
    destruct (IH st') as [I1 I2]. rewrite P1 in I1. auto.
Qed.

(** A dry run leaves the directory as it is and ends without an exception. *)
Theorem dry_run_changes_nothing (replaces : bool) (root : dir) :
  fst (process_directory true replaces (Some (Dir root))) = (Some (Dir root),
    snd (fst (process_directory true replaces (Some (Dir root))))) /\
  snd (process_directory true replaces (Some (Dir root))) = Returned.
Proof.
  unfold process_directory.
  pose proof (process_items_dry replaces (sorted_items root) (root, [Header true])) as P.
  revert P. destruct (process_items _ _ _ _) as [[d out] oc].
  cbn [fst snd]. intros [-> ->]. now split.
Qed.

(** ** What extract_title_year returns *)

Lemma extract_some_facts (dry_run : bool) (x t y : str) :
  fst (extract_title_year dry_run x) = Some (t, y) ->
  is_year y = true /\ t <> [] /\
  existsb (one_of (L "._")) t = false /\ forallb no_slash t = true /\
  single_spaced t = true /\ ends_outside (one_of strip_chars) t.
Proof.
  intros Hx. unfold extract_title_year in Hx. fold (parsed_name x) in Hx.
  pose proof (parsed_name_no_slash x) as Hs.
  assert (H : exists g, t = clean_title (strip is_space g) /\ t <> [] /\
                        forallb no_slash g = true /\ is_year y = true).
  { destruct (search_groups year_in_parens (parsed_name x)) as [[g1 y1]|] eqn:E4.
    - cbn [fst] in Hx.
      destruct (year_in_parens_inv _ _ _ E4) as (Hy & _ & s1 & s2 & s3 & r & Hn).
      exists g1. destruct (clean_title (strip is_space g1)) eqn:Ec; [discriminate|].
      injection Hx as <- <-. repeat split; auto; [discriminate|].
      rewrite Hn in Hs. unfold year_text in Hs. now apply forallb_prefix in Hs.
    - destruct (search_groups truncated_year (parsed_name x)) as [[g1 p]|] eqn:E2;
        [|discriminate].
      cbn [fst] in Hx.
      destruct (truncated_year_inv _ _ _ E2) as (_ & _ & s1 & s2 & s3 & r & Hn).
      exists g1. destruct (clean_title (strip is_space g1)) eqn:Ec; [discriminate|].
      injection Hx as <- <-. repeat split; auto; [discriminate | |].
      + rewrite Hn in Hs. unfold year_text in Hs. now apply forallb_prefix in Hs.
      + apply default_year_is_year. }
  destruct H as (g & -> & Hne & Hg & Hy).
  split; [exact Hy|]. split; [exact Hne|].
  split; [apply clean_title_no_period|].
  split; [apply clean_title_keeps; [reflexivity | apply strip_keeps; exact Hg]|].
  split; [apply clean_title_single_spaced | apply clean_title_ends].
Qed.

(** A title and a year that are returned: the year is a year from 1900 to
    2099; the title is not empty, has no period, no underscore and no slash,
    has white space only as single blanks, and neither starts nor ends with
    one of the characters that are stripped. *)
Theorem extracted_shape (dry_run : bool) (x t y : str) :
  fst (extract_title_year dry_run x) = Some (t, y) ->
  is_year y = true /\ t <> [] /\
  existsb (one_of (L "._")) t = false /\ forallb no_slash t = true /\
  single_spaced t = true /\ ends_outside (one_of strip_chars) t.
Proof. apply extract_some_facts. Qed.

Lemma extracted_shape_witness :
  is_year (L "1999") = true /\ L "The Matrix" <> [] /\
  existsb (one_of (L "._")) (L "The Matrix") = false /\
  forallb no_slash (L "The Matrix") = true /\
  single_spaced (L "The Matrix") = true /\
  ends_outside (one_of strip_chars) (L "The Matrix").
Proof.
  exact (extracted_shape false (L "The.Matrix_[1080p] (1999) [YTS.MX].mkv")
           (L "The Matrix") (L "1999") eq_refl).
Defined.

(** The only lines extract_title_year prints are the two warnings of a
    truncated year: (19) with 1999 and (20) with 2020. *)
Theorem extract_warnings (dry_run : bool) (x : str) :
  snd (extract_title_year dry_run x) = [] \/
  snd (extract_title_year dry_run x) = [TruncatedYear dry_run (L "19") (L "1999")] \/
  snd (extract_title_year dry_run x) = [TruncatedYear dry_run (L "20") (L "2020")].
Proof.
  unfold extract_title_year. fold (parsed_name x).
  destruct (search_groups year_in_parens (parsed_name x)) as [[g1 y1]|]; [now left|].
  destruct (search_groups truncated_year (parsed_name x)) as [[g1 p]|] eqn:E; [|now left].
  destruct (truncated_year_inv _ _ _ E) as (Hp & _).
  destruct (is_year_prefix_cases p Hp) as [-> | ->]; auto.
Qed.

(** ** The list remove_unwanted_files returns *)

Lemma lookup_set_entry_same (n : str) (e e' : entry) (d : dir) :
  lookup n d = Some e -> lookup n (set_entry n e' d) = Some e'.
Proof.
  induction d as [|[m e0] d IH]; simpl; [discriminate|].
  name_cases m n; simpl.
  - intros _. now rewrite E, str_eqb_refl.
  - intros H. name_cases m n; [contradiction | auto].
Qed.

Lemma lookup_path_cons (n m : str) (q : path) (d : dir) :
  lookup_path (n :: m :: q) d =
    match lookup n d with
    | Some (Dir s) => lookup_path (m :: q) s
    | _ => None
    end.
Proof. reflexivity. Qed.

Lemma unlink_cons (n m : str) (q : path) (d : dir) :
  unlink (n :: m :: q) d =
    match lookup n d with
    | Some (Dir sub) =>
        match unlink (m :: q) sub with
        | Some sub' => Some (set_entry n (Dir sub') d)
        | None => None
        end
    | _ => None
    end.
Proof. reflexivity. Qed.

(** Unlinking one file leaves every other path a file or not as it was. *)
Lemma unlink_other (q p : path) (d d' : dir) :
  unlink q d = Some d' -> p <> q -> is_file_at p d' = is_file_at p d.
Proof.
  revert p d d'. induction q as [|m q IH]; intros p d d' H Hp; [discriminate|].
  destruct q as [|m' q].
  - cbn [unlink] in H. destruct (lookup m d) as [[x|]|] eqn:Lm; try discriminate.
    injection H as <-. unfold is_file_at.
    destruct p as [|n [|n' p]]; auto.
    + cbn [lookup_path]. rewrite lookup_remove; auto. congruence.
    + rewrite !lookup_path_cons.
      destruct (list_eq_dec ascii_dec n m) as [->|Hn].
      * now rewrite lookup_remove_same, Lm.
      * now rewrite lookup_remove.
  - rewrite unlink_cons in H. destruct (lookup m d) as [[x|sub]|] eqn:Lm; try discriminate.
    destruct (unlink (m' :: q) sub) as [sub'|] eqn:U; [|discriminate].
    injection H as <-. unfold is_file_at.
    destruct p as [|n [|n' p]]; auto.
    + cbn [lookup_path]. destruct (list_eq_dec ascii_dec n m) as [->|Hn].
      * now rewrite (lookup_set_entry_same m (Dir sub) (Dir sub') d Lm), Lm.
      * now rewrite lookup_set_entry.
    + rewrite !lookup_path_cons.
      destruct (list_eq_dec ascii_dec n m) as [->|Hn].
      * rewrite (lookup_set_entry_same m (Dir sub) (Dir sub') d Lm), Lm.
        apply (IH (n' :: p) sub sub' U). congruence.
      * now rewrite lookup_set_entry.
Qed.

Lemma unlink_file (p : path) (d : dir) (x : nat) :
  lookup_path p d = Some (File x) -> exists d', unlink p d = Some d'.
Proof.
  revert d. induction p as [|n p IH]; intros d H; [discriminate|].
  destruct p as [|m p].
  - cbn [lookup_path] in H. cbn [unlink]. rewrite H. eauto.
  - rewrite lookup_path_cons in H. rewrite unlink_cons.
    destruct (lookup n d) as [[|sub]|]; try discriminate.
    destruct (IH sub H) as [sub' ->]. eauto.
Qed.

Lemma removed_apply (ps : list path) (st : dir * list path * list event) :
  NoDup ps ->
  snd (fst (fold_left (remove_step false) ps st)) =
    snd (fst st) ++ filter (fun p => is_file_at p (fst (fst st)) && is_unwanted p) ps.
Proof.
  intros N. revert st. induction N as [|p ps Hp N IH]; intros [[d removed] out].
  - simpl. now rewrite app_nil_r.
  - cbn [fold_left]. rewrite IH. cbn [fst snd filter].
    unfold remove_step at 1 2, is_file_at at 2.
    destruct (lookup_path p d) as [[x|items]|] eqn:Lp; cbn [fst snd andb]; auto.
    destruct (is_unwanted p) eqn:Up; cbn [fst snd]; auto.
    destruct (unlink_file p d x Lp) as [d' U]. rewrite U. cbn [fst snd].
    rewrite <- app_assoc. cbn [app]. do 2 f_equal.
    apply filter_ext_in. intros q Hq.
    rewrite (unlink_other p q d d' U); auto. congruence.
Qed.

Lemma removed_dry (ps : list path) (st : dir * list path * list event) :
  snd (fst (fold_left (remove_step true) ps st)) =
    snd (fst st) ++ filter (fun p => is_file_at p (fst (fst st)) && is_unwanted p) ps.
Proof.
  revert st. induction ps as [|p ps IH]; intros [[d removed] out].
  - simpl. now rewrite app_nil_r.
  - cbn [fold_left]. rewrite IH, remove_step_dry. cbn [fst snd filter].
    unfold remove_step, is_file_at at 2.
    destruct (lookup_path p d) as [[x|items]|]; cbn [fst snd andb]; auto.
    destruct (is_unwanted p); cbn [fst snd]; auto.
    now rewrite <- app_assoc.
Qed.

Lemma map_cons_distinct (m : str) (l : list path) : NoDup l -> NoDup (map (cons m) l).
Proof.
  induction 1 as [|p l Hp N IH]; simpl; constructor; auto.
  intros Hin. apply in_map_iff in Hin. destruct Hin as (q & [= ->] & Hq). contradiction.
Qed.

Lemma iterdir_distinct (d : dir) : well_formed d = true -> NoDup (iterdir d).
Proof.
  induction d as [|[m e] d IH]; intros W; [constructor|].
  apply well_formed_cons in W. destruct W as (Hm & We & Wd). apply mem_false in Hm.
  cbn [iterdir map fst]. fold (iterdir d). constructor; auto.
  intros H. destruct (iterdir_heads d _ H) as (n & [= <-] & Hn). contradiction.
Qed.

(** A path below a sub-directory has two names at least. *)
Lemma rglob_subdirs_long (d : dir) (p : path) :
  In p (rglob_subdirs d) -> exists n m q, p = n :: m :: q.
Proof.
  induction d as [|k x d IH|k s d _ IH] using dir_induction; [contradiction| |].
  - rewrite rglob_subdirs_file. exact IH.
  - rewrite rglob_subdirs_dir, in_app_iff. intros [H|H]; [|auto].
    apply in_map_iff in H. destruct H as (q & <- & Hq).
    destruct q as [|m q]; [now apply rglob_nonempty in Hq|]. now exists k, m, q.
Qed.

Lemma rglob_distinct_parts (d : dir) :
  well_formed d = true -> NoDup (rglob_subdirs d) -> NoDup (rglob d).
Proof.
  intros W N. rewrite rglob_eq. apply NoDup_app; [now apply iterdir_distinct | exact N |].
  intros p Hp Hq. destruct (iterdir_heads d p Hp) as (n & -> & _).
  destruct (rglob_subdirs_long d _ Hq) as (n' & m & q & [=]).
Qed.

Lemma rglob_subdirs_distinct (d : dir) : well_formed d = true -> NoDup (rglob_subdirs d).
Proof.
  induction d as [|m x d IH|m s d IHs IH] using dir_induction; intros W; [constructor| |];
    apply well_formed_cons in W; destruct W as (Hm & We & Wd); apply mem_false in Hm.
  - rewrite rglob_subdirs_file. auto.
  - rewrite rglob_subdirs_dir. apply NoDup_app.
    + apply map_cons_distinct, rglob_distinct_parts; auto.
    + auto.
    + intros p Hp Hq. destruct (rglob_subdirs_heads d p Hq) as (n & q & -> & Hn).
      apply in_map_iff in Hp. destruct Hp as (q' & [= <- <-] & _). contradiction.
Qed.

Lemma rglob_distinct (d : dir) : well_formed d = true -> NoDup (rglob d).
Proof. intros W. now apply rglob_distinct_parts, rglob_subdirs_distinct. Qed.

(** The list remove_unwanted_files returns is the list of the unwanted
    files of the tree, and a dry run returns the same list. *)
Theorem removed_files_listed (d : dir) :
  well_formed d = true ->
  snd (fst (remove_unwanted_files false d)) = unwanted_files d /\
  snd (fst (remove_unwanted_files true d)) = unwanted_files d.
Proof.
  intros W. unfold remove_unwanted_files, unwanted_files. split.
  - rewrite removed_apply by now apply rglob_distinct. reflexivity.
  - rewrite removed_dry. reflexivity.
Qed.

Lemma removed_files_listed_witness :
  snd (fst (remove_unwanted_files false folder_first)) =
    [[L "poster.JPG"]; [L "extras"; L "readme.txt"]; [L "extras"; L "cover.png"];
     [L "extras"; L "deep"; L "a.rar"]] /\
  snd (fst (remove_unwanted_files true folder_first)) =
    [[L "poster.JPG"]; [L "extras"; L "readme.txt"]; [L "extras"; L "cover.png"];
     [L "extras"; L "deep"; L "a.rar"]].
Proof. exact (removed_files_listed folder_first eq_refl). Defined.

(** ** Subtitles: one file, and a name that is taken *)

(** A single subtitle is renamed in place to the movie name with its own
    suffix, and nothing else is done: no [Subs] folder is made. *)
Theorem single_subtitle (replaces : bool) (d : dir) (movie_name s : str) (e : entry) :
  files_with subtitle_extensions d = [s] ->
  lookup s d = Some e -> lookup (movie_name ++ suffix s) d = None ->
  organize_subtitles false replaces d movie_name =
    (rename_key s (movie_name ++ suffix s) d,
     [Action false Rename s (movie_name ++ suffix s)], Returned) /\
  lookup (movie_name ++ suffix s) (rename_key s (movie_name ++ suffix s) d) = Some e.
Proof.
  intros Hf Ls Ln. split.
  - unfold organize_subtitles. rewrite Hf.
    assert (N : s <> movie_name ++ suffix s) by (intros E; rewrite <- E in Ln; congruence).
    apply str_eqb_neq in N. rewrite N.
    now rewrite (rename_reported_done replaces (L "subtitle") s _ d _ []
                   (os_rename_free replaces s _ e d Ls Ln)).
  - now apply lookup_rename_key_new.
Qed.

Lemma single_subtitle_witness :
  organize_subtitles false true [(L "movie.mkv", File 1); (L "english.SRT", File 2)]
    (L "Alpha (2020)") =
    ([(L "movie.mkv", File 1); (L "Alpha (2020).SRT", File 2)],
     [Action false Rename (L "english.SRT") (L "Alpha (2020).SRT")], Returned).
Proof.
  exact (proj1 (single_subtitle true [(L "movie.mkv", File 1); (L "english.SRT", File 2)]
                  (L "Alpha (2020)") (L "english.SRT") (File 2) eq_refl eq_refl eq_refl)).
Defined.

(** With two subtitles or more and a file named [Subs] in the folder, the
    [mkdir] of organize_subtitles raises outside any [try]: nothing is moved
    or renamed, and the exception ends the processing of the folder. *)
Theorem subs_name_taken (replaces : bool) (d : dir) (movie_name : str)
    (main second : str) (others : list str) (x : nat) :
  files_with subtitle_extensions d = main :: second :: others ->
  lookup subs d = Some (File x) ->
  organize_subtitles false replaces d movie_name = (d, [], Raised).
Proof.
  intros Hf Hs. unfold organize_subtitles, mkdir_exist_ok. now rewrite Hf, Hs.
Qed.

Lemma subs_name_taken_witness :
  organize_subtitles false true
    [(L "a.srt", File 1); (L "b.srt", File 2); (L "Subs", File 3)] (L "Alpha (2020)") =
    ([(L "a.srt", File 1); (L "b.srt", File 2); (L "Subs", File 3)], [], Raised).
Proof.
  exact (subs_name_taken true [(L "a.srt", File 1); (L "b.srt", File 2); (L "Subs", File 3)]
           (L "Alpha (2020)") (L "a.srt") (L "b.srt") [] 3 eq_refl eq_refl).
Defined.

(** ** Folders and files that are left as they are *)

(** In a folder without a video file only the unwanted files are removed:
    the subtitles are not organized. *)
Theorem folder_without_video (replaces : bool) (folder : dir) (folder_name : str) :
  well_formed folder = true ->
  files_with video_extensions folder = [] ->
  fst (fst (process_folder_contents false replaces folder folder_name)) = prune folder /\
  snd (process_folder_contents false replaces folder folder_name) = Returned.
Proof.
  intros W Hv. unfold process_folder_contents.
  pose proof (remove_unwanted_files_prune folder W) as P.
  destruct (remove_unwanted_files false folder) as [[d1 removed] out1].
  cbn [fst] in P. subst d1. rewrite files_with_prune, Hv. now split.
Qed.

Lemma folder_without_video_witness :
  fst (fst (process_folder_contents false true
              [(L "a.srt", File 1); (L "b.srt", File 2); (L "cover.png", File 3)]
              (L "Alpha (2020)"))) =
    [(L "a.srt", File 1); (L "b.srt", File 2)].
Proof.
  exact (proj1 (folder_without_video true
                  [(L "a.srt", File 1); (L "b.srt", File 2); (L "cover.png", File 3)]
                  (L "Alpha (2020)") eq_refl eq_refl)).
Defined.

(** A loose video whose name has no opening parenthesis is reported and
    not renamed. *)
Theorem video_without_year (dry_run replaces : bool) (n : str) (st : dir * list event) :
  existsb (is_char "("%char) n = false ->
  mem (lower (suffix n)) video_extensions = true ->
  process_file dry_run replaces n st = (fst st, snd st ++ [CouldNotExtract n]).
Proof.
  intros Hp Hv. unfold process_file. rewrite Hv. cbn [negb].
  apply parsed_name_no_paren in Hp. destruct (no_paren_no_search _ Hp) as [H4 H2].
  unfold extract_title_year. fold (parsed_name n). rewrite H4, H2.
  cbn [fst snd]. now rewrite app_nil_r.
Qed.

Lemma video_without_year_witness :
  process_file false true (L "Movie.Title.2015.1080p.mkv")
    ([(L "Movie.Title.2015.1080p.mkv", File 1)], []) =
    ([(L "Movie.Title.2015.1080p.mkv", File 1)],
     [CouldNotExtract (L "Movie.Title.2015.1080p.mkv")]).
Proof.
  exact (video_without_year false true (L "Movie.Title.2015.1080p.mkv")
           ([(L "Movie.Title.2015.1080p.mkv", File 1)], []) eq_refl eq_refl).
Defined.

(** When the rename of a folder fails -- the canonical name is taken and
    the platform refuses it, or it is taken by a file or by a directory
    that is not empty -- the error is reported and the contents of the
    folder are not processed. *)
Theorem folder_rename_refused (replaces : bool) (n t y : str) (folder : dir)
    (target : entry) (root : dir) (out : list event) :
  fst (extract_title_year false n) = Some (t, y) ->
  n <> format_name t y ->
  lookup n root = Some (Dir folder) ->
  lookup (format_name t y) root = Some target ->
  replaces = false \/ target <> Dir [] ->
  process_folder false replaces n (root, out) =
    (root,
     ((out ++ snd (extract_title_year false n))
      ++ [Action false Rename n (format_name t y)]) ++ [ErrorRenaming (L "folder")],
     Returned).
Proof.
  intros Hx Hn Ln Lt Hr. unfold process_folder.
  destruct (extract_title_year false n) as [ty w]. cbn [fst snd] in *. subst ty.
  apply str_eqb_neq in Hn. rewrite Hn.
  assert (E : os_rename replaces n (format_name t y) root = None).
  { unfold os_rename. rewrite Ln, Lt, Hn.
    destruct replaces; auto. destruct Hr as [Hr|Hr]; [discriminate|].
    destruct target as [|[|]]; auto. congruence. }
  now rewrite E.
Qed.

Lemma folder_rename_refused_witness :
  process_folder false false (L "Show (2019) [YTS.MX]")
    ([(L "Show (2019) [YTS.MX]", Dir [(L "movie.mkv", File 1)]);
      (L "Show (2019)", Dir [])], []) =
    ([(L "Show (2019) [YTS.MX]", Dir [(L "movie.mkv", File 1)]);
      (L "Show (2019)", Dir [])],
     [Action false Rename (L "Show (2019) [YTS.MX]") (L "Show (2019)");
      ErrorRenaming (L "folder")],
     Returned).
Proof.
  refine (folder_rename_refused false (L "Show (2019) [YTS.MX]") (L "Show") (L "2019")
            [(L "movie.mkv", File 1)] (Dir [])
            [(L "Show (2019) [YTS.MX]", Dir [(L "movie.mkv", File 1)]);
             (L "Show (2019)", Dir [])] [] eq_refl _ eq_refl eq_refl (or_introl eq_refl)).
  discriminate.
Defined.

(** ** The name a video is given *)

Lemma stem_app (a n : str) : a <> [] -> suffix n <> [] -> stem (a ++ suffix n) = a.
Proof.
  intros Ha Hn.
  destruct (suffix_shape n) as [E | (b & r & _ & E & _ & Hr & Hd)]; [contradiction|].
  rewrite E. unfold stem, suffix_index.
  rewrite (rfind_dot_app a r Hd), length_app.
  replace ((0 <? List.length a) && (S (List.length a) <? List.length a + List.length (period :: r)))
    with true.
  - apply firstn_length_app.
  - symmetry. apply andb_true_iff. split; apply Nat.ltb_lt.
    + destruct a; [contradiction | simpl; lia].
    + destruct r; [contradiction | simpl; lia].
Qed.

(** A name made of a stem that is not empty and the suffix of a file has
    that suffix and that stem: a renamed file keeps its extension, in the
    letter case it had. *)
Theorem renamed_keeps_suffix (a n : str) :
  a <> [] -> suffix n <> [] ->
  suffix (a ++ suffix n) = suffix n /\ stem (a ++ suffix n) = a.
Proof. intros Ha Hn. split; [now apply suffix_app | now apply stem_app]. Qed.

Lemma renamed_keeps_suffix_witness :
  suffix (L "Show (2019)" ++ suffix (L "show.2019.x264.MKV")) = suffix (L "show.2019.x264.MKV") /\
  stem (L "Show (2019)" ++ suffix (L "show.2019.x264.MKV")) = L "Show (2019)".
Proof.
  apply (renamed_keeps_suffix (L "Show (2019)") (L "show.2019.x264.MKV")); discriminate.
Defined.

Lemma extract_by_parsed_name (dry_run : bool) (a b : str) :
  parsed_name a = parsed_name b -> extract_title_year dry_run a = extract_title_year dry_run b.
Proof.
  intros H. unfold extract_title_year. fold (parsed_name a). fold (parsed_name b).
  now rewrite H.
Qed.

Lemma suffix_has_period (n : str) : suffix n <> [] -> suffix n <> [period] /\ suffix n <> [].
Proof.
  intros H. split; auto.
  destruct (suffix_shape n) as [E | (b & r & _ & E & _ & Hr & _)]; [contradiction|].
  rewrite E. intros [= ->]. contradiction.
Qed.

(** The name given to a loose video is left alone when process_file meets
    it again: it is reported as already formatted.  The title is one without
    parenthesis, opening bracket and [-RARBG]. *)
Theorem renamed_video_formatted (dry_run dry_run' replaces : bool) (n t y : str)
    (st : dir * list event) :
  fst (extract_title_year dry_run n) = Some (t, y) ->
  existsb (is_char "("%char) t = false -> existsb (is_char ")"%char) t = false ->
  existsb (is_char "["%char) t = false -> occurs_ci (L "-RARBG") t = false ->
  mem (lower (suffix n)) video_extensions = true ->
  forallb no_slash (suffix n) = true ->
  process_file dry_run' replaces (format_name t y ++ suffix n) st =
    (fst st, snd st ++ [AlreadyFormatted (format_name t y ++ suffix n)]).
Proof.
  intros Hx Ho Hc Hb Hr Hv Hs.
  destruct (extract_some_facts dry_run n t y Hx) as (Hy & Hne & Hp & Hts & Hsp & He).
  assert (Hsn : suffix n <> []) by now apply video_suffix_nonempty.
  assert (Hf : format_name t y <> []) by apply format_name_nonempty.
  set (new := format_name t y ++ suffix n).
  assert (Sn : suffix new = suffix n) by now apply suffix_app.
  assert (Hfs : forallb no_slash (format_name t y) = true).
  { unfold format_name. rewrite !forallb_app, Hts. simpl.
    apply andb_true_iff. split; auto.
    apply existsb_false_forallb. now apply year_lacks. }
  assert (Hfp : existsb (is_char period) (format_name t y) = false).
  { unfold format_name. rewrite !existsb_app. simpl.
    rewrite (year_lacks period y eq_refl Hy).
    rewrite (existsb_weaken (is_char period) (one_of (L "._")) t); auto.
    intros c Hcp. apply is_char_eq in Hcp. now subst c. }
  assert (Hf1 : format_name t y <> [period]).
  { intros E. rewrite E in Hfp. discriminate. }
  assert (Pn : parsed_name new = parsed_name (format_name t y)).
  { unfold parsed_name. rewrite (path_name_id (format_name t y) Hfs Hf Hf1).
    rewrite (stem_id _ Hfp). rewrite path_name_id.
    - unfold new. now rewrite stem_app.
    - unfold new. now rewrite forallb_app, Hfs, Hs.
    - unfold new. intros E. apply app_eq_nil in E. tauto.
    - unfold new. intros E. destruct (format_name t y) as [|c [|c' u]] eqn:F.
      + contradiction.
      + simpl in E. injection E as -> E. contradiction.
      + discriminate. }
  unfold process_file. rewrite Sn, Hv. cbn [negb].
  rewrite (extract_by_parsed_name dry_run' _ _ Pn).
  rewrite (reparse t y Hne Hts Hp Hsp He Ho Hc Hb Hr Hy dry_run').
  cbn [fst snd]. fold new. rewrite str_eqb_refl. now rewrite app_nil_r.
Qed.

Lemma renamed_video_formatted_witness :
  process_file false true (L "Heat (1995).mkv") ([(L "Heat (1995).mkv", File 1)], []) =
    ([(L "Heat (1995).mkv", File 1)], [AlreadyFormatted (L "Heat (1995).mkv")]).
Proof.
  exact (renamed_video_formatted false false true (L "Heat.(1995).1080p.BluRay.mkv")
           (L "Heat") (L "1995") ([(L "Heat (1995).mkv", File 1)], [])
           eq_refl eq_refl eq_refl eq_refl eq_refl eq_refl eq_refl).
Defined.

(** ** The repair of a doubled parenthesis *)





Lemma last_tail (a b : str) (d : ascii) : b <> [] -> last (a ++ b) d = last b d.
Proof.
  intros Hb. induction a as [|c a IH]; auto.
  cbn [app]. destruct (a ++ b) eqn:E; [apply app_eq_nil in E; tauto|].
  rewrite <- IH. reflexivity.
Qed.






(** *** The names of the moved subtitles *)

Lemma digits_of_uint (u : Decimal.uint) :
  forallb (fun c => negb (Ascii.eqb c period)) (L (NilEmpty.string_of_uint u)) = true.
Proof. induction u; cbn; auto. Qed.

Lemma L_inj (a b : string) : L a = L b -> a = b.
Proof.
  intros H. rewrite <- (string_of_list_ascii_of_string a),
    <- (string_of_list_ascii_of_string b).
  unfold L in H. now rewrite H.
Qed.

Lemma str_of_nat_inj (i j : nat) : str_of_nat i = str_of_nat j -> i = j.
Proof.
  unfold str_of_nat. intros H. apply L_inj in H.
  apply DecimalNat.Unsigned.to_uint_inj.
  assert (K : Some (Nat.to_uint i) = Some (Nat.to_uint j))
    by (rewrite <- !NilEmpty.usu; now rewrite H).
  now injection K.
Qed.

Lemma str_of_nat_nonempty (i : nat) : str_of_nat i <> [].
Proof.
  unfold str_of_nat. intros H.
  assert (E : Nat.to_uint i = Decimal.Nil).
  { destruct (Nat.to_uint i); try discriminate. reflexivity. }
  assert (Z : i = 0) by (rewrite <- (DecimalNat.Unsigned.of_to i), E; reflexivity).
  subst i. discriminate.
Qed.

Lemma str_of_nat_no_period (i : nat) :
  forallb (fun c => negb (Ascii.eqb c period)) (str_of_nat i) = true.
Proof. apply digits_of_uint. Qed.

(** Two texts without a period, each followed by nothing or by a period and
    more, are equal when the whole strings are. *)
Lemma split_at_period (a b x y : str) :
  forallb (fun c => negb (Ascii.eqb c period)) a = true ->
  forallb (fun c => negb (Ascii.eqb c period)) b = true ->
  (x = [] \/ exists r, x = period :: r) ->
  (y = [] \/ exists r, y = period :: r) ->
  a ++ x = b ++ y -> a = b.
Proof.
  revert b. induction a as [|c a IH]; intros [|e b] Ha Hb Hx Hy H.
  - reflexivity.
  - cbn in H. cbn [forallb] in Hb. apply andb_prop in Hb as [He _].
    destruct Hx as [-> | [r ->]]; [discriminate|].
    injection H as <- _. now rewrite Ascii.eqb_refl in He.
  - cbn in H. cbn [forallb] in Ha. apply andb_prop in Ha as [Hc _].
    destruct Hy as [-> | [r ->]]; [discriminate|].
    injection H as -> _. now rewrite Ascii.eqb_refl in Hc.
  - cbn in H. injection H as -> H.
    cbn [forallb] in Ha, Hb.
    apply andb_prop in Ha as [_ Ha]. apply andb_prop in Hb as [_ Hb].
    f_equal. now apply (IH b).
Qed.

Lemma suffix_starts (n : str) : suffix n = [] \/ exists r, suffix n = period :: r.
Proof.
  destruct (suffix_shape n) as [E | (a & r & _ & E & _)]; [now left|].
  right. now exists r.
Qed.

Lemma moved_name_neq (movie_name : str) (i j : nat) (f g : str) :
  1 <= i -> i < j ->
  moved_name movie_name i f <> moved_name movie_name j g.
Proof.
  intros Hi Hj. unfold moved_name.
  replace (1 <? j) with true by (symmetry; apply Nat.ltb_lt; lia).
  destruct (1 <? i) eqn:E; intros H;
    apply app_inv_head in H; apply app_inv_head in H.
  - apply Nat.ltb_lt in E.
    apply split_at_period in H;
      auto using str_of_nat_no_period, suffix_starts.
    apply str_of_nat_inj in H. lia.
  - change (suffix f) with ([] ++ suffix f) in H.
    apply split_at_period in H;
      auto using str_of_nat_no_period, suffix_starts.
    symmetry in H. now apply str_of_nat_nonempty in H.
Qed.

(** The names that organize_subtitles gives to the subtitles it moves into
    [Subs] differ from one turn of the loop to a later one, whatever the
    files are called: no moved subtitle takes the name of one moved before
    it. *)
Theorem moved_names_distinct (movie_name : str) (i j : nat) (f g : str) :
  1 <= i -> i < j ->
  moved_name movie_name i f <> moved_name movie_name j g.
Proof. exact (moved_name_neq movie_name i j f g). Qed.

Lemma moved_names_distinct_witness :
  1 <= 1 /\ 1 < 2 /\
  moved_name (L "Heat (1995)") 1 (L "b.srt") <> moved_name (L "Heat (1995)") 2 (L "c.srt").
Proof.
  split; [lia|]. split; [lia|].
  apply (moved_names_distinct (L "Heat (1995)") 1 2 (L "b.srt") (L "c.srt")); lia.
Defined.

(** ** A movie folder put in order *)

Lemma files_with_in (exts : list str) (d : dir) (m : str) :
  In m (files_with exts d) -> exists e, lookup m d = Some e.
Proof.
  unfold files_with. intros H. apply in_map_iff in H.
  destruct H as ([n e] & <- & H). apply filter_In in H. destruct H as [H _].
  cbn [fst]. induction d as [|[k e'] d IH]; [contradiction|].
  cbn [lookup]. name_cases k n; [eauto|].
  destruct H as [H|H]; [congruence | auto].
Qed.

Lemma files_with_pruned (exts : list str) (d : dir) (m : str) :
  In m (files_with exts (prune d)) -> In m (files_with exts d).
Proof.
  induction d as [|k x d IH|k s d _ IH] using dir_induction; [auto| |].
  - rewrite prune_file, files_with_file. destruct (is_unwanted [k]).
    + intros H. destruct (mem (lower (suffix k)) exts); [right|]; auto.
    + rewrite files_with_file. destruct (mem (lower (suffix k)) exts); [|auto].
      intros [H|H]; [now left | right; auto].
  - rewrite prune_dir, !files_with_dir. auto.
Qed.

Lemma files_with_renamed (exts : list str) (old new : str) (d : dir) (m : str) :
  mem (lower (suffix new)) exts = false ->
  In m (files_with exts (rename_key old new d)) -> In m (files_with exts d).
Proof.
  intros Hn. induction d as [|k x d IH|k s d _ IH] using dir_induction; [auto| |];
    cbn [rename_key]; name_cases k old.
  - rewrite !files_with_file, Hn. destruct (mem (lower (suffix k)) exts); [right|]; auto.
  - rewrite !files_with_file. destruct (mem (lower (suffix k)) exts); [|auto].
    intros [H|H]; [now left | right; auto].
  - rewrite !files_with_dir. auto.
  - rewrite !files_with_dir. auto.
Qed.

Lemma no_files_with (exts : list str) (d d' : dir) :
  (forall m, In m (files_with exts d') -> In m (files_with exts d)) ->
  files_with exts d = [] -> files_with exts d' = [].
Proof.
  intros H E. destruct (files_with exts d') as [|m l]; [reflexivity|].
  specialize (H m (or_introl eq_refl)). rewrite E in H. contradiction.
Qed.

(** The contents of a folder with one video and no subtitle: the unwanted
    files go and the video takes the name of the folder. *)
Lemma one_video_contents (replaces : bool) (folder : dir) (folder_name v : str) :
  folder_name <> [] ->
  well_formed folder = true ->
  files_with video_extensions folder = [v] ->
  files_with subtitle_extensions folder = [] ->
  lookup (folder_name ++ suffix v) folder = None ->
  fst (fst (process_folder_contents false replaces folder folder_name)) =
    rename_key v (folder_name ++ suffix v) (prune folder) /\
  snd (process_folder_contents false replaces folder folder_name) = Returned.
Proof.
  intros Hf W Hv Hs Hfree. unfold process_folder_contents.
  pose proof (remove_unwanted_files_prune folder W) as P.
  destruct (remove_unwanted_files false folder) as [[d1 removed] out1].
  cbn [fst] in P. subst d1. rewrite files_with_prune, Hv.
  cbn [rename_videos].
  assert (Iv : In v (files_with video_extensions folder)) by (rewrite Hv; now left).
  pose proof (files_with_suffix _ _ _ Iv) as Sv.
  assert (Lv : exists e, lookup v (prune folder) = Some e).
  { apply (files_with_in video_extensions). rewrite files_with_prune. exact Iv. }
  destruct Lv as [e Lv].
  assert (Ln : lookup (folder_name ++ suffix v) (prune folder) = None).
  { rewrite (lookup_prune _ _ W), Hfree. reflexivity. }
  assert (Ne : str_eqb v (folder_name ++ suffix v) = false).
  { apply str_eqb_neq. intros E. rewrite <- E in Ln. congruence. }
  rewrite Ne.
  rewrite (rename_reported_done replaces (L "video") v (folder_name ++ suffix v)
             (prune folder) _ out1 (os_rename_free replaces _ _ e _ Lv Ln)).
  assert (Hs' : files_with subtitle_extensions
                  (rename_key v (folder_name ++ suffix v) (prune folder)) = []).
  { apply (no_files_with subtitle_extensions folder); [|exact Hs].
    intros m H. apply files_with_pruned.
    apply (files_with_renamed subtitle_extensions v (folder_name ++ suffix v)); [|exact H].
    rewrite (suffix_app folder_name v Hf (video_suffix_nonempty v Sv)).
    destruct (mem (lower (suffix v)) subtitle_extensions) eqn:M; [|reflexivity].
    apply subtitle_not_video in M. congruence. }
  unfold organize_subtitles. rewrite Hs'. now split.
Qed.

(** A folder whose name gives a title and a year, that holds one video and
    no subtitle, and whose canonical name is free: the folder is renamed to
    [Title (Year)], its unwanted files are removed and its video is renamed
    to [Title (Year)] with the suffix it had. *)
Theorem movie_folder_normalized (replaces : bool) (n t y v : str) (folder root : dir)
    (out : list event) :
  fst (extract_title_year false n) = Some (t, y) ->
  n <> format_name t y ->
  lookup n root = Some (Dir folder) ->
  lookup (format_name t y) root = None ->
  well_formed folder = true ->
  files_with video_extensions folder = [v] ->
  files_with subtitle_extensions folder = [] ->
  lookup (format_name t y ++ suffix v) folder = None ->
  fst (fst (process_folder false replaces n (root, out))) =
    set_entry (format_name t y)
      (Dir (rename_key v (format_name t y ++ suffix v) (prune folder)))
      (rename_key n (format_name t y) root) /\
  lookup (format_name t y) (fst (fst (process_folder false replaces n (root, out)))) =
    Some (Dir (rename_key v (format_name t y ++ suffix v) (prune folder))) /\
  snd (process_folder false replaces n (root, out)) = Returned.
Proof.
  intros Hx Hn Ln Lt W Hv Hs Hfree.
  assert (Lf : lookup (format_name t y) (rename_key n (format_name t y) root) =
               Some (Dir folder)) by now apply lookup_rename_key_new.
  assert (E : process_folder false replaces n (root, out) =
              (set_entry (format_name t y)
                 (Dir (fst (fst (process_folder_contents false replaces folder
                                   (format_name t y)))))
                 (rename_key n (format_name t y) root),
               ((out ++ snd (extract_title_year false n))
                ++ [Action false Rename n (format_name t y)])
               ++ snd (fst (process_folder_contents false replaces folder
                              (format_name t y))),
               snd (process_folder_contents false replaces folder (format_name t y)))).
  { unfold process_folder.
    destruct (extract_title_year false n) as [ty w]. cbn [fst snd] in *. subst ty.
    apply str_eqb_neq in Hn. rewrite Hn.
    rewrite (os_rename_free replaces n (format_name t y) (Dir folder) root Ln Lt).
    unfold descend. cbn [fst snd]. rewrite Lf.
    now destruct (process_folder_contents false replaces folder (format_name t y))
      as [[d' o'] oc']. }
  destruct (one_video_contents replaces folder (format_name t y) v
              (format_name_nonempty t y) W Hv Hs Hfree) as [C1 C2].
  rewrite E. cbn [fst snd]. rewrite C1, C2.
  split; [reflexivity|]. split; [|reflexivity].
  now apply (lookup_set_entry_same _ (Dir folder)).
Qed.

Lemma movie_folder_normalized_witness :
  fst (fst (process_folder false true (L "Heat (1995) 1080p")
              ([(L "Heat (1995) 1080p",
                 Dir [(L "heat.cd1.MKV", File 1); (L "info.nfo", File 2)])], []))) =
    [(L "Heat (1995)", Dir [(L "Heat (1995).MKV", File 1)])].
Proof.
  refine (proj1 (movie_folder_normalized true (L "Heat (1995) 1080p") (L "Heat") (L "1995")
                   (L "heat.cd1.MKV")
                   [(L "heat.cd1.MKV", File 1); (L "info.nfo", File 2)]
                   [(L "Heat (1995) 1080p",
                     Dir [(L "heat.cd1.MKV", File 1); (L "info.nfo", File 2)])] []
                   eq_refl _ eq_refl eq_refl eq_refl eq_refl eq_refl eq_refl)).
  discriminate.
Defined.

(** ** The subtitles moved into [Subs] *)

Lemma lookup_app_none (n : str) (d d' : dir) :
  lookup n d = None -> lookup n (d ++ d') = lookup n d'.
Proof.
  induction d as [|[m e] d IH]; cbn [lookup app]; auto.
  name_cases m n; [discriminate | auto].
Qed.

Lemma distinct_cons (m : str) (l : list str) :
  distinct (m :: l) = true -> ~ In m l /\ distinct l = true.
Proof.
  cbn [distinct]. intros H. apply andb_prop in H as [H1 H2].
  split; [|exact H2]. apply mem_false. now destruct (mem m l).
Qed.

Lemma files_with_lookup (exts : list str) (d : dir) (f : str) :
  distinct (map fst d) = true -> In f (files_with exts d) ->
  exists x, lookup f d = Some (File x).
Proof.
  induction d as [|m x d IH|m s d _ IH] using dir_induction; [contradiction| |];
    cbn [map fst]; intros D H; apply distinct_cons in D as [Hm D];
    pose proof (lookup_not_listed m d Hm) as Lm.
  - rewrite files_with_file in H.
    assert (K : f = m \/ In f (files_with exts d)).
    { destruct (mem (lower (suffix m)) exts); [destruct H; auto | auto]. }
    cbn [lookup]. destruct K as [->|K].
    + rewrite str_eqb_refl. eauto.
    + destruct (IH D K) as [x' Lx]. name_cases m f; [congruence | eauto].
  - rewrite files_with_dir in H. destruct (IH D H) as [x' Lx].
    cbn [lookup]. name_cases m f; [congruence | eauto].
Qed.

Lemma files_with_NoDup (exts : list str) (d : dir) :
  distinct (map fst d) = true -> NoDup (files_with exts d).
Proof.
  induction d as [|m x d IH|m s d _ IH] using dir_induction; [constructor| |];
    cbn [map fst]; intros D; apply distinct_cons in D as [Hm D].
  - rewrite files_with_file. destruct (mem (lower (suffix m)) exts); [|auto].
    constructor; [|auto]. intros H. apply files_with_in in H as [e He].
    rewrite (lookup_not_listed m d Hm) in He. discriminate.
  - rewrite files_with_dir. auto.
Qed.

Lemma subs_not_subtitle (f : str) :
  mem (lower (suffix f)) subtitle_extensions = true -> f <> subs.
Proof. intros H ->. discriminate. Qed.

Lemma subs_not_given (movie_name f : str) :
  suffix f <> [] -> movie_name ++ suffix f <> subs.
Proof.
  intros Hf E. destruct (suffix_starts f) as [K | [r K]]; [contradiction|].
  assert (H : In period subs) by (rewrite <- E, K; apply in_or_app; right; now left).
  cbn in H. repeat (destruct H as [H|H]; [discriminate|]). exact H.
Qed.

(** The loop of organize_subtitles, from a folder whose [Subs] holds names
    given at earlier turns only. *)
Lemma move_additional_subs (movie_name : str) (files : list str) :
  forall (i : nat) (d : dir) (out : list event) (sd : dir),
  1 <= i ->
  NoDup files ->
  (forall f, In f files -> f <> subs) ->
  (forall f, In f files -> exists e, lookup f d = Some e) ->
  lookup subs d = Some (Dir sd) ->
  (forall m, In m (map fst sd) ->
     exists j g, 1 <= j /\ j < i /\ m = moved_name movie_name j g) ->
  exists sdf,
    lookup subs (fst (move_additional false movie_name i files (d, out))) = Some (Dir sdf) /\
    List.length sdf = List.length sd + List.length files /\
    (forall k f, nth_error files k = Some f ->
       lookup (moved_name movie_name (i + k) f) sdf = lookup f d) /\
    (forall m e, lookup m sd = Some e -> lookup m sdf = Some e) /\
    (In ErrorMoving (snd (move_additional false movie_name i files (d, out))) ->
     In ErrorMoving out).
Proof.
  induction files as [|f rest IH]; intros i d out sd Hi Hnd Hs Hl Ls Hn.
  - exists sd. cbn [move_additional fst snd List.length].
    split; [exact Ls|]. split; [lia|]. split; [|split; auto].
    intros [|k] f H; discriminate.
  - cbn [move_additional].
    destruct (Hl f (or_introl eq_refl)) as [e Le].
    assert (Ln : lookup (moved_name movie_name i f) sd = None).
    { apply lookup_not_listed. intros Hin.
      destruct (Hn _ Hin) as (j & g & Hj1 & Hj2 & E).
      now apply (moved_name_neq movie_name j i g f Hj1 Hj2). }
    assert (Em : move_to_subs f (moved_name movie_name i f) d =
                 Some (set_entry subs (Dir (sd ++ [(moved_name movie_name i f, e)]))
                         (remove f d))).
    { unfold move_to_subs, put. now rewrite Le, Ls, Ln. }
    rewrite Em.
    assert (Hf : f <> subs) by (apply Hs; now left).
    apply NoDup_cons_iff in Hnd as [Hnf Hnd].
    assert (Frame : forall g, In g rest ->
              lookup g (set_entry subs (Dir (sd ++ [(moved_name movie_name i f, e)]))
                          (remove f d)) = lookup g d).
    { intros g Hg. rewrite lookup_set_entry by (apply Hs; now right).
      apply lookup_remove. intros ->. contradiction. }
    destruct (IH (S i)
                (set_entry subs (Dir (sd ++ [(moved_name movie_name i f, e)])) (remove f d))
                (out ++ [Action false Move f (L "Subs/" ++ moved_name movie_name i f)])
                (sd ++ [(moved_name movie_name i f, e)]))
      as (sdf & R1 & R2 & R3 & R4 & R5).
    + lia.
    + exact Hnd.
    + intros g Hg. apply Hs. now right.
    + intros g Hg. rewrite (Frame g Hg). apply Hl. now right.
    + apply (lookup_set_entry_same subs (Dir sd)).
      rewrite lookup_remove; [exact Ls | congruence].
    + intros m Hm. rewrite map_app in Hm. apply in_app_or in Hm as [Hm|Hm].
      * destruct (Hn m Hm) as (j & g & Hj1 & Hj2 & E).
        exists j, g. repeat split; auto.
      * destruct Hm as [<-|[]]. exists i, f. repeat split; auto.
    + exists sdf. split; [exact R1|]. split.
      { rewrite R2, length_app. cbn [List.length]. lia. }
      split; [|split].
      * intros [|k] g Hg.
        -- cbn [nth_error] in Hg. injection Hg as <-. rewrite Nat.add_0_r, Le.
           apply R4. rewrite (lookup_app_none _ _ _ Ln). cbn [lookup].
           now rewrite str_eqb_refl.
        -- cbn [nth_error] in Hg. replace (i + S k) with (S i + k) by lia.
           rewrite (R3 k g Hg). apply Frame. eapply nth_error_In; eauto.
      * intros m e' H. apply R4. now apply lookup_app_some.
      * intros H. apply R5 in H. apply in_app_or in H as [H|[H|[]]]; [exact H | discriminate].
Qed.

(** In a folder with two subtitles or more, no two entries of one name and
    nothing named [Subs]: every subtitle after the first is in [Subs]
    afterwards, under the name of its turn and with its content, [Subs]
    holds nothing else, and no move fails. *)
Theorem subtitles_moved (replaces : bool) (d : dir) (movie_name main o : str)
    (others : list str) :
  distinct (map fst d) = true ->
  files_with subtitle_extensions d = main :: o :: others ->
  lookup subs d = None ->
  snd (organize_subtitles false replaces d movie_name) = Returned /\
  ~ In ErrorMoving (snd (fst (organize_subtitles false replaces d movie_name))) /\
  exists sd,
    lookup subs (fst (fst (organize_subtitles false replaces d movie_name))) =
      Some (Dir sd) /\
    List.length sd = S (List.length others) /\
    forall k f, nth_error (o :: others) k = Some f ->
      exists x, lookup f d = Some (File x) /\
                lookup (moved_name movie_name (S k) f) sd = Some (File x).
Proof.
  intros D Hf Ls.
  pose proof (files_with_NoDup subtitle_extensions d D) as Hnd.
  pose proof (files_with_suffix subtitle_extensions d) as Hsfx.
  pose proof (files_with_lookup subtitle_extensions d) as Hlk.
  rewrite Hf in Hnd, Hsfx, Hlk.
  apply NoDup_cons_iff in Hnd as [_ Hnd].
  destruct (move_additional_subs movie_name (o :: others) 1 (d ++ [(subs, Dir [])]) [] [])
    as (sdf & R1 & R2 & R3 & _ & R5).
  - lia.
  - exact Hnd.
  - intros f H. apply subs_not_subtitle, Hsfx. now right.
  - intros f H. destruct (Hlk f D (or_intror H)) as [x Lx].
    exists (File x). now apply lookup_app_some.
  - rewrite (lookup_app_none _ _ _ Ls). reflexivity.
  - intros m [].
  - assert (Hmain : main <> subs) by (apply subs_not_subtitle, Hsfx; now left).
    assert (Hnew : movie_name ++ suffix main <> subs).
    { apply subs_not_given. intros E.
      pose proof (Hsfx main (or_introl eq_refl)) as K. rewrite E in K. discriminate. }
    assert (K : snd (organize_subtitles false replaces d movie_name) = Returned /\
                lookup subs (fst (fst (organize_subtitles false replaces d movie_name))) =
                  Some (Dir sdf) /\
                (In ErrorMoving (snd (fst (organize_subtitles false replaces d movie_name)))
                 -> False)).
    { unfold organize_subtitles. rewrite Hf. unfold mkdir_exist_ok. rewrite Ls.
      revert R1 R5.
      destruct (move_additional false movie_name 1 (o :: others) _) as [d1 out1].
      cbn [fst snd]. intros R1 R5.
      destruct (str_eqb main (movie_name ++ suffix main)); cbn [fst snd];
        [split; [reflexivity|]; split; [exact R1 | exact R5]|].
      unfold rename_reported.
      destruct (os_rename replaces main (movie_name ++ suffix main) d1) as [d2|] eqn:E;
        cbn [fst snd].
      - split; [reflexivity|]. split.
        + rewrite (os_rename_frame replaces subs _ _ d1 d2 E); [exact R1 | congruence | congruence].
        + intros H. apply in_app_or in H as [H|[H|[]]]; [exact (R5 H) | discriminate].
      - split; [reflexivity|]. split; [exact R1|].
        intros H. apply in_app_or in H as [H|[H|[]]]; [|discriminate].
        apply in_app_or in H as [H|[H|[]]]; [exact (R5 H) | discriminate]. }
    destruct K as (K1 & K2 & K3).
    split; [exact K1|]. split; [exact K3|].
    exists sdf. split; [exact K2|]. split; [exact R2|].
    intros k f H.
    destruct (Hlk f D (or_intror (nth_error_In _ _ H))) as [x Lx].
    exists x. split; [exact Lx|].
    change (S k) with (1 + k). rewrite (R3 k f H).
    now apply lookup_app_some.
Qed.

Lemma subtitles_moved_witness :
  exists sd,
    lookup subs (fst (fst (organize_subtitles false true
                             [(L "m.mkv", File 0); (L "a.srt", File 1);
                              (L "b.srt", File 2); (L "c.sub", File 3)]
                             (L "Heat (1995)")))) = Some (Dir sd) /\
    List.length sd = 2.
Proof.
  destruct (subtitles_moved true
              [(L "m.mkv", File 0); (L "a.srt", File 1);
               (L "b.srt", File 2); (L "c.sub", File 3)]
              (L "Heat (1995)") (L "a.srt") (L "b.srt") [L "c.sub"]
              eq_refl eq_refl eq_refl) as (_ & _ & sd & H1 & H2 & _).
  exists sd. now split.
Defined.

(** ** The truncated marker after any title *)

(** What a match of the tail of the pattern tells about the text. *)
Lemma paren_tail_shape (body : pattern) (Y : str -> bool)
    (body_inv : forall pat pos s marks r,
       run (body ++ pat) pos s marks = Some r ->
       exists y s', s = y ++ s' /\ Y y = true /\
                    run pat (pos + List.length y) s' marks = Some r)
    (s : str) (pos : nat) (marks : list nat) (r : result) :
  run (paren_tail body) pos s marks = Some r -> marker_text Y s.
Proof.
  intros E. unfold paren_tail in E. cbn [app run exactly] in E.
  apply rep_greedy_inv in E. destruct E as (w2 & s2' & -> & H2 & E).
  cbn [run] in E. destruct s2' as [|c2 s3']; [discriminate|].
  destruct (is_char "("%char c2) eqn:C2; [|discriminate].
  apply is_char_eq in C2. subst c2.
  apply rep_greedy_inv in E. destruct E as (w3 & s4' & -> & H3 & E).
  cbn [run] in E. apply body_inv in E. destruct E as (y & s5' & -> & Hy & E).
  unfold close_tail in E. cbn [run exactly] in E.
  apply rep_greedy_inv in E. destruct E as (w4 & s6' & -> & H4 & E).
  cbn [run] in E. destruct s6' as [|c6 s7']; [discriminate|].
  destruct (is_char ")"%char c6) eqn:C6; [|discriminate].
  apply is_char_eq in C6. subst c6.
  exists w2, w3, y, w4, s7'. repeat split; auto.
Qed.

(** The pattern on [title ws ( ws body ws ) rest] when the title holds no
    earlier marker: the lazy group stops at the end of the title. *)
Lemma paren_search_first (body : pattern) (Y : str -> bool)
    (body_fwd : forall y s pat pos marks,
       Y y = true ->
       run (body ++ pat) pos (y ++ s) marks = run pat (pos + List.length y) s marks)
    (body_inv : forall pat pos s marks r,
       run (body ++ pat) pos s marks = Some r ->
       exists y s', s = y ++ s' /\ Y y = true /\
                    run pat (pos + List.length y) s' marks = Some r)
    (body_rej : forall pat pos c s marks,
       is_space c = true -> run (body ++ pat) pos (c :: s) marks = None)
    (Y_first : forall y s, Y y = true -> starts_outside is_space (y ++ s))
    (t s1 s2 y s3 r : str) :
  t <> [] -> forallb dot t = true ->
  first_marker Y t (s1 ++ L "(" ++ s2 ++ y ++ s3 ++ L ")" ++ r) ->
  forallb is_space s1 = true -> forallb is_space s2 = true ->
  forallb is_space s3 = true -> Y y = true -> forallb dot r = true ->
  search_groups (paren_pattern body) (year_text t s1 s2 y s3 r) = Some (t, y).
Proof.
  intros Hne Hd Hf H1 H2 H3 Hy Hr.
  destruct t as [|c t]; [congruence|].
  simpl in Hd. apply andb_true_iff in Hd. destruct Hd as [Hc Hd].
  destruct (paren_tail_fwd body Y body_fwd body_rej Y_first s1 s2 y s3 r
              (List.length (c :: t)) 0 H1 H2 H3 Hy Hr) as (e & Hrun).
  unfold search_groups, paren_pattern. cbn [app]. rewrite re_search_bos.
  unfold year_text. cbn [app run exactly]. rewrite Hc.
  erewrite rep_lazy_first; [| exact Hd | | exact Hrun].
  - unfold groups. cbn [snd].
    f_equal. f_equal.
    + unfold substring. rewrite Nat.sub_0_r. cbn [skipn].
      apply (firstn_length_app (c :: t)).
    + set (a := (c :: t) ++ s1 ++ L "(" ++ s2).
      replace (List.length (c :: t) + List.length s1 + 1 + List.length s2)
        with (List.length a) by (unfold a; rewrite !length_app; simpl; lia).
      replace (c :: t ++ s1 ++ L "(" ++ s2 ++ y ++ s3 ++ L ")" ++ r)
        with (a ++ y ++ s3 ++ L ")" ++ r)
        by (unfold a; simpl; now rewrite <- !app_assoc).
      apply substring_app.
  - intros i Hi.
    match goal with |- ?x = None => destruct x as [res|] eqn:E; [|reflexivity] end.
    exfalso. apply (paren_tail_shape body Y body_inv) in E.
    apply (Hf (c :: firstn i t) (skipn i t)).
    + cbn [app]. now rewrite firstn_skipn.
    + discriminate.
    + intros K. apply (f_equal (@List.length ascii)) in K.
      rewrite length_skipn in K. cbn [List.length] in K. lia.
    + exact E.
Qed.

Lemma truncated_year_first (t s1 s2 p s3 r : str) :
  t <> [] -> forallb dot t = true ->
  first_marker is_year_prefix t (s1 ++ L "(" ++ s2 ++ p ++ s3 ++ L ")" ++ r) ->
  forallb is_space s1 = true -> forallb is_space s2 = true ->
  forallb is_space s3 = true -> is_year_prefix p = true -> forallb dot r = true ->
  search_groups truncated_year (year_text t s1 s2 p s3 r) = Some (t, p).
Proof.
  rewrite truncated_year_eq.
  apply (paren_search_first prefix_body is_year_prefix prefix_body_fwd prefix_body_inv
           prefix_body_rej prefix_starts_outside).
Qed.

(** A title without an opening parenthesis and with a last character that
    is not white space holds no earlier marker. *)
Lemma marker_not_inside (Y : str -> bool) (v rest : str) :
  v <> [] -> existsb (is_char "("%char) v = false ->
  is_space (last v " "%char) = false -> ~ marker_text Y (v ++ rest).
Proof.
  intros Hv Hp Hl (s1 & s2 & y & s3 & r & E & H1 & _).
  revert s1 E H1. induction v as [|c v IH]; intros s1 E H1; [congruence|].
  cbn [existsb] in Hp. apply orb_false_iff in Hp. destruct Hp as [Hc Hp].
  destruct s1 as [|c1 s1].
  - cbn in E. injection E as -> _. now rewrite is_char_refl in Hc.
  - cbn [app] in E. injection E as <- E.
    cbn [forallb] in H1. apply andb_prop in H1 as [Sc H1].
    destruct v as [|c' v].
    + cbn [last] in Hl. congruence.
    + apply (IH ltac:(discriminate) Hp Hl s1 E H1).
Qed.

Lemma title_like_first (Y : str -> bool) (t rest : str) :
  title_like t = true -> first_marker Y t rest.
Proof.
  unfold title_like. intros Ht u v -> Hu Hv.
  apply andb_true_iff in Ht. destruct Ht as [Ht Hl].
  apply andb_true_iff in Ht. destruct Ht as [_ Hp].
  apply negb_true_iff in Hl, Hp.
  apply marker_not_inside; [exact Hv | |].
  - rewrite existsb_app in Hp. now apply orb_false_iff in Hp.
  - rewrite last_tail in Hl by exact Hv. exact Hl.
Qed.

Lemma lstrip_skip (p : ascii -> bool) (w s : str) :
  forallb p w = true -> starts_outside p s -> lstrip p (w ++ s) = s.
Proof.
  intros Hw Hs. induction w as [|c w IH]; [now apply lstrip_id|].
  cbn [forallb] in Hw. apply andb_prop in Hw as [Hc Hw].
  cbn [app lstrip]. rewrite Hc. auto.
Qed.

Lemma marker_text_starts (s : str) : marker_text is_year_prefix s -> starts_marker s = true.
Proof.
  intros (s1 & s2 & y & s3 & r & -> & H1 & H2 & H3 & Hy).
  unfold starts_marker. rewrite (lstrip_skip is_space s1) by (auto; reflexivity).
  cbn [L list_ascii_of_string app]. rewrite is_char_refl.
  assert (K : lstrip is_space (s2 ++ y ++ s3 ++ ")"%char :: r) = y ++ s3 ++ ")"%char :: r).
  { apply lstrip_skip; [exact H2|]. now apply prefix_starts_outside. }
  rewrite K.
  assert (F : firstn 2 (y ++ s3 ++ ")"%char :: r) = y /\
              skipn 2 (y ++ s3 ++ ")"%char :: r) = s3 ++ ")"%char :: r)
    by (destruct (is_year_prefix_cases y Hy) as [-> | ->]; now split).
  destruct F as [-> ->]. rewrite Hy.
  rewrite (lstrip_skip is_space s3) by (auto; reflexivity).
  now rewrite is_char_refl.
Qed.

Lemma marker_free_first (t rest : str) :
  marker_free t rest = true -> first_marker is_year_prefix t rest.
Proof.
  unfold marker_free. intros H u v -> Hu Hv M.
  apply marker_text_starts in M.
  rewrite forallb_forall in H. specialize (H (List.length u)).
  rewrite skipn_app, skipn_all, Nat.sub_diag in H. cbn [skipn app] in H.
  rewrite M in H. cbn [negb] in H.
  assert (K : In (List.length u) (seq 1 (List.length (u ++ v) - 1))).
  { apply in_seq. rewrite length_app.
    destruct u; [congruence|]. destruct v; [congruence|]. cbn [List.length]. lia. }
  specialize (H K). discriminate.
Qed.

(** C6, as the code has it.  When the pattern of the four-digit year finds
    nothing and the repaired stem is a title, then [(19)] or [(20)], then
    text on the same line, and no such marker starts earlier in the title:
    the truncated-year warning is printed with 1999 for 19 and 2020 for 20,
    and what is returned is the cleaned title with that year when the
    cleaned title is not empty, and nothing when it is empty.  The title may
    hold parentheses.  [Old Show (19).avi] gives [Old Show] and 1999. *)
Theorem truncated_year_default (dry_run : bool) (x t s1 s2 p s3 r : str) :
  search_groups year_in_parens (parsed_name x) = None ->
  parsed_name x = year_text t s1 s2 p s3 r ->
  t <> [] -> forallb dot t = true ->
  first_marker is_year_prefix t (s1 ++ L "(" ++ s2 ++ p ++ s3 ++ L ")" ++ r) ->
  forallb is_space s1 = true -> forallb is_space s2 = true ->
  forallb is_space s3 = true -> is_year_prefix p = true -> forallb dot r = true ->
  (p = L "19" /\ default_year p = L "1999" \/ p = L "20" /\ default_year p = L "2020") /\
  snd (extract_title_year dry_run x) = [TruncatedYear dry_run p (default_year p)] /\
  (clean_title (strip is_space t) <> [] ->
   fst (extract_title_year dry_run x) =
     Some (clean_title (strip is_space t), default_year p)) /\
  (clean_title (strip is_space t) = [] -> fst (extract_title_year dry_run x) = None) /\
  extract_title_year dry_run (L "Old Show (19).avi") =
    (Some (L "Old Show", L "1999"), [TruncatedYear dry_run (L "19") (L "1999")]).
Proof.
  intros H4 Hn Hne Hd Hf H1 H2 H3 Hp Hr.
  assert (E : extract_title_year dry_run x =
              (nonempty (clean_title (strip is_space t)) (default_year p),
               [TruncatedYear dry_run p (default_year p)])).
  { unfold extract_title_year. fold (parsed_name x). rewrite H4, Hn.
    now rewrite (truncated_year_first t s1 s2 p s3 r Hne Hd Hf H1 H2 H3 Hp Hr). }
  split; [destruct (is_year_prefix_cases p Hp) as [-> | ->]; auto|].
  rewrite E. cbn [fst snd]. split; [reflexivity|]. split; [|split].
  - intros Hc. destruct (clean_title (strip is_space t)); [congruence | reflexivity].
  - intros ->. reflexivity.
  - destruct dry_run; vm_compute; reflexivity.
Qed.

Lemma truncated_year_default_witness :
  snd (extract_title_year false (L "Movie (Director's Cut) (20).avi")) =
    [TruncatedYear false (L "20") (L "2020")] /\
  fst (extract_title_year false (L "Movie (Director's Cut) (20).avi")) =
    Some (L "Movie (Director's Cut", L "2020").
Proof.
  destruct (truncated_year_default false (L "Movie (Director's Cut) (20).avi")
              (L "Movie (Director's Cut)") (L " ") [] (L "20") [] []
              eq_refl eq_refl ltac:(discriminate) eq_refl
              (marker_free_first (L "Movie (Director's Cut)") (L " (20)") eq_refl) eq_refl eq_refl eq_refl eq_refl eq_refl)
    as (_ & Hw & Hs & _).
  split; [exact Hw|]. apply Hs. vm_compute. discriminate.
Defined.

(** C6 refuted as worded: with a title that is empty once the noise is gone
    the warning is printed and nothing is returned. *)
Lemma truncated_year_default_counterexample :
  extract_title_year false (L "[YTS] (19).avi") =
    (None, [TruncatedYear false (L "19") (L "1999")]) /\
  extract_title_year false (L "- (20).mkv") =
    (None, [TruncatedYear false (L "20") (L "2020")]).
Proof. split; vm_compute; reflexivity. Qed.
